(** * libzec-go: ZCash transaction building, signature hashing and submission

    A shallow embedding of the Go sources of renproject/libzec-go:

    - the ZIP-243 signature hash ([CalcSignatureHash], [sigHashKey]),
    - the address encoder ([AddressFromHash160], [encodeHash]),
    - the push-funding transaction builder ([Build], [fundZecTx], [InjectSigs]),
    - the funding planner of the account ([fund], [fundAll]) and
    - the orchestrator ([SendTransaction]).

    Machine integers are [Z] with the wrap-around of Go's fixed-width types
    written out, byte slices are [list byte], Go's [(value, error)] results are
    [result], a run-time panic (index out of range) is [Panic]. *)

From Stdlib Require Import ZArith Lia Bool String Ascii.
From Stdlib Require Import Strings.Byte.
From stdpp Require Import base list strings gmap.

Local Open Scope Z_scope.

Abbreviation bytes := (list byte).

#[global] Instance byte_eq_dec : EqDecision byte := Byte.byte_eq_dec.

(** ** Results of fallible Go code *)

Inductive error : Type :=
| ErrBadIndex (idx : Z) (txins : nat)
    (* "blake2bSignatureHash error: idx %d but %d txins" *)
| ErrHashSize                      (* chainhash.Hash.SetBytes: invalid length *)
| ErrHexDecode                     (* encoding/hex *)
| ErrHashStrSize                   (* chainhash.NewHashFromStr *)
| ErrMinimumTransfer (minimum current : Z)
    (* "minimum transfer amount is: %d current: %d" *)
| ErrInsufficientFunds (got required : Z)
    (* "insufficient balance to do the transfer:got: %d required: %d" *)
| ErrDustOutput (i : nat) (value : Z)
    (* "transaction's %d output value (%d) is less than zcash's minimum value" *)
| ErrInsufficientBalance (address : string) (required current : Z)
| ErrMismatchedPubKeys
| ErrPreConditionCheckFailed
| ErrPostConditionCheckFailed
| ErrUnsupportedNetwork (name : string)
| ErrExternal (msg : string).      (* an error of an external collaborator *)

Inductive result (A : Type) : Type :=
| Ok (a : A)
| Err (e : error)
| Panic.                           (* Go run-time panic *)
Arguments Ok {A} a.
Arguments Err {A} e.
Arguments Panic {A}.

Definition bind {A B} (r : result A) (k : A -> result B) : result B :=
  match r with
  | Ok a => k a
  | Err e => Err e
  | Panic => Panic
  end.

(** [result] is a monad in stdpp's sense: [x ← r; k] runs [k] on the value of
    a successful [r] and passes an error or a panic on. *)
#[global] Instance result_bind : MBind result := fun A B k r => bind r k.
#[global] Instance result_ret : MRet result := @Ok.

(** ** Fixed-width integers and their encodings *)

(** [uint32(v)], [uint64(v)]: conversion to an unsigned type. *)
Definition uint32 (v : Z) : Z := v mod 2 ^ 32.
Definition uint64 (v : Z) : Z := v mod 2 ^ 64.

(** int64 arithmetic wraps around in two's complement. *)
Definition int64 (v : Z) : Z := (v + 2 ^ 63) mod 2 ^ 64 - 2 ^ 63.
Definition add64 (a b : Z) : Z := int64 (a + b).
Definition sub64 (a b : Z) : Z := int64 (a - b).
Definition neg64 (a : Z) : Z := int64 (- a).

Definition in_int64 (v : Z) : Prop := - 2 ^ 63 <= v < 2 ^ 63.
Definition in_uint32 (v : Z) : Prop := 0 <= v < 2 ^ 32.

(** [byte(v)]: the low eight bits. *)
Definition byte_of_Z (v : Z) : byte :=
  match Byte.of_N (Z.to_N (v mod 256)) with
  | Some b => b
  | None => x00
  end.

Definition Z_of_byte (b : byte) : Z := Z.of_N (Byte.to_N b).

(** [binary.LittleEndian.PutUint16/32/64]. *)
Definition PutUint16 (v : Z) : bytes :=
  [byte_of_Z v; byte_of_Z (Z.shiftr v 8)].

Definition PutUint32 (v : Z) : bytes :=
  [byte_of_Z v; byte_of_Z (Z.shiftr v 8);
   byte_of_Z (Z.shiftr v 16); byte_of_Z (Z.shiftr v 24)].

Definition PutUint64 (v : Z) : bytes :=
  [byte_of_Z v; byte_of_Z (Z.shiftr v 8);
   byte_of_Z (Z.shiftr v 16); byte_of_Z (Z.shiftr v 24);
   byte_of_Z (Z.shiftr v 32); byte_of_Z (Z.shiftr v 40);
   byte_of_Z (Z.shiftr v 48); byte_of_Z (Z.shiftr v 56)].

(** Reading a little-endian byte string back as a number
    ([binary.LittleEndian.Uint32] on four bytes). *)
Fixpoint le_value (bs : bytes) : Z :=
  match bs with
  | [] => 0
  | b :: bs' => Z_of_byte b + 256 * le_value bs'
  end.

(** [wire.WriteVarInt]. *)
Definition WriteVarInt (v : Z) : bytes :=
  if v <? 253 then [byte_of_Z v]
  else if v <=? 65535 then xfd :: PutUint16 v
  else if v <=? 4294967295 then xfe :: PutUint32 v
  else xff :: PutUint64 v.

(** [wire.WriteVarBytes]: the length as a varint, then the bytes. *)
Definition WriteVarBytes (b : bytes) : bytes :=
  WriteVarInt (Z.of_nat (length b)) ++ b.

(** A Go array [[n]byte] is zero-initialised; [copy(dst[:], src)] overwrites
    its first [min n (len src)] bytes. *)
Definition copy_into (n : nat) (src : bytes) : bytes :=
  take n src ++ replicate (n - length src)%nat x00.

(** ** Transactions ([wire.MsgTx] wrapped by [zecutil.MsgTx]) *)

Record OutPoint : Type := mkOutPoint {
  Hash : bytes;                    (* chainhash.Hash, 32 bytes *)
  Index : Z                        (* uint32 *)
}.

Record TxIn : Type := mkTxIn {
  PreviousOutPoint : OutPoint;
  SignatureScript : bytes;
  Sequence : Z                     (* uint32 *)
}.

Record TxOut : Type := mkTxOut {
  Value : Z;                       (* int64 *)
  PkScript : bytes
}.

Record MsgTx : Type := mkMsgTx {
  Version : Z;                     (* int32 *)
  TxIns : list TxIn;
  TxOuts : list TxOut;
  LockTime : Z;                    (* uint32 *)
  ExpiryHeight : Z                 (* uint32, zecutil.MsgTx *)
}.

Definition MaxTxInSequenceNum : Z := 4294967295.

(** [wire.NewMsgTx(version)] inside [&zecutil.MsgTx{..., ExpiryHeight: e}]. *)
Definition NewMsgTx (version expiry : Z) : MsgTx :=
  mkMsgTx version [] [] 0 expiry.

(** [wire.NewTxIn(prevOut, signatureScript, witness)]. *)
Definition NewTxIn (prevOut : OutPoint) (signatureScript : bytes) : TxIn :=
  mkTxIn prevOut signatureScript MaxTxInSequenceNum.

Definition AddTxIn (tx : MsgTx) (ti : TxIn) : MsgTx :=
  mkMsgTx (Version tx) (TxIns tx ++ [ti]) (TxOuts tx) (LockTime tx)
          (ExpiryHeight tx).

Definition AddTxOut (tx : MsgTx) (to : TxOut) : MsgTx :=
  mkMsgTx (Version tx) (TxIns tx) (TxOuts tx ++ [to]) (LockTime tx)
          (ExpiryHeight tx).

Definition setTxIns (tx : MsgTx) (ins : list TxIn) : MsgTx :=
  mkMsgTx (Version tx) ins (TxOuts tx) (LockTime tx) (ExpiryHeight tx).

Definition setTxOuts (tx : MsgTx) (outs : list TxOut) : MsgTx :=
  mkMsgTx (Version tx) (TxIns tx) outs (LockTime tx) (ExpiryHeight tx).

(** [wire.WriteTxOut]: the value as a little-endian uint64, then the script. *)
Definition WriteTxOut (to : TxOut) : bytes :=
  PutUint64 (uint64 (Value to)) ++ WriteVarBytes (PkScript to).

(** ** The consensus-branch table and the sighash key *)

Record upgradeParam : Type := mkUpgradeParam {
  ActivationHeight : Z;            (* uint32 *)
  BranchID : bytes
}.

Definition sigHashMask : Z := 0x1f.
Definition blake2BSigHash : string := "ZcashSigHash".
Definition outputsHashPersonalization : string := "ZcashOutputsHash".

Definition versionOverwinter : Z := 3.
Definition versionSapling : Z := 4.

Definition versionOverwinterGroupID : Z := 0x3C48270.
Definition versionSaplingGroupID : Z := 0x892f2085.

Definition upgradeParams : list upgradeParam :=
  [ mkUpgradeParam 0 [x00; x00; x00; x00];
    mkUpgradeParam 207500 [x19; x1b; xa8; x5b];
    mkUpgradeParam 280000 [xbb; x09; xb8; x76] ].

(** The loop of [sigHashKey]: [i] runs from [len(params) - 1] down to [0] and
    stops at the first entry whose activation height is at most the given
    height.  [n] is [i + 1]; the result is the final [i], or [None] when the
    loop ends with [i = -1]. *)
Fixpoint sigHashKey_loop (params : list upgradeParam) (activationHeight : Z)
         (n : nat) : option nat :=
  match n with
  | O => None
  | S i =>
      match params !! i with
      | Some p =>
          if ActivationHeight p <=? activationHeight then Some i
          else sigHashKey_loop params activationHeight i
      | None => sigHashKey_loop params activationHeight i
      end
  end.

(** [sigHashKey]: indexing [upgradeParams[i]] with [i = -1] panics. *)
Definition sigHashKey (activationHeight : Z) : result bytes :=
  match sigHashKey_loop upgradeParams activationHeight (length upgradeParams) with
  | Some i =>
      match upgradeParams !! i with
      | Some p => Ok (list_byte_of_string blake2BSigHash ++ BranchID p)
      | None => Panic
      end
  | None => Panic
  end.

(** ** External cryptographic libraries

    The hash functions and the Base58 encoder come from libraries outside this
    repository (codahale/blake2, crypto/sha256, btcutil, btcutil/base58).  They
    are taken as they are typed in Go: [blake2b personal data] is the [Sum] of a
    BLAKE2b hasher configured with [Size: 32] and the given personalisation,
    [sha256] is [sha256.Sum256] (a [[32]byte]). *)
Record Crypto : Type := mkCrypto {
  blake2b : bytes -> bytes -> bytes;
  blake2b_size : forall personal data, length (blake2b personal data) = 32%nat;
  sha256 : bytes -> bytes;
  sha256_size : forall data, length (sha256 data) = 32%nat;
  Hash160 : bytes -> bytes;
  base58Encode : bytes -> string
}.

(** Go's [l[i]] for an [int] index: out of range panics. *)
Definition index {A} (l : list A) (i : Z) : result A :=
  if i <? 0 then Panic
  else match l !! Z.to_nat i with
       | Some a => Ok a
       | None => Panic
       end.

(** [chainhash.Hash.SetBytes]: the length must be [chainhash.HashSize]. *)
Definition SetBytes (newHash : bytes) : result bytes :=
  if (length newHash =? 32)%nat then Ok newHash else Err ErrHashSize.

(** [txscript.SigHashType] values. *)
Definition SigHashAll : Z := 1.
Definition SigHashNone : Z := 2.
Definition SigHashSingle : Z := 3.
Definition SigHashAnyOneCanPay : Z := 0x80.

Definition MaxUint32 : Z := 4294967295.
Definition zeroHash : bytes := replicate 32 x00.

Record TxSigHashes : Type := mkTxSigHashes {
  HashPrevOuts : bytes;
  HashSequence : bytes;
  HashOutputs : bytes
}.

Section SigHash.
Variable C : Crypto.

(** [blake2bHash]: [hash.Hash.Write] never returns an error; [SetBytes]
    rejects a digest that is not 32 bytes long. *)
Definition blake2bHash (data key : bytes) : result bytes :=
  SetBytes (blake2b C key data).

(** [zecutil.NewTxSigHashes] (the sighash cache of the zecutil library): the
    three personalised digests of the serialised outpoints, sequence numbers
    and outputs of the transaction. *)
Definition calcHashPrevOuts (tx : MsgTx) : result bytes :=
  blake2bHash
    (concat (map (fun ti => Hash (PreviousOutPoint ti)
                            ++ PutUint32 (Index (PreviousOutPoint ti)))
                 (TxIns tx)))
    (list_byte_of_string "ZcashPrevoutHash").

Definition calcHashSequence (tx : MsgTx) : result bytes :=
  blake2bHash (concat (map (fun ti => PutUint32 (Sequence ti)) (TxIns tx)))
              (list_byte_of_string "ZcashSequencHash").

Definition calcHashOutputs (tx : MsgTx) : result bytes :=
  blake2bHash (concat (map WriteTxOut (TxOuts tx)))
              (list_byte_of_string "ZcashOutputsHash").

Definition NewTxSigHashes (tx : MsgTx) : result TxSigHashes :=
  hp ← calcHashPrevOuts tx;
  hs ← calcHashSequence tx;
  ho ← calcHashOutputs tx;
  Ok (mkTxSigHashes hp hs ho).

(** The buffer [sigHash] of [CalcSignatureHash], from the header to the
    per-input section, in the order the source writes it. *)
Definition sigHashPreimage (subScript : bytes) (hashType : Z) (tx : MsgTx)
           (idx : Z) (amt : Z) (sigHashes : TxSigHashes) : result bytes :=
  (* << GetHeader *)
  let sigHash := PutUint32 (Z.lor (uint32 (Version tx)) (Z.shiftl 1 31)) in
  let versionGroupID :=
    if Version tx =? versionSapling then versionSaplingGroupID
    else versionOverwinterGroupID in
  (* << nVersionGroupId *)
  let sigHash := sigHash ++ PutUint32 versionGroupID in
  (* << hashPrevouts *)
  let sigHash := sigHash ++
    (if Z.land hashType SigHashAnyOneCanPay =? 0
     then HashPrevOuts sigHashes else zeroHash) in
  (* << hashSequence *)
  let sigHash := sigHash ++
    (if (Z.land hashType SigHashAnyOneCanPay =? 0)
        && negb (Z.land hashType sigHashMask =? SigHashSingle)
        && negb (Z.land hashType sigHashMask =? SigHashNone)
     then HashSequence sigHashes else zeroHash) in
  (* << hashOutputs *)
  hashOutputs ←
    (if negb (Z.land hashType sigHashMask =? SigHashSingle)
        && negb (Z.land hashType sigHashMask =? SigHashNone)
     then Ok (HashOutputs sigHashes)
     else if (Z.land hashType sigHashMask =? SigHashSingle)
             && (idx <? Z.of_nat (length (TxOuts tx)))
     then txOut ← index (TxOuts tx) idx;
          blake2bHash (WriteTxOut txOut)
                      (list_byte_of_string outputsHashPersonalization)
     else Ok zeroHash);
  let sigHash := sigHash ++ hashOutputs in
  (* << hashJoinSplits *)
  let sigHash := sigHash ++ zeroHash in
  (* << hashShieldedSpends *)
  let sigHash :=
    if Version tx =? versionSapling then sigHash ++ zeroHash else sigHash in
  (* << hashShieldedOutputs *)
  let sigHash :=
    if Version tx =? versionSapling then sigHash ++ zeroHash else sigHash in
  (* << nLockTime *)
  let sigHash := sigHash ++ PutUint32 (LockTime tx) in
  (* << nExpiryHeight *)
  let sigHash := sigHash ++ PutUint32 (ExpiryHeight tx) in
  (* << valueBalance *)
  let sigHash :=
    if Version tx =? versionSapling then sigHash ++ PutUint64 0
    else sigHash in
  (* << nHashType *)
  let sigHash := sigHash ++ PutUint32 (uint32 hashType) in
  if negb (idx =? MaxUint32) then
    txIn ← index (TxIns tx) idx;
    (* << prevout, scriptCode, amount, nSequence *)
    Ok (sigHash ++ Hash (PreviousOutPoint txIn)
                ++ PutUint32 (Index (PreviousOutPoint txIn))
                ++ WriteVarBytes subScript
                ++ PutUint64 (uint64 amt)
                ++ PutUint32 (Sequence txIn))
  else Ok sigHash.

Definition CalcSignatureHash (subScript : bytes) (hashType : Z) (tx : MsgTx)
           (idx : Z) (amt : Z) : result bytes :=
  sigHashes ← NewTxSigHashes tx;
  (* As a sanity check, ensure the passed input index is valid. *)
  if idx >? Z.of_nat (length (TxIns tx)) - 1 then
    Err (ErrBadIndex idx (length (TxIns tx)))
  else
    preimage ← sigHashPreimage subScript hashType tx idx amt sigHashes;
    key ← sigHashKey (ExpiryHeight tx);
    blake2bHash preimage key.
End SigHash.

(** ** Hex strings ([encoding/hex], [chainhash.NewHashFromStr]) *)

Definition fromHexChar (c : ascii) : option Z :=
  let n := Z.of_nat (nat_of_ascii c) in
  if (48 <=? n) && (n <=? 57) then Some (n - 48)          (* '0'..'9' *)
  else if (97 <=? n) && (n <=? 102) then Some (n - 87)    (* 'a'..'f' *)
  else if (65 <=? n) && (n <=? 70) then Some (n - 55)     (* 'A'..'F' *)
  else None.

(** [hex.DecodeString]: two hexadecimal characters per byte; an odd length or
    any other character is an error. *)
Fixpoint DecodeString (s : string) : result bytes :=
  match s with
  | EmptyString => Ok []
  | String _ EmptyString => Err ErrHexDecode
  | String p (String q rest) =>
      match fromHexChar p, fromHexChar q with
      | Some a, Some b =>
          bs ← DecodeString rest;
          Ok (byte_of_Z (Z.lor (Z.shiftl a 4) b) :: bs)
      | _, _ => Err ErrHexDecode
      end
  end.

(** [chainhash.NewHashFromStr]: at most 64 characters, an odd length is padded
    with a leading zero, the bytes are right-aligned in 32 bytes and stored in
    reverse order. *)
Definition NewHashFromStr (s : string) : result bytes :=
  if (64 <? String.length s)%nat then Err ErrHashStrSize
  else
    let src := if Nat.even (String.length s) then s else String "0" s in
    decoded ← DecodeString src;
    Ok (reverse (replicate (32 - length decoded)%nat x00 ++ decoded)).

(** ** The indexer's data and the external libraries *)

Record UTXO : Type := mkUTXO {
  TxHash : string;
  Amount : Z;                      (* int64 *)
  ScriptPubKey : string;
  Vout : Z                         (* uint32 *)
}.

(** [chaincfg.Params], of which the code reads the name. *)
Record Params : Type := mkParams { Name : string }.

(** The address, key and script libraries (zecutil, btcutil, btcec, txscript):
    their types are opaque to this repository, which only calls the functions
    listed here. *)
Record Lib : Type := mkLib {
  crypto :> Crypto;
  Address : Type;
  PublicKey : Type;
  PrivateKey : Type;
  Signature : Type;
  ScriptBuilder : Type;
  (* zecutil.DecodeAddress(address, netName) *)
  zecDecodeAddress : string -> string -> result Address;
  (* zecutil.PayToAddrScript *)
  zecPayToAddrScript : Address -> result bytes;
  (* btcutil.Address.EncodeAddress *)
  EncodeAddress : Address -> string;
  (* btcec.Signature.Serialize *)
  Serialize : Signature -> bytes;
  (* btcec.PrivateKey.PubKey *)
  PubKey : PrivateKey -> PublicKey;
  (* txscript.NewScriptBuilder, AddData, Script *)
  NewScriptBuilder : ScriptBuilder;
  AddData : ScriptBuilder -> bytes -> ScriptBuilder;
  Script : ScriptBuilder -> result bytes;
  (* zecutil.RawTxInSignature(tx, idx, subScript, hashType, key, amt) *)
  RawTxInSignature : MsgTx -> Z -> bytes -> Z -> PrivateKey -> Z -> result bytes;
  (* zecutil.MsgTx.ZecEncode and TxHash().String() *)
  ZecEncode : MsgTx -> result bytes;
  TxHashString : MsgTx -> string
}.

(** ** The address encoder *)

Section AddressCodec.
Variable L : Lib.

Definition addrChecksum (input : bytes) : bytes :=
  let h := sha256 L input in
  let h2 := sha256 L h in
  copy_into 4 (take 4 h2).

Definition encodeHash (addrHash prefix : bytes) : string :=
  let body := prefix ++ addrHash in
  let chk := addrChecksum body in
  let cksum := copy_into 4 (take 4 chk) in
  base58Encode L (body ++ cksum).

Definition DecodeAddress (address : string) (params : Params)
  : result (Address L) :=
  zecDecodeAddress L address (Name params).

Definition PayToAddrScript (address : Address L) : result bytes :=
  zecPayToAddrScript L address.

(** The prefix table of [AddressFromHash160]; looking a key up in a Go map
    that does not hold it gives the zero value (a nil map, a nil slice). *)
Definition prefixes : gmap string (gmap string bytes) :=
  {[ "mainnet" := {[ "pubkey" := [x1c; xb8]; "script" := [x1c; xbd] ]};
     "testnet3" := {[ "pubkey" := [x1d; x25]; "script" := [x1c; xba] ]};
     "regtest" := {[ "pubkey" := [x1d; x25]; "script" := [x1c; xba] ]} ]}.

Definition prefix_of (name kind : string) : bytes :=
  default [] (default ∅ (prefixes !! name) !! kind).

Definition AddressFromHash160 (hash : bytes) (params : Params)
           (isScript : bool) : result (Address L) :=
  if isScript
  then DecodeAddress (encodeHash hash (prefix_of (Name params) "script")) params
  else DecodeAddress (encodeHash hash (prefix_of (Name params) "pubkey")) params.
End AddressCodec.

(** ** The client interface *)

(** The [Client] interface as the builder and the account use it.  Calls that
    reach the network read and change the state of the world [W]. *)
Record Client (L : Lib) (W : Type) : Type := mkClient {
  NetworkParams : Params;
  GetUTXOs : string -> Z -> Z -> W -> result (list UTXO) * W;
  PublishTransaction : bytes -> W -> result () * W;
  SerializePublicKey : PublicKey L -> result bytes;
  PublicKeyToAddress : bytes -> result (Address L)
}.
Arguments NetworkParams {L W} _.
Arguments GetUTXOs {L W} _ _ _ _ _.
Arguments PublishTransaction {L W} _ _ _.
Arguments SerializePublicKey {L W} _ _.
Arguments PublicKeyToAddress {L W} _ _.

Definition ZCashDust : Z := 5000.
Definition MaxZCashFee : Z := 10000.
Definition ZCashExpiryHeight : Z := 6000000.

(** [sum]: int64 addition, left to right. *)
Definition sum (vals : list Z) : Z := fold_left add64 vals 0.

(** ** The push-funding transaction builder (txBuilder.go) *)

Section TxBuilder.
Variable L : Lib.
Variable W : Type.

Record txBuilder : Type := mkTxBuilder {
  version : Z;                   (* int32 *)
  fee : Z;
  dust : Z;
  builder_client : Client L W
}.

Definition NewTxBuilder (client : Client L W) : txBuilder :=
  mkTxBuilder 4 10000 600 client.

Record transaction : Type := mkTransaction {
  sent : Z;
  msgTx : MsgTx;
  hashes : list bytes;
  client : Client L W;
  contract : option bytes;       (* [None] is a nil slice *)
  publicKey : PublicKey L;
  mwIns : nat
}.

(** The loop of [fundZecTx] over [utxos], [i] being the index of the head of
    the list: the first script public key becomes the canonical one, a UTXO
    with another one is skipped ([continue]), every other UTXO becomes an
    input and its amount is stored at its own index [i]. *)
Fixpoint fundZecTx_loop (utxos : list UTXO) (i : nat) (scriptPubKey : bytes)
         (receiveValues : list Z) (msgTx : MsgTx)
  : result (list Z * bytes * MsgTx) :=
  match utxos with
  | [] => Ok (receiveValues, scriptPubKey, msgTx)
  | utxo :: rest =>
      ScriptPubKey' ← DecodeString (ScriptPubKey utxo);
      if (length scriptPubKey =? 0)%nat then
        hash ← NewHashFromStr (TxHash utxo);
        fundZecTx_loop rest (S i) ScriptPubKey'
          (<[i := Amount utxo]> receiveValues)
          (AddTxIn msgTx (NewTxIn (mkOutPoint hash (Vout utxo)) []))
      else if negb (bool_decide (scriptPubKey = ScriptPubKey')) then
        fundZecTx_loop rest (S i) scriptPubKey receiveValues msgTx
      else
        hash ← NewHashFromStr (TxHash utxo);
        fundZecTx_loop rest (S i) scriptPubKey
          (<[i := Amount utxo]> receiveValues)
          (AddTxIn msgTx (NewTxIn (mkOutPoint hash (Vout utxo)) []))
  end.

(** [fundZecTx] adds inputs to [msgTx]; it returns the per-UTXO amounts, the
    script to sign against and the transaction with the inputs added. *)
Definition fundZecTx (from : Address L) (script : option bytes)
           (client : Client L W) (msgTx : MsgTx) (utxos : list UTXO)
  : result (list Z * bytes * MsgTx) :=
  let receiveValues := replicate (length utxos) 0 in
  _ ← match script with
       | Some s =>
           scriptAddr ← AddressFromHash160 L (copy_into 20 (Hash160 L s))
                                           (NetworkParams client) true;
           Ok scriptAddr
       | None => Ok from
       end;
  '(receiveValues, scriptPubKey, msgTx) ←
    fundZecTx_loop utxos 0 [] receiveValues msgTx;
  match script with
  | Some s => Ok (receiveValues, s, msgTx)
  | None => Ok (receiveValues, scriptPubKey, msgTx)
  end.

(** The two loops of [Build] that compute the digests: [count] iterations
    from index [i]; [recvVals[i]] is read before [CalcSignatureHash] is
    called. *)
Fixpoint hashLoop (subScript : bytes) (msgTx : MsgTx) (recvVals : list Z)
         (i count : nat) (hashes : list bytes) : result (list bytes) :=
  match count with
  | O => Ok hashes
  | S count' =>
      amt ← index recvVals (Z.of_nat i);
      hash ← CalcSignatureHash L subScript SigHashAll msgTx (Z.of_nat i) amt;
      hashLoop subScript msgTx recvVals (S i) count' (hashes ++ [hash])
  end.

Definition Build (builder : txBuilder) (pubKey : PublicKey L) (to : string)
           (contract : option bytes) (value : Z)
           (mwUTXOs scriptUTXOs : list UTXO) : result transaction :=
  if value <? add64 (fee builder) (dust builder) then
    Err (ErrMinimumTransfer (add64 (dust builder) (fee builder)) value)
  else
  let value := sub64 value (fee builder) in
  pubKeyBytes ← SerializePublicKey (builder_client builder) pubKey;
  from ← PublicKeyToAddress (builder_client builder) pubKeyBytes;
  toAddr ← zecDecodeAddress L to
              (Name (NetworkParams (builder_client builder)));
  let msgTx := NewMsgTx (version builder) ZCashExpiryHeight in
  let sent := 0 in
  '(recvVals, pubKeyScript, msgTx) ←
    fundZecTx from None (builder_client builder) msgTx mwUTXOs;
  let amt := sum recvVals in
  '(recvVals, amt, sent, msgTx) ←
    match contract with
    | Some c =>
        '(recvVals2, _, msgTx) ←
          fundZecTx from (Some c) (builder_client builder) msgTx scriptUTXOs;
        let recvVals := recvVals ++ recvVals2 in
        let amt2 := sum recvVals2 in
        Ok (recvVals, add64 amt amt2, sub64 amt2 (fee builder), msgTx)
    | None => Ok (recvVals, amt, sent, msgTx)
    end;
  if amt <? add64 value (fee builder) then
    Err (ErrInsufficientFunds amt (add64 value (fee builder)))
  else
  '(sent, msgTx) ←
    (if value >? 0 then
       script ← PayToAddrScript L toAddr;
       Ok (value, AddTxOut msgTx (mkTxOut value script))
     else Ok (sent, msgTx));
  msgTx ←
    (if sub64 amt value >? add64 (fee builder) (dust builder) then
       P2PKHScript ← PayToAddrScript L from;
       Ok (AddTxOut msgTx
             (mkTxOut (sub64 (sub64 amt value) (fee builder)) P2PKHScript))
     else Ok msgTx);
  hashes ← hashLoop pubKeyScript msgTx recvVals 0 (length mwUTXOs) [];
  hashes ← hashLoop (default [] contract) msgTx recvVals
                    (length mwUTXOs) (length scriptUTXOs) hashes;
  Ok (mkTransaction sent msgTx hashes (builder_client builder) contract
                    pubKey (length mwUTXOs)).

Definition Hashes (tx : transaction) : list bytes := hashes tx.

Definition setSignatureScript (tx : transaction) (i : nat) (sigScript : bytes)
  : transaction :=
  mkTransaction (sent tx)
    (setTxIns (msgTx tx)
       (alter (fun ti => mkTxIn (PreviousOutPoint ti) sigScript (Sequence ti))
              i (TxIns (msgTx tx))))
    (hashes tx) (client tx) (contract tx) (publicKey tx) (mwIns tx).

(** The loop of [InjectSigs].  The transaction is changed in place, so the
    transaction as the call leaves it is returned next to the outcome, also
    when the call fails or panics ([tx.msgTx.TxIn[i]] out of range). *)
Fixpoint InjectSigs_loop (sigs : list (Signature L)) (i : nat)
         (serializedPublicKey : bytes) (tx : transaction)
  : result () * transaction :=
  match sigs with
  | [] => (Ok (), tx)
  | sig :: rest =>
      let builder := NewScriptBuilder L in
      let builder := AddData L builder (Serialize L sig ++ [byte_of_Z SigHashAll]) in
      let builder := AddData L builder serializedPublicKey in
      let builder :=
        match contract tx with
        | Some c => if (mwIns tx <=? i)%nat then AddData L builder c else builder
        | None => builder
        end in
      match Script L builder with
      | Ok sigScript =>
          if (i <? length (TxIns (msgTx tx)))%nat then
            InjectSigs_loop rest (S i) serializedPublicKey
                            (setSignatureScript tx i sigScript)
          else (Panic, tx)
      | Err e => (Err e, tx)
      | Panic => (Panic, tx)
      end
  end.

Definition InjectSigs (tx : transaction) (sigs : list (Signature L))
  : result () * transaction :=
  match SerializePublicKey (client tx) (publicKey tx) with
  | Ok serializedPublicKey => InjectSigs_loop sigs 0 serializedPublicKey tx
  | Err e => (Err e, tx)
  | Panic => (Panic, tx)
  end.

Definition Submit (tx : transaction) (w : W) : result bytes * W :=
  match ZecEncode L (msgTx tx) with
  | Ok buf =>
      match PublishTransaction (client tx) buf w with
      | (Ok _, w') => (DecodeString (TxHashString L (msgTx tx)), w')
      | (Err e, w') => (Err e, w')
      | (Panic, w') => (Panic, w')
      end
  | Err e => (Err e, w)
  | Panic => (Panic, w)
  end.
End TxBuilder.

(** ** The account: funding, signing and submission (tx.go, account.go)

    Code that talks to the network runs in [IO]: it reads and changes the world
    [W] and appends what it did to a trace of events, so that what a call
    published and polled can be stated. *)

Inductive Event : Type :=
| EvCtxDone (done : bool)          (* the non-blocking read of ctx.Done() *)
| EvPublish (stx : bytes) (ok : bool)   (* PublishTransaction and its outcome *)
| EvPostCond (holds : bool)        (* one call of postCond *)
| EvSleep (seconds : Z).           (* time.Sleep *)

Definition IO (W A : Type) : Type :=
  W * list Event -> result A * (W * list Event).

#[global] Instance IO_ret {W} : MRet (IO W) := fun A a s => (Ok a, s).
#[global] Instance IO_bind {W} : MBind (IO W) := fun A B k m s =>
  match m s with
  | (Ok a, s') => k a s'
  | (Err e, s') => (Err e, s')
  | (Panic, s') => (Panic, s')
  end.

Definition liftW {W A} (f : W -> result A * W) : IO W A :=
  fun s => let '(r, w') := f (fst s) in (r, (w', snd s)).
Definition liftR {W A} (r : result A) : IO W A := fun s => (r, s).
Definition emit {W} (e : Event) : IO W () :=
  fun s => (Ok (), (fst s, snd s ++ [e])).

Section Account.
Variable L : Lib.
Variable W : Type.

(** [time.Sleep(d)], [d] in seconds: the world after the pause. *)
Variable Sleep : Z -> W -> W.

Record account : Type := mkAccount {
  PrivKey : PrivateKey L;
  account_client : Client L W
}.

Record tx : Type := mkTx {
  receiveValues : list Z;
  scriptPublicKey : bytes;
  tx_account : account;
  tx_msgTx : MsgTx
}.

(** A [func(tx *wire.MsgTx) bool] closure: it may change the transaction it is
    given and the world. *)
Definition Callback : Type := MsgTx -> W -> bool * MsgTx * W.

Definition newTx (a : account) (msgtx : MsgTx) : tx :=
  mkTx [] [] a (mkMsgTx (Version msgtx) (TxIns msgtx) (TxOuts msgtx)
                        (LockTime msgtx) ZCashExpiryHeight).

Definition SerializedPublicKey (a : account) : result bytes :=
  SerializePublicKey (account_client a) (PubKey L (PrivKey a)).

Definition account_Address (a : account) : result (Address L) :=
  pubKeyBytes ← SerializedPublicKey a;
  PublicKeyToAddress (account_client a) pubKeyBytes.

(** [client.Balance]: the sum of the amounts of [GetUTXOs(address, 999999,
    confirmations)]. *)
Definition Balance (c : Client L W) (address : string) (confirmations : Z)
  : IO W Z :=
  utxos ← liftW (GetUTXOs c address 999999 confirmations);
  mret (fold_left (fun balance utxo => add64 balance (Amount utxo)) utxos 0).

(** The first loop of [fund]: every declared output is at least 600; the
    result is the sum of the output values. *)
Fixpoint fund_outputs (outs : list TxOut) (i : nat) (value : Z) : result Z :=
  match outs with
  | [] => Ok value
  | j :: rest =>
      if Value j <? 600 then Err (ErrDustOutput i (Value j))
      else fund_outputs rest (S i) (add64 value (Value j))
  end.

Definition tx_select (t : tx) (scriptPubKey : bytes) (j : UTXO)
           (hash : bytes) : tx :=
  mkTx (receiveValues t ++ [Amount j]) scriptPubKey (tx_account t)
       (AddTxIn (tx_msgTx t) (NewTxIn (mkOutPoint hash (Vout j)) [])).

(** The second loop of [fund]: UTXOs whose script public key is the canonical
    one are taken in order until [value <= -MaxZCashFee]. *)
Fixpoint fund_loop (utxos : list UTXO) (t : tx) (value : Z)
  : result (tx * Z) :=
  match utxos with
  | [] => Ok (t, value)
  | j :: rest =>
      ScriptPubKey' ← DecodeString (ScriptPubKey j);
      if negb (length (scriptPublicKey t) =? 0)%nat
         && negb (bool_decide (scriptPublicKey t = ScriptPubKey'))
      then fund_loop rest t value
      else
        let spk := if (length (scriptPublicKey t) =? 0)%nat
                   then ScriptPubKey' else scriptPublicKey t in
        hash ← NewHashFromStr (TxHash j);
        let t := tx_select t spk j hash in
        let value := sub64 value (Amount j) in
        if value <=? - MaxZCashFee then Ok (t, value)
        else fund_loop rest t value
  end.

Definition fund (t : tx) (addr : option (Address L)) : IO W tx :=
  addr ← match addr with
         | Some a => mret a
         | None => liftR (account_Address (tx_account t))
         end;
  value ← liftR (fund_outputs (TxOuts (tx_msgTx t)) 0 0);
  balance ← Balance (account_client (tx_account t)) (EncodeAddress L addr) 0;
  if add64 value MaxZCashFee >? balance then
    liftR (Err (ErrInsufficientBalance (EncodeAddress L addr)
                                       (add64 value MaxZCashFee) balance))
  else
    utxos ← liftW (GetUTXOs (account_client (tx_account t))
                            (EncodeAddress L addr) 999999 0);
    '(t, value) ← liftR (fund_loop utxos t value);
    if value <=? - MaxZCashFee then
      P2PKHScript ← liftR (PayToAddrScript L addr);
      mret (mkTx (receiveValues t) (scriptPublicKey t) (tx_account t)
                 (AddTxOut (tx_msgTx t) (mkTxOut (neg64 value) P2PKHScript)))
    else liftR (Err ErrMismatchedPubKeys).

Fixpoint fundAll_loop (utxos : list UTXO) (t : tx) : result tx :=
  match utxos with
  | [] => Ok t
  | j :: rest =>
      ScriptPubKey' ← DecodeString (ScriptPubKey j);
      if negb (length (scriptPublicKey t) =? 0)%nat
         && negb (bool_decide (scriptPublicKey t = ScriptPubKey'))
      then fundAll_loop rest t
      else
        let spk := if (length (scriptPublicKey t) =? 0)%nat
                   then ScriptPubKey' else scriptPublicKey t in
        hash ← NewHashFromStr (TxHash j);
        fundAll_loop rest (tx_select t spk j hash)
  end.

Definition fundAll (t : tx) (addr : Address L) : IO W tx :=
  utxos ← liftW (GetUTXOs (account_client (tx_account t))
                          (EncodeAddress L addr) 1000 0);
  liftR (fundAll_loop utxos t).

(** The loop of [sign] over the inputs, [count] iterations from index [i]
    (the range is fixed when the loop starts): the input is updated in
    place, signed against [subScript] with [receiveValues[i]], and given its
    signature script. *)
Fixpoint sign_loop (count i : nat) (f : option (ScriptBuilder L -> ScriptBuilder L))
         (updateTxIn : option (TxIn -> TxIn)) (contract : option bytes)
         (subScript serializedPublicKey : bytes) (t : tx) : result tx :=
  match count with
  | O => Ok t
  | S count' =>
      txin ← index (TxIns (tx_msgTx t)) (Z.of_nat i);
      let txin := match updateTxIn with
                  | Some u => u txin
                  | None => txin
                  end in
      let m := setTxIns (tx_msgTx t) (<[i := txin]> (TxIns (tx_msgTx t))) in
      amt ← index (receiveValues t) (Z.of_nat i);
      sig ← RawTxInSignature L m (Z.of_nat i) subScript SigHashAll
                             (PrivKey (tx_account t)) amt;
      let builder := NewScriptBuilder L in
      let builder := AddData L builder sig in
      let builder := AddData L builder serializedPublicKey in
      let builder := match f with
                     | Some g => g builder
                     | None => builder
                     end in
      let builder := match contract with
                     | Some c => AddData L builder c
                     | None => builder
                     end in
      sigScript ← Script L builder;
      let txin := mkTxIn (PreviousOutPoint txin) sigScript (Sequence txin) in
      sign_loop count' (S i) f updateTxIn contract subScript
                serializedPublicKey
                (mkTx (receiveValues t) (scriptPublicKey t) (tx_account t)
                      (setTxIns m (<[i := txin]> (TxIns m))))
  end.

Definition sign (t : tx) (f : option (ScriptBuilder L -> ScriptBuilder L))
           (updateTxIn : option (TxIn -> TxIn)) (contract : option bytes)
  : result tx :=
  let subScript := match contract with
                   | None => scriptPublicKey t
                   | Some c => c
                   end in
  serializedPublicKey ← SerializedPublicKey (tx_account t);
  sign_loop (length (TxIns (tx_msgTx t))) 0 f updateTxIn contract subScript
            serializedPublicKey t.

(** [PublishTransaction], the publication and its outcome recorded in the
    trace. *)
Definition publish (c : Client L W) (stx : bytes) : IO W () :=
  fun s =>
    let '(r, w') := PublishTransaction c stx (fst s) in
    (r, (w', snd s ++ [EvPublish stx (match r with Ok _ => true | _ => false end)])).

(** [submit]: encode and publish. *)
Definition submit (t : tx) : IO W () :=
  buf ← liftR (ZecEncode L (tx_msgTx t));
  publish (account_client (tx_account t)) buf.

(** The inner loop of [SendTransaction]: up to [n] calls of [postCond], each
    failed one followed by [time.Sleep(5 * time.Second)].  The result says
    whether the post-condition held (a nil [postCond] holds at once). *)
Fixpoint postCond_loop (n : nat) (postCond : option Callback) (t : tx)
         (s : W * list Event) : bool * tx * (W * list Event) :=
  match n with
  | O => (false, t, s)
  | S n' =>
      match postCond with
      | None => (true, t, s)
      | Some pc =>
          let '(holds, m, w') := pc (tx_msgTx t) (fst s) in
          let t := mkTx (receiveValues t) (scriptPublicKey t) (tx_account t) m in
          let s := (w', snd s ++ [EvPostCond holds]) in
          if holds then (true, t, s)
          else postCond_loop n' postCond t
                             (Sleep 5 (fst s), snd s ++ [EvSleep 5])
      end
  end.

(** The outer [for] loop of [SendTransaction].  The loop need not end; [fuel]
    bounds the number of its iterations, and a run that is still in the loop
    after [fuel] iterations gives [None] with the state it has reached. *)
Fixpoint submit_loop (fuel : nat) (ctxDone : W -> bool)
         (postCond : option Callback) (txFee : Z) (t : tx)
         (s : W * list Event)
  : option (result (string * Z)) * (W * list Event) :=
  match fuel with
  | O => (None, s)
  | S fuel' =>
      let done := ctxDone (fst s) in
      let s := (fst s, snd s ++ [EvCtxDone done]) in
      if done then (Some (Err ErrPostConditionCheckFailed), s)
      else
        match submit t s with
        | (Ok _, s) =>
            match postCond_loop 60 postCond t s with
            | (true, t, s) => (Some (Ok (TxHashString L (tx_msgTx t), txFee)), s)
            | (false, t, s) => submit_loop fuel' ctxDone postCond txFee t s
            end
        | (Err e, s) => (Some (Err e), s)
        | (Panic, s) => (Some Panic, s)
        end
  end.

(** [tx.msgTx.TxOut[len(tx.msgTx.TxOut)-1].Value -= txFee]. *)
Definition debit_last_output (m : MsgTx) (txFee : Z) : result MsgTx :=
  let i := Z.of_nat (length (TxOuts m)) - 1 in
  out ← index (TxOuts m) i;
  Ok (setTxOuts m (<[Z.to_nat i := mkTxOut (sub64 (Value out) txFee) (PkScript out)]>
                     (TxOuts m))).

(** [if preCond != nil && !preCond(tx.msgTx.MsgTx)]: the closure works on the
    transaction itself. *)
Definition check_preCond (pc : Callback) (t : tx) : IO W tx :=
  fun s =>
    let '(holds, m, w') := pc (tx_msgTx t) (fst s) in
    if holds
    then (Ok (mkTx (receiveValues t) (scriptPublicKey t) (tx_account t) m),
          (w', snd s))
    else (Err ErrPreConditionCheckFailed, (w', snd s)).

(** [SendTransaction] up to and including the signing of the inputs. *)
Definition SendTransaction_prepare (a : account) (contract : option bytes)
           (updateTxIn : option (TxIn -> TxIn)) (preCond : option Callback)
           (f : option (ScriptBuilder L -> ScriptBuilder L)) (sendAll : bool)
  : IO W (tx * Z) :=
  (* Current ZCash Transaction Version (Sapling: 4). *)
  let t := newTx a (NewMsgTx 4 0) in
  t ← match preCond with
      | Some pc => check_preCond pc t
      | None => mret t
      end;
  address ← liftR match contract with
                  | None => account_Address a
                  | Some c =>
                      AddressFromHash160 L (copy_into 20 (Hash160 L c))
                        (NetworkParams (account_client a)) true
                  end;
  t ← (if sendAll then fundAll t address else fund t (Some address));
  let txFee := MaxZCashFee in
  m ← liftR (debit_last_output (tx_msgTx t) txFee);
  let t := mkTx (receiveValues t) (scriptPublicKey t) (tx_account t) m in
  t ← liftR (sign t f updateTxIn contract);
  mret (t, txFee).

Definition SendTransaction (fuel : nat) (a : account) (ctxDone : W -> bool)
           (contract : option bytes) (speed : Z)
           (updateTxIn : option (TxIn -> TxIn)) (preCond : option Callback)
           (f : option (ScriptBuilder L -> ScriptBuilder L))
           (postCond : option Callback) (sendAll : bool)
           (s : W * list Event)
  : option (result (string * Z)) * (W * list Event) :=
  match SendTransaction_prepare a contract updateTxIn preCond f sendAll s with
  | (Ok (t, txFee), s) => submit_loop fuel ctxDone postCond txFee t s
  | (Err e, s) => (Some (Err e), s)
  | (Panic, s) => (Some Panic, s)
  end.
End Account.

(** ** A test double of the external collaborators

    A stand-in for the external libraries and the indexer, in the manner of a
    mock client of a test suite, on which the model runs on concrete inputs.
    Its digests are not cryptographic; they have the sizes the real ones
    have. *)
Module TestDouble.
Definition digest (n : nat) (data : bytes) : bytes :=
  replicate n (byte_of_Z (fold_left (fun acc b => acc + Z_of_byte b) data 0)).

Definition toyCrypto : Crypto :=
  {| blake2b := fun personal data => digest 32 (personal ++ data);
     blake2b_size := fun personal data => length_replicate 32 _;
     sha256 := fun data => digest 32 data;
     sha256_size := fun data => length_replicate 32 _;
     Hash160 := fun data => digest 20 data;
     base58Encode := string_of_list_byte |}.

(** Addresses are their strings, keys and signatures their bytes, a script
    builder is the script built so far, every push a length byte and the
    data. *)
Definition toyLib : Lib :=
  {| crypto := toyCrypto;
     Address := string;
     PublicKey := bytes;
     PrivateKey := bytes;
     Signature := bytes;
     ScriptBuilder := bytes;
     zecDecodeAddress := fun address _ => Ok address;
     zecPayToAddrScript := fun address => Ok (list_byte_of_string address);
     EncodeAddress := fun address => address;
     Serialize := fun sig => sig;
     PubKey := fun key => key;
     NewScriptBuilder := [];
     AddData := fun b data => b ++ byte_of_Z (Z.of_nat (length data)) :: data;
     Script := fun b => Ok b;
     RawTxInSignature := fun _ _ _ _ key _ => Ok key;
     ZecEncode := fun m => Ok (concat (map WriteTxOut (TxOuts m)));
     TxHashString := fun _ => "00" |}.

(** The world: the unspent outputs the indexer reports (for every address)
    and a clock in seconds. *)
Record world : Type := mkWorld {
  utxos : list UTXO;
  clock : Z
}.

Definition toyClient : Client toyLib world :=
  {| NetworkParams := mkParams "testnet3";
     GetUTXOs := fun _ _ _ w => (Ok (utxos w), w);
     PublishTransaction := fun _ w => (Ok (), w);
     SerializePublicKey := fun key : PublicKey toyLib => Ok (key : bytes);
     PublicKeyToAddress := fun _ => Ok ("tmSender" : Address toyLib) |}.

Definition Sleep (seconds : Z) (w : world) : world :=
  mkWorld (utxos w) (clock w + seconds).

Definition toyAccount : account toyLib world :=
  mkAccount toyLib world [x01] toyClient.

(** A 64-digit transaction id whose last byte is [n]. *)
Definition txid (n : ascii) : string :=
  String.append
    "00000000000000000000000000000000000000000000000000000000000000"
    (String "0" (String n EmptyString)).

Definition scriptA : string := "76a914aa88ac".
Definition scriptB : string := "76a914bb88ac".

(** The pre-condition [Transfer] passes: add an output paying [value]. *)
Definition pay (value : Z) : Callback world :=
  fun m w => (true, AddTxOut m (mkTxOut value (list_byte_of_string "tmDest")), w).

(** A post-condition that holds once the clock shows [seconds]. *)
Definition confirmed_after (seconds : Z) : Callback world :=
  fun m w => (seconds <=? clock w, m, w).

Definition never_done : world -> bool := fun _ => false.

(** A Sapling transaction with one input. *)
Definition toyTx : MsgTx :=
  AddTxIn (NewMsgTx 4 ZCashExpiryHeight)
          (NewTxIn (mkOutPoint (replicate 32 x01) 0) []).

(** Unspent outputs: [utxoA] and [utxoC] carry one script, [utxoB]
    another. *)
Definition utxoA : UTXO := mkUTXO (txid "1") 15000 scriptA 0.
Definition utxoB : UTXO := mkUTXO (txid "2") 20000 scriptB 1.
Definition utxoC : UTXO := mkUTXO (txid "3") 30000 scriptA 0.

(** A fresh transaction of the account that declares one output. *)
Definition txPaying (value : Z) : tx toyLib world :=
  mkTx toyLib world [] [] toyAccount
       (AddTxOut (NewMsgTx 4 ZCashExpiryHeight)
                 (mkTxOut value (list_byte_of_string "tmDest"))).

Definition is_publish (e : Event) : bool :=
  match e with EvPublish _ _ => true | _ => false end.
Definition is_poll (e : Event) : bool :=
  match e with EvPostCond _ => true | _ => false end.
End TestDouble.

(** ** Vocabulary of the statements *)

(** The header and the version group id a sighash preimage starts with. *)
Definition header_of (tx : MsgTx) : Z :=
  Z.lor (uint32 (Version tx)) 0x80000000.
Definition groupID_of (tx : MsgTx) : Z :=
  if Version tx =? 4 then 0x892F2085 else 0x03C48270.

(** [input_of ti u]: the input [ti] is the one [fundZecTx] makes of the UTXO
    [u]: it spends the outpoint of [u], unsigned. *)
Definition input_of (ti : TxIn) (u : UTXO) : Prop :=
  exists hash, NewHashFromStr (TxHash u) = Ok hash
               /\ ti = NewTxIn (mkOutPoint hash (Vout u)) [].

(** All UTXOs of the list carry one script public key. *)
Definition homogeneous (utxos : list UTXO) : Prop :=
  exists s, Forall (fun u => DecodeString (ScriptPubKey u) = Ok s) utxos.

(** Exact sums, without wrap-around. *)
Definition total (vals : list Z) : Z := foldr Z.add 0 vals.
Definition input_total (utxos : list UTXO) : Z := total (map Amount utxos).
Definition output_total (m : MsgTx) : Z := total (map Value (TxOuts m)).

(** The script builder [InjectSigs] fills for input [i]:
    PUSH(sig || SIGHASH_ALL) PUSH(pubkey) and, for an input past the
    master-wallet ones of a transaction with a contract, PUSH(contract). *)
Definition sigScript_builder (L : Lib) (contract : option bytes) (mwIns i : nat)
           (serializedPublicKey : bytes) (sig : Signature L) : ScriptBuilder L :=
  let b := AddData L (AddData L (NewScriptBuilder L) (Serialize L sig ++ [x01]))
                   serializedPublicKey in
  match contract with
  | Some c => if (mwIns <=? i)%nat then AddData L b c else b
  | None => b
  end.

Definition with_script (sigScript : bytes) (ti : TxIn) : TxIn :=
  mkTxIn (PreviousOutPoint ti) sigScript (Sequence ti).

(** Base58Check of a hash under a version prefix. *)
Definition base58check (L : Lib) (prefix hash : bytes) : string :=
  base58Encode L
    (prefix ++ hash ++ take 4 (sha256 L (sha256 L (prefix ++ hash)))).

(** [script_is c u]: the UTXO [u] carries the script public key [c]. *)
Definition script_is (c : bytes) (u : UTXO) : bool :=
  match DecodeString (ScriptPubKey u) with
  | Ok s => bool_decide (s = c)
  | _ => false
  end.

(** The homogeneous selection: the UTXOs that carry the script public key of
    the first one, the canonical script. *)
Definition canonical_utxos (utxos : list UTXO) : list UTXO :=
  match utxos with
  | [] => []
  | u :: _ =>
      match DecodeString (ScriptPubKey u) with
      | Ok c => filter (fun v => script_is c v) utxos
      | _ => []
      end
  end.

(** A UTXO as the indexer reports it: a non-empty script in hexadecimal, a
    transaction id that parses, an amount that is not negative. *)
Definition wellformed (u : UTXO) : Prop :=
  (exists s, DecodeString (ScriptPubKey u) = Ok s /\ s <> [])
  /\ (exists h, NewHashFromStr (TxHash u) = Ok h)
  /\ 0 <= Amount u.

(** The events of one failed poll, of one whole round without success (a
    publication and 60 failed polls), and of the round a call ends with. *)
Definition poll_failed : list Event := [EvPostCond false; EvSleep 5].

Definition failed_round (stx : bytes) : list Event :=
  [EvCtxDone false; EvPublish stx true] ++ concat (replicate 60 poll_failed).

Inductive last_round {W : Type} (postCond : option (Callback W)) (txFee : Z)
  : result (string * Z) -> list Event -> Prop :=
| round_cancelled :
    last_round postCond txFee (Err ErrPostConditionCheckFailed) [EvCtxDone true]
| round_not_encoded r :
    (forall v, r <> Ok v) ->
    last_round postCond txFee r [EvCtxDone false]
| round_publish_failed r stx :
    (forall v, r <> Ok v) ->
    last_round postCond txFee r [EvCtxDone false; EvPublish stx false]
| round_published txid stx :
    postCond = None ->
    last_round postCond txFee (Ok (txid, txFee))
               [EvCtxDone false; EvPublish stx true]
| round_confirmed txid stx k :
    (k < 60)%nat -> postCond <> None ->
    last_round postCond txFee (Ok (txid, txFee))
               ([EvCtxDone false; EvPublish stx true]
                  ++ concat (replicate k poll_failed) ++ [EvPostCond true]).

(** An [IO] computation that adds nothing to the trace. *)
Definition keeps_trace {W A : Type} (m : IO W A) : Prop :=
  forall s, snd (snd (m s)) = snd s.

Definition is_Ok {A : Type} (r : result A) : bool :=
  match r with
  | Ok _ => true
  | _ => false
  end.

(** ** [Transfer] (account.go) *)

Section Transfer.
Variable L : Lib.
Variable W : Type.
Variable Sleep : Z -> W -> W.

(** The closure [Transfer] passes as [preCond]: it adds the output paying
    [value] to [address], and fails when the address has no pay-to-address
    script (the error of [PayToAddrScript] is dropped). *)
Definition Transfer_preCond (address : Address L) (value : Z) : Callback W :=
  fun m w =>
    match PayToAddrScript L address with
    | Ok P2PKHScript => (true, AddTxOut m (mkTxOut value P2PKHScript), w)
    | _ => (false, m, w)
    end.

(** The amount [Transfer] sends: with [sendAll] the balance of the account's
    own address at zero confirmations replaces the amount asked for. *)
Definition Transfer_value (a : account L W) (value : Z) (sendAll : bool)
  : IO W Z :=
  if sendAll then
    me ← liftR (account_Address L W a);
    Balance L W (account_client L W a) (EncodeAddress L me) 0
  else mret value.

Definition Transfer (fuel : nat) (a : account L W) (ctxDone : W -> bool)
           (to : string) (value : Z) (speed : Z) (sendAll : bool)
           (s : W * list Event)
  : option (result (string * Z)) * (W * list Event) :=
  match Transfer_value a value sendAll s with
  | (Ok value, s) =>
      match DecodeAddress L to (NetworkParams (account_client L W a)) with
      | Ok address =>
          SendTransaction L W Sleep fuel a ctxDone None speed None
                          (Some (Transfer_preCond address value)) None None
                          sendAll s
      | Err e => (Some (Err e), s)
      | Panic => (Some Panic, s)
      end
  | (Err e, s) => (Some (Err e), s)
  | (Panic, s) => (Some Panic, s)
  end.
End Transfer.

(** ** Vocabulary of the further statements *)

(** The script builder [sign] fills for an input: PUSH(sig) PUSH(pubkey),
    then what [f] adds, then PUSH(contract) when there is a contract. *)
Definition sign_builder (L : Lib)
           (f : option (ScriptBuilder L -> ScriptBuilder L))
           (contract : option bytes) (serializedPublicKey sig : bytes)
  : ScriptBuilder L :=
  let b := AddData L (AddData L (NewScriptBuilder L) sig) serializedPublicKey in
  let b := match f with Some g => g b | None => b end in
  match contract with
  | Some c => AddData L b c
  | None => b
  end.

(** The transaction as [sign] hands it to the signer for input [j]: the
    inputs before [j] carry their scripts already ([signed] is the input
    list as [sign] leaves it), input [j] is what [updateTxIn] made of it,
    the inputs after [j] are as they were. *)
Definition sign_view (m : MsgTx) (signed : list TxIn) (j : nat) (txin : TxIn)
  : MsgTx :=
  setTxIns m (take j signed ++ txin :: drop (S j) (TxIns m)).

(** ** A test double that refuses addresses

    As [TestDouble], with an address library that fails the way zecutil
    does: the empty string does not decode, and only an address that starts
    with [t] (a transparent address) has a pay-to-address script. *)
Module StrictDouble.
Import TestDouble.

Definition transparent (address : string) : bool :=
  match address with
  | String "t" _ => true
  | _ => false
  end.

Definition strictLib : Lib :=
  {| crypto := toyCrypto;
     Address := string;
     PublicKey := bytes;
     PrivateKey := bytes;
     Signature := bytes;
     ScriptBuilder := bytes;
     zecDecodeAddress := fun address _ =>
       match address with
       | EmptyString => Err (ErrExternal "decoded address is of unknown format")
       | _ => Ok address
       end;
     zecPayToAddrScript := fun address =>
       if transparent address then Ok (list_byte_of_string address)
       else Err (ErrExternal "unsupported address type");
     EncodeAddress := fun address => address;
     Serialize := fun sig => sig;
     PubKey := fun key => key;
     NewScriptBuilder := [];
     AddData := fun b data => b ++ byte_of_Z (Z.of_nat (length data)) :: data;
     Script := fun b => Ok b;
     RawTxInSignature := fun _ _ _ _ key _ => Ok key;
     ZecEncode := fun m => Ok (concat (map WriteTxOut (TxOuts m)));
     TxHashString := fun _ => "00" |}.

Definition strictClient : Client strictLib world :=
  {| NetworkParams := mkParams "testnet3";
     GetUTXOs := fun _ _ _ w => (Ok (utxos w), w);
     PublishTransaction := fun _ w => (Ok (), w);
     SerializePublicKey := fun key : PublicKey strictLib => Ok (key : bytes);
     PublicKeyToAddress := fun _ => Ok ("tmSender" : Address strictLib) |}.

Definition strictAccount : account strictLib world :=
  mkAccount strictLib world [x01] strictClient.
End StrictDouble.

(** Further test data: an unspent output smaller than the fee, a signed
    transaction of the builder with one input, and a funded transaction of
    the account with one input and the amount it spends. *)
Module MoreData.
Import TestDouble.

Definition utxoD : UTXO := mkUTXO (txid "4") 4000 scriptA 0.

Definition builtTx : transaction toyLib world :=
  mkTransaction toyLib world 0 toyTx [] toyClient None [x02] 1.

Definition fundedTx : tx toyLib world :=
  mkTx toyLib world [15000] [x76; xa9; x14; xaa; x88; xac] toyAccount toyTx.

Definition refuse : Callback world := fun m w => (false, m, w).

Definition always_done : world -> bool := fun _ => true.
End MoreData.

(** ** A test double with a signer that reads its arguments

    As [TestDouble], with a signature that depends on everything the signer
    is given: the key, the input index, the hash type, the amount, the
    sub-script and the scripts and sequence numbers of the transaction. *)
Module SignerDouble.
Import TestDouble.

Definition signerLib : Lib :=
  {| crypto := toyCrypto;
     Address := string;
     PublicKey := bytes;
     PrivateKey := bytes;
     Signature := bytes;
     ScriptBuilder := bytes;
     zecDecodeAddress := fun address _ => Ok address;
     zecPayToAddrScript := fun address => Ok (list_byte_of_string address);
     EncodeAddress := fun address => address;
     Serialize := fun sig => sig;
     PubKey := fun key => key;
     NewScriptBuilder := [];
     AddData := fun b data => b ++ byte_of_Z (Z.of_nat (length data)) :: data;
     Script := fun b => Ok b;
     RawTxInSignature := fun m idx subScript hashType key amt =>
       Ok (key ++ [byte_of_Z idx; byte_of_Z hashType] ++ PutUint32 amt
               ++ subScript
               ++ concat (map (fun ti => byte_of_Z (Sequence ti)
                                         :: SignatureScript ti) (TxIns m)));
     ZecEncode := fun m => Ok (concat (map WriteTxOut (TxOuts m)));
     TxHashString := fun _ => "00" |}.

Definition signerClient : Client signerLib world :=
  {| NetworkParams := mkParams "testnet3";
     GetUTXOs := fun _ _ _ w => (Ok (utxos w), w);
     PublishTransaction := fun _ w => (Ok (), w);
     SerializePublicKey := fun key : PublicKey signerLib => Ok (key : bytes);
     PublicKeyToAddress := fun _ => Ok ("tmSender" : Address signerLib) |}.

Definition signerAccount : account signerLib world :=
  mkAccount signerLib world [x07] signerClient.

Definition in0 : TxIn := NewTxIn (mkOutPoint (replicate 32 x01) 0) [].
Definition in1 : TxIn := NewTxIn (mkOutPoint (replicate 32 x02) 1) [].
Definition in2 : TxIn := NewTxIn (mkOutPoint (replicate 32 x03) 0) [].

(** A funded transaction of the account with two inputs and the amounts
    they spend. *)
Definition fundedTx2 : tx signerLib world :=
  mkTx signerLib world [15000; 30000] [x76; xa9; x14; xaa; x88; xac]
       signerAccount
       (AddTxIn (AddTxIn (NewMsgTx 4 ZCashExpiryHeight) in0) in1).

(** What a caller redeeming a contract passes to [sign]: a closure that
    pushes one more byte, one that sets the sequence number, and the
    contract. *)
Definition push_one : ScriptBuilder signerLib -> ScriptBuilder signerLib :=
  fun b => AddData signerLib b [x01].
Definition set_sequence : TxIn -> TxIn :=
  fun ti => mkTxIn (PreviousOutPoint ti) (SignatureScript ti) 5.
Definition toyContract : bytes := [x51; x52].

(** A built transaction with a contract: three inputs, the first one of
    the master wallet. *)
Definition contractTx : transaction toyLib world :=
  mkTransaction toyLib world 0
    (AddTxIn (AddTxIn (AddTxIn (NewMsgTx 4 ZCashExpiryHeight) in0) in1) in2)
    [] toyClient (Some toyContract) [x02] 1.
End SignerDouble.

(** * Properties *)

(** ** Bytes and little-endian encodings *)

Lemma Z_of_byte_of_Z (v : Z) : Z_of_byte (byte_of_Z v) = v mod 256.
Proof.
  unfold Z_of_byte, byte_of_Z.
  assert (Hr : 0 <= v mod 256 < 256) by (apply Z.mod_pos_bound; lia).
  destruct (Byte.of_N (Z.to_N (v mod 256))) as [b|] eqn:E.
  - apply Byte.to_of_N in E. rewrite E. apply Z2N.id. lia.
  - apply Byte.of_N_None_iff in E. lia.
Qed.

Lemma le_value_PutUint32 (v : Z) :
  0 <= v < 2 ^ 32 -> le_value (PutUint32 v) = v.
Proof.
  intros Hv. unfold PutUint32, le_value.
  rewrite !Z_of_byte_of_Z, !Z.shiftr_div_pow2 by lia.
  change (2 ^ 8) with 256. change (2 ^ 16) with 65536.
  change (2 ^ 24) with 16777216. change (2 ^ 32) with 4294967296 in Hv.
  Z.div_mod_to_equations. lia.
Qed.

Lemma length_PutUint32 (v : Z) : length (PutUint32 v) = 4%nat.
Proof. reflexivity. Qed.

Lemma lor_bit31_range (v : Z) :
  0 <= Z.lor (uint32 v) (Z.shiftl 1 31) < 2 ^ 32.
Proof.
  assert (Hu : 0 <= uint32 v < 2 ^ 32) by (apply Z.mod_pos_bound; lia).
  split.
  - apply Z.lor_nonneg. split; [lia | now compute].
  - destruct (Z.eq_dec (Z.lor (uint32 v) (Z.shiftl 1 31)) 0) as [->|Hnz];
      [lia|].
    apply Z.log2_lt_pow2.
    + assert (0 <= Z.lor (uint32 v) (Z.shiftl 1 31))
        by (apply Z.lor_nonneg; split; [lia | now compute]).
      lia.
    + rewrite Z.log2_lor by (try lia; now compute).
      apply Z.max_lub_lt; [|now compute].
      destruct (Z.eq_dec (uint32 v) 0) as [->|Hv]; [now compute|].
      apply Z.log2_lt_pow2; lia.
Qed.

(** ** The [result] monad *)

Lemma bind_Ok_inv {A B} (r : result A) (k : A -> result B) (b : B) :
  (r ≫= k) = Ok b -> exists a, r = Ok a /\ k a = Ok b.
Proof. destruct r; simpl; intros H; try discriminate. eauto. Qed.

Lemma index_Ok {A} (l : list A) (i : Z) (a : A) :
  index l i = Ok a <-> 0 <= i /\ l !! Z.to_nat i = Some a.
Proof.
  unfold index. destruct (Z.ltb_spec i 0).
  - split; [discriminate | lia].
  - destruct (l !! Z.to_nat i); split; intros H1;
      try (inversion H1; subst; auto; fail); try discriminate.
    + destruct H1 as [_ H1]. inversion H1. reflexivity.
    + destruct H1 as [_ H1]. discriminate.
Qed.

Lemma index_not_Err {A} (l : list A) (i : Z) (e : error) : index l i <> Err e.
Proof.
  unfold index. destruct (i <? 0); [discriminate|].
  destruct (l !! Z.to_nat i); discriminate.
Qed.

Lemma index_in_range {A} (l : list A) (i : Z) :
  0 <= i < Z.of_nat (length l) -> exists a, index l i = Ok a.
Proof.
  intros Hi. destruct (lookup_lt_is_Some_2 l (Z.to_nat i)) as [a Ha]; [lia|].
  exists a. apply index_Ok. split; [lia | exact Ha].
Qed.

(** ** The signature hash *)

Section SigHashFacts.
Variable C : Crypto.

Lemma blake2bHash_Ok (data key : bytes) :
  blake2bHash C data key = Ok (blake2b C key data).
Proof.
  unfold blake2bHash, SetBytes. rewrite blake2b_size. reflexivity.
Qed.

Lemma NewTxSigHashes_total (tx : MsgTx) :
  exists sigHashes, NewTxSigHashes C tx = Ok sigHashes.
Proof.
  unfold NewTxSigHashes, calcHashPrevOuts, calcHashSequence, calcHashOutputs.
  rewrite !blake2bHash_Ok. simpl. eauto.
Qed.
End SigHashFacts.

Section SigHashProperties.
Variable C : Crypto.

Lemma hashOutputs_cases (hashType idx : Z) (tx : MsgTx) (sh : TxSigHashes) :
  let r := (if negb (Z.land hashType sigHashMask =? SigHashSingle)
               && negb (Z.land hashType sigHashMask =? SigHashNone)
            then Ok (HashOutputs sh)
            else if (Z.land hashType sigHashMask =? SigHashSingle)
                    && (idx <? Z.of_nat (length (TxOuts tx)))
            then txOut ← index (TxOuts tx) idx;
                 blake2bHash C (WriteTxOut txOut)
                   (list_byte_of_string outputsHashPersonalization)
            else Ok zeroHash) in
  (exists h, r = Ok h) \/ (r = Panic /\ idx < 0).
Proof.
  simpl.
  destruct (negb _ && negb _); [eauto|].
  destruct (_ && _) eqn:E; [|eauto].
  unfold index. destruct (Z.ltb_spec idx 0); [right; auto|].
  apply andb_true_iff in E as [_ E]. apply Z.ltb_lt in E.
  destruct (lookup_lt_is_Some_2 (TxOuts tx) (Z.to_nat idx)) as [o Ho]; [lia|].
  rewrite Ho. simpl. rewrite blake2bHash_Ok. eauto.
Qed.

(** The preimage, when it is built, starts with the header and the version
    group id; it is built for every index of an input. *)
Lemma sigHashPreimage_cases (subScript : bytes) (hashType : Z) (tx : MsgTx)
      (idx amt : Z) (sh : TxSigHashes) :
  (exists rest,
      sigHashPreimage C subScript hashType tx idx amt sh
      = Ok (PutUint32 (header_of tx) ++ PutUint32 (groupID_of tx) ++ rest))
  \/ (sigHashPreimage C subScript hashType tx idx amt sh = Panic
      /\ ~ (0 <= idx < Z.of_nat (length (TxIns tx)))).
Proof.
  unfold sigHashPreimage, header_of, groupID_of.
  change (Z.shiftl 1 31) with 0x80000000.
  change versionSapling with 4.
  change versionSaplingGroupID with 0x892F2085.
  change versionOverwinterGroupID with 0x03C48270.
  destruct (hashOutputs_cases hashType idx tx sh) as [[h ->]|[-> Hneg]];
    [|right; split; [reflexivity | lia]].
  cbn [mbind result_bind bind].
  destruct (negb (idx =? MaxUint32)).
  - unfold index. destruct (Z.ltb_spec idx 0);
      [right; split; [reflexivity | lia]|].
    destruct (TxIns tx !! Z.to_nat idx) as [ti|] eqn:Hti.
    + left. cbn [mbind result_bind bind].
      destruct (Version tx =? 4); eexists; rewrite <- !app_assoc; reflexivity.
    + right. split; [reflexivity|].
      apply lookup_ge_None_1 in Hti. lia.
  - left. destruct (Version tx =? 4); eexists; rewrite <- !app_assoc;
      reflexivity.
Qed.

Lemma sigHashKey_uint32 (h : Z) :
  0 <= h ->
  exists p, p ∈ upgradeParams /\ ActivationHeight p <= h
            /\ (forall q, q ∈ upgradeParams -> ActivationHeight q <= h ->
                          ActivationHeight q <= ActivationHeight p)
            /\ sigHashKey h
               = Ok (list_byte_of_string "ZcashSigHash" ++ BranchID p).
Proof.
  intros Hh. unfold sigHashKey, upgradeParams. cbn [length sigHashKey_loop].
  cbn [lookup list_lookup ActivationHeight].
  assert (Hmem : forall q : upgradeParam,
             q ∈ upgradeParams ->
             q = mkUpgradeParam 0 [x00; x00; x00; x00]
             \/ q = mkUpgradeParam 207500 [x19; x1b; xa8; x5b]
             \/ q = mkUpgradeParam 280000 [xbb; x09; xb8; x76]).
  { intros q Hq. unfold upgradeParams in Hq.
    repeat (apply elem_of_cons in Hq as [->|Hq]; [tauto|]).
    now apply elem_of_nil in Hq. }
  destruct (Z.leb_spec 280000 h).
  { exists (mkUpgradeParam 280000 [xbb; x09; xb8; x76]).
    split; [repeat constructor|].
    split; [simpl; lia|]. split; [|reflexivity].
    intros q Hq Hle. destruct (Hmem q Hq) as [-> | [-> | ->]]; simpl; lia. }
  destruct (Z.leb_spec 207500 h).
  { exists (mkUpgradeParam 207500 [x19; x1b; xa8; x5b]).
    split; [repeat constructor|].
    split; [simpl; lia|]. split; [|reflexivity].
    intros q Hq Hle. destruct (Hmem q Hq) as [-> | [-> | ->]]; simpl in *; lia. }
  destruct (Z.leb_spec 0 h); [|lia].
  exists (mkUpgradeParam 0 [x00; x00; x00; x00]).
  split; [repeat constructor|].
  split; [simpl; lia|]. split; [|reflexivity].
  intros q Hq Hle. destruct (Hmem q Hq) as [-> | [-> | ->]]; simpl in *; lia.
Qed.

(** [CalcSignatureHash] succeeds exactly on the indices of the inputs (of a
    transaction whose expiry height is a uint32), and its digest is the
    BLAKE2b digest of the preimage under the key of [sigHashKey]. *)
Lemma CalcSignatureHash_Ok_inv (subScript : bytes) (hashType : Z) (tx : MsgTx)
      (idx amt : Z) (digest : bytes) :
  CalcSignatureHash C subScript hashType tx idx amt = Ok digest ->
  exists sh preimage key,
    NewTxSigHashes C tx = Ok sh
    /\ idx < Z.of_nat (length (TxIns tx))
    /\ sigHashPreimage C subScript hashType tx idx amt sh = Ok preimage
    /\ sigHashKey (ExpiryHeight tx) = Ok key
    /\ digest = blake2b C key preimage.
Proof.
  unfold CalcSignatureHash. intros H.
  apply bind_Ok_inv in H as (sh & Hsh & H).
  destruct (Z.gtb_spec idx (Z.of_nat (length (TxIns tx)) - 1)); [discriminate|].
  apply bind_Ok_inv in H as (pre & Hpre & H).
  apply bind_Ok_inv in H as (key & Hkey & H).
  rewrite blake2bHash_Ok in H. inversion H.
  exists sh, pre, key. repeat split; auto. lia.
Qed.

Lemma CalcSignatureHash_in_range (subScript : bytes) (hashType : Z)
      (tx : MsgTx) (idx amt : Z) :
  0 <= ExpiryHeight tx ->
  0 <= idx < Z.of_nat (length (TxIns tx)) ->
  exists digest, CalcSignatureHash C subScript hashType tx idx amt = Ok digest.
Proof.
  intros He Hi. unfold CalcSignatureHash.
  destruct (NewTxSigHashes_total C tx) as [sh ->]. cbn [mbind result_bind bind].
  destruct (Z.gtb_spec idx (Z.of_nat (length (TxIns tx)) - 1)); [lia|].
  destruct (sigHashPreimage_cases subScript hashType tx idx amt sh)
    as [[rest ->]|[_ Hn]]; [|lia].
  destruct (sigHashKey_uint32 _ He) as (p & _ & _ & _ & ->).
  cbn [mbind result_bind bind]. rewrite blake2bHash_Ok. eauto.
Qed.
End SigHashProperties.

Lemma upgradeParams_inv (q : upgradeParam) :
  q ∈ upgradeParams ->
  q = mkUpgradeParam 0 [x00; x00; x00; x00]
  \/ q = mkUpgradeParam 207500 [x19; x1b; xa8; x5b]
  \/ q = mkUpgradeParam 280000 [xbb; x09; xb8; x76].
Proof.
  intros Hq. unfold upgradeParams in Hq.
  repeat (apply elem_of_cons in Hq as [-> | Hq]; [tauto|]).
  now apply elem_of_nil in Hq.
Qed.

Lemma sigHashKey_not_Err (h : Z) (e : error) : sigHashKey h <> Err e.
Proof.
  unfold sigHashKey.
  destruct (sigHashKey_loop _ _ _); [|discriminate].
  destruct (_ !! _); discriminate.
Qed.

(** C1: for every transaction (its expiry height a uint32), [CalcSignatureHash]
    keys the BLAKE2b-256 digest with "ZcashSigHash" followed by the branch id
    of the entry of [upgradeParams] whose activation height is the largest one
    not above the expiry height: every digest it returns is the digest of the
    preimage under that key, and it returns one for every input index.  For
    an expiry height of 6_000_000 the entry is the one of height 280000,
    whose four bytes BB 09 B8 76 are the little-endian bytes of 76B809BB. *)
Theorem CalcSignatureHash_branch_key (C : Crypto) (subScript : bytes)
        (hashType : Z) (tx : MsgTx) (idx amt : Z) :
  in_uint32 (ExpiryHeight tx) ->
  exists p,
    p ∈ upgradeParams
    /\ ActivationHeight p <= ExpiryHeight tx
    /\ (forall q, q ∈ upgradeParams -> ActivationHeight q <= ExpiryHeight tx ->
                  ActivationHeight q <= ActivationHeight p)
    /\ sigHashKey (ExpiryHeight tx)
       = Ok (list_byte_of_string "ZcashSigHash" ++ BranchID p)
    /\ (forall digest,
           CalcSignatureHash C subScript hashType tx idx amt = Ok digest ->
           exists sh preimage,
             NewTxSigHashes C tx = Ok sh
             /\ sigHashPreimage C subScript hashType tx idx amt sh = Ok preimage
             /\ digest = blake2b C (list_byte_of_string "ZcashSigHash"
                                      ++ BranchID p) preimage)
    /\ (0 <= idx < Z.of_nat (length (TxIns tx)) ->
        exists digest,
          CalcSignatureHash C subScript hashType tx idx amt = Ok digest)
    /\ (ExpiryHeight tx = 6000000 ->
        ActivationHeight p = 280000
        /\ BranchID p = [xbb; x09; xb8; x76]
        /\ le_value (BranchID p) = 0x76B809BB).
Proof.
  intros [He _].
  destruct (sigHashKey_uint32 _ He) as (p & Hin & Hle & Hmax & Hkey).
  exists p. repeat (split; [assumption|]). split; [|split].
  - intros digest Hd.
    apply CalcSignatureHash_Ok_inv in Hd
      as (sh & pre & key & Hsh & _ & Hpre & Hk & ->).
    rewrite Hkey in Hk. inversion Hk. eauto.
  - intros Hi. now apply CalcSignatureHash_in_range.
  - intros E. rewrite E in *.
    assert (H3 : 280000 <= ActivationHeight p).
    { apply (Hmax (mkUpgradeParam 280000 [xbb; x09; xb8; x76]));
        [repeat constructor | simpl; lia]. }
    destruct (upgradeParams_inv p Hin) as [-> | [-> | ->]]; simpl in H3;
      try lia.
    repeat split.
Qed.

(** C4: the preimage of every digest [CalcSignatureHash] returns begins with
    the four little-endian bytes of the header, the version with bit 31 set,
    followed by the four little-endian bytes of the version group id,
    0x892F2085 for version 4 and 0x03C48270 otherwise; and a digest is
    returned for every input index (of a transaction whose expiry height is
    a uint32), whatever the hash type. *)
Theorem CalcSignatureHash_header (C : Crypto) (subScript : bytes)
        (hashType : Z) (tx : MsgTx) (idx amt : Z) :
  (forall digest,
      CalcSignatureHash C subScript hashType tx idx amt = Ok digest ->
      exists sh key rest,
        NewTxSigHashes C tx = Ok sh
        /\ sigHashKey (ExpiryHeight tx) = Ok key
        /\ sigHashPreimage C subScript hashType tx idx amt sh
           = Ok (PutUint32 (header_of tx) ++ PutUint32 (groupID_of tx) ++ rest)
        /\ digest = blake2b C key (PutUint32 (header_of tx)
                                     ++ PutUint32 (groupID_of tx) ++ rest)
        /\ le_value (PutUint32 (header_of tx))
           = Z.lor (uint32 (Version tx)) 0x80000000
        /\ le_value (PutUint32 (groupID_of tx))
           = (if Version tx =? 4 then 0x892F2085 else 0x03C48270))
  /\ (in_uint32 (ExpiryHeight tx) ->
      0 <= idx < Z.of_nat (length (TxIns tx)) ->
      exists digest,
        CalcSignatureHash C subScript hashType tx idx amt = Ok digest).
Proof.
  split.
  - intros digest Hd.
    apply CalcSignatureHash_Ok_inv in Hd
      as (sh & pre & key & Hsh & _ & Hpre & Hk & ->).
    destruct (sigHashPreimage_cases C subScript hashType tx idx amt sh)
      as [[rest Hr] | [Hp _]]; [|congruence].
    rewrite Hr in Hpre. inversion Hpre; subst pre.
    exists sh, key, rest. repeat (split; [assumption || reflexivity|]).
    split.
    + apply le_value_PutUint32. apply lor_bit31_range.
    + apply le_value_PutUint32. unfold groupID_of.
      destruct (Version tx =? 4); lia.
  - intros [He _] Hi. now apply CalcSignatureHash_in_range.
Qed.

(** C5: for a transaction with n inputs, [CalcSignatureHash] returns the
    bad-index error, and so no digest, for every idx >= n, and never returns
    that error for an idx < n. *)
Theorem CalcSignatureHash_bad_index (C : Crypto) (subScript : bytes)
        (hashType : Z) (tx : MsgTx) (idx amt : Z) :
  (Z.of_nat (length (TxIns tx)) <= idx ->
   CalcSignatureHash C subScript hashType tx idx amt
   = Err (ErrBadIndex idx (length (TxIns tx))))
  /\ (idx < Z.of_nat (length (TxIns tx)) ->
      forall i n,
        CalcSignatureHash C subScript hashType tx idx amt
        <> Err (ErrBadIndex i n)).
Proof.
  unfold CalcSignatureHash.
  destruct (NewTxSigHashes_total C tx) as [sh ->]. cbn [mbind result_bind bind].
  split; intros Hi.
  - destruct (Z.gtb_spec idx (Z.of_nat (length (TxIns tx)) - 1)); [reflexivity|lia].
  - intros i n.
    destruct (Z.gtb_spec idx (Z.of_nat (length (TxIns tx)) - 1)); [lia|].
    destruct (sigHashPreimage_cases C subScript hashType tx idx amt sh)
      as [[rest ->] | [-> _]]; [|discriminate].
    cbn [mbind result_bind bind].
    destruct (sigHashKey (ExpiryHeight tx)) as [key | e |] eqn:Hk;
      cbn [mbind result_bind bind].
    + rewrite blake2bHash_Ok. discriminate.
    + now apply sigHashKey_not_Err in Hk.
    + discriminate.
Qed.

(** ** Funding by the builder *)

Lemma setTxIns_id (m : MsgTx) : setTxIns m (TxIns m ++ []) = m.
Proof. destruct m. unfold setTxIns. simpl. now rewrite app_nil_r. Qed.

Lemma fundZecTx_loop_spec (utxos : list UTXO) :
  forall (i : nat) (spk : bytes) (rv : list Z) (m : MsgTx)
         (rv' : list Z) (spk' : bytes) (m' : MsgTx),
    fundZecTx_loop utxos i spk rv m = Ok (rv', spk', m') ->
    (i + length utxos <= length rv)%nat ->
    exists ins,
      m' = setTxIns m (TxIns m ++ ins)
      /\ length rv' = length rv
      /\ (length ins <= length utxos)%nat
      /\ (forall j, (j < i)%nat -> rv' !! j = rv !! j)
      /\ (length ins = length utxos ->
          Forall2 input_of ins utxos
          /\ forall k u, utxos !! k = Some u ->
                         rv' !! (i + k)%nat = Some (Amount u)).
Proof.
  induction utxos as [|u rest IH]; intros i spk rv m rv' spk' m' H Hlen.
  - simpl in H. inversion H; subst. exists []. rewrite setTxIns_id.
    repeat split; auto. intros k u Hk. now rewrite lookup_nil in Hk.
  - simpl in H, Hlen.
    apply bind_Ok_inv in H as (s & Hs & H).
    assert (Hsel : forall spk1,
               (hash ← NewHashFromStr (TxHash u);
                fundZecTx_loop rest (S i) spk1 (<[i:=Amount u]> rv)
                  (AddTxIn m (NewTxIn (mkOutPoint hash (Vout u)) [])))
               = Ok (rv', spk', m') ->
               exists ins,
                 m' = setTxIns m (TxIns m ++ ins)
                 /\ length rv' = length rv
                 /\ (length ins <= length (u :: rest))%nat
                 /\ (forall j, (j < i)%nat -> rv' !! j = rv !! j)
                 /\ (length ins = length (u :: rest) ->
                     Forall2 input_of ins (u :: rest)
                     /\ forall k u0, (u :: rest) !! k = Some u0 ->
                                     rv' !! (i + k)%nat = Some (Amount u0))).
    { intros spk1 H1. apply bind_Ok_inv in H1 as (hash & Hh & H1).
      apply IH in H1 as (ins & -> & Hl & Hle & Hlt & Hfull);
        [|rewrite length_insert; lia].
      rewrite length_insert in Hl.
      exists (NewTxIn (mkOutPoint hash (Vout u)) [] :: ins).
      split; [unfold setTxIns, AddTxIn; simpl; now rewrite <- app_assoc|].
      split; [assumption|]. split; [simpl; lia|]. split.
      - intros j Hj. rewrite Hlt by lia. apply list_lookup_insert_ne. lia.
      - simpl. intros Hfl. destruct Hfull as [HF Hk]; [lia|]. split.
        + constructor; [|assumption]. exists hash. auto.
        + intros [|k] u0 Hu0; simpl in Hu0.
          * inversion Hu0; subst u0. rewrite Nat.add_0_r, Hlt by lia.
            apply list_lookup_insert_eq. lia.
          * replace (i + S k)%nat with (S i + k)%nat by lia. now apply Hk. }
    destruct (length spk =? 0)%nat; [now apply Hsel in H|].
    destruct (negb (bool_decide (spk = s))); [|now apply Hsel in H].
    apply IH in H as (ins & -> & Hl & Hle & Hlt & Hfull); [|lia].
    exists ins. split; [reflexivity|]. split; [assumption|].
    split; [simpl; lia|]. split; [intros j Hj; apply Hlt; lia|].
    simpl. intros Hfl. lia.
Qed.

(** With one script public key for all UTXOs none is skipped. *)
Lemma fundZecTx_loop_homogeneous (s : bytes) (utxos : list UTXO) :
  forall (i : nat) (spk : bytes) (rv : list Z) (m : MsgTx)
         (rv' : list Z) (spk' : bytes) (m' : MsgTx),
    Forall (fun u => DecodeString (ScriptPubKey u) = Ok s) utxos ->
    spk = [] \/ spk = s ->
    fundZecTx_loop utxos i spk rv m = Ok (rv', spk', m') ->
    length (TxIns m') = (length (TxIns m) + length utxos)%nat
    /\ (spk' = [] \/ spk' = s).
Proof.
  induction utxos as [|u rest IH]; intros i spk rv m rv' spk' m' HF Hspk H.
  - simpl in H. inversion H; subst. split; [simpl; lia | assumption].
  - inversion HF as [|? ? Hu HF']; subst. simpl in H. rewrite Hu in H.
    cbn [mbind result_bind bind] in H.
    destruct (length spk =? 0)%nat eqn:E.
    + apply bind_Ok_inv in H as (hash & _ & H).
      apply IH in H as [Hl Hs]; auto.
      split; [|assumption]. rewrite Hl. unfold AddTxIn. simpl.
      rewrite length_app. simpl. lia.
    + destruct Hspk as [-> | ->]; [discriminate|].
      rewrite bool_decide_eq_true_2 in H by reflexivity. simpl in H.
      apply bind_Ok_inv in H as (hash & _ & H).
      apply IH in H as [Hl Hs]; auto.
      split; [|assumption]. rewrite Hl. unfold AddTxIn. simpl.
      rewrite length_app. simpl. lia.
Qed.

Lemma fundZecTx_Ok_inv (L : Lib) (W : Type) (from : Address L)
      (script : option bytes) (client : Client L W) (m : MsgTx)
      (utxos : list UTXO) (rv : list Z) (s : bytes) (m' : MsgTx) :
  fundZecTx L W from script client m utxos = Ok (rv, s, m') ->
  exists spk,
    fundZecTx_loop utxos 0 [] (replicate (length utxos) 0) m = Ok (rv, spk, m')
    /\ s = match script with Some c => c | None => spk end.
Proof.
  unfold fundZecTx. intros H.
  apply bind_Ok_inv in H as (a & _ & H).
  apply bind_Ok_inv in H as ([[rv1 spk1] m1] & Hloop & H).
  destruct script; inversion H; subst; eauto.
Qed.

(** When no UTXO is skipped, [fundZecTx] returns the amounts of the UTXOs in
    their order and appends their inputs in the same order. *)
Lemma fundZecTx_loop_full (utxos : list UTXO) (spk : bytes) (m : MsgTx)
      (rv' : list Z) (spk' : bytes) (m' : MsgTx) :
  fundZecTx_loop utxos 0 spk (replicate (length utxos) 0) m = Ok (rv', spk', m') ->
  exists ins,
    m' = setTxIns m (TxIns m ++ ins)
    /\ length rv' = length utxos
    /\ (length ins <= length utxos)%nat
    /\ (length ins = length utxos ->
        Forall2 input_of ins utxos /\ rv' = map Amount utxos).
Proof.
  intros H. apply fundZecTx_loop_spec in H as (ins & -> & Hl & Hle & _ & Hfull);
    [|rewrite length_replicate; lia].
  rewrite length_replicate in Hl.
  exists ins. repeat (split; [assumption || reflexivity|]).
  intros Hfl. destruct (Hfull Hfl) as [HF Hk]. split; [assumption|].
  apply list_eq. intros k. rewrite list_lookup_fmap.
  destruct (utxos !! k) as [u|] eqn:Hu; simpl.
  - now apply (Hk k u).
  - apply lookup_ge_None_2. apply lookup_ge_None_1 in Hu. lia.
Qed.

(** ** int64 arithmetic without overflow *)

Lemma int64_id (v : Z) : - 2 ^ 63 <= v < 2 ^ 63 -> int64 v = v.
Proof. intros Hv. unfold int64. rewrite Z.mod_small; lia. Qed.

Lemma total_nonneg (vals : list Z) :
  Forall (fun v => 0 <= v) vals -> 0 <= total vals.
Proof. induction 1; simpl; lia. Qed.

Lemma total_app (l1 l2 : list Z) : total (l1 ++ l2) = total l1 + total l2.
Proof. induction l1; simpl; lia. Qed.

Lemma fold_add64_exact (vals : list Z) :
  forall acc,
    0 <= acc -> Forall (fun v => 0 <= v) vals -> acc + total vals < 2 ^ 63 ->
    fold_left add64 vals acc = acc + total vals.
Proof.
  induction vals as [|v vals IH]; intros acc Ha HF Hlt; simpl in *; [lia|].
  inversion HF as [|? ? Hv HF']; subst.
  pose proof (total_nonneg vals HF').
  unfold add64 at 2. rewrite int64_id by lia. rewrite IH; auto; lia.
Qed.

Lemma sum_exact (vals : list Z) :
  Forall (fun v => 0 <= v) vals -> total vals < 2 ^ 63 -> sum vals = total vals.
Proof. intros HF Hlt. unfold sum. rewrite fold_add64_exact; auto; lia. Qed.

(** ** The builder *)

Section BuildProperties.
Variable L : Lib.
Variable W : Type.
Variable client : Client L W.

Lemma hashLoop_Ok (count : nat) :
  forall (sub : bytes) (m : MsgTx) (rv : list Z) (i : nat)
         (hs hs' : list bytes),
    hashLoop L sub m rv i count hs = Ok hs' ->
    exists ds,
      hs' = hs ++ ds
      /\ length ds = count
      /\ (0 < count -> i + count <= length (TxIns m))%nat
      /\ forall k d, ds !! k = Some d ->
                     exists amt,
                       rv !! (i + k)%nat = Some amt
                       /\ CalcSignatureHash L sub SigHashAll m
                                            (Z.of_nat (i + k)) amt = Ok d.
Proof.
  induction count as [|count IH]; intros sub m rv i hs hs' H.
  - simpl in H. inversion H; subst. exists []. rewrite app_nil_r.
    repeat split; auto; [lia|]. intros k d Hk. now rewrite lookup_nil in Hk.
  - simpl in H.
    apply bind_Ok_inv in H as (amt & Hamt & H).
    apply bind_Ok_inv in H as (hash & Hhash & H).
    apply IH in H as (ds & -> & Hl & Hrange & Hk).
    apply index_Ok in Hamt as [_ Hamt]. rewrite Nat2Z.id in Hamt.
    exists (hash :: ds). split; [now rewrite <- app_assoc|].
    split; [simpl; lia|]. split.
    + intros _. destruct count; [|lia].
      apply CalcSignatureHash_Ok_inv in Hhash as (_ & _ & _ & _ & Hi & _).
      lia.
    + intros [|k] d Hd; simpl in Hd.
      * inversion Hd; subst d. rewrite Nat.add_0_r. eauto.
      * replace (i + S k)%nat with (S i + k)%nat by lia. now apply Hk.
Qed.

(** What a successful [Build] has done: every UTXO handed in became an
    input, in order; the outputs are the destination output and, above the
    dust threshold, the change; the digests are those of the inputs with
    the amounts of their UTXOs. *)
Lemma Build_Ok_shape (pubKey : PublicKey L) (to : string)
      (contract : option bytes) (value : Z) (mwUTXOs scriptUTXOs : list UTXO)
      (t : transaction L W) :
  Build L W (NewTxBuilder L W client) pubKey to contract value
        mwUTXOs scriptUTXOs = Ok t ->
  exists (spk : bytes) (ins : list TxIn) (tos : list TxOut),
    let amt := match contract with
               | Some _ => add64 (sum (map Amount mwUTXOs))
                                 (sum (map Amount scriptUTXOs))
               | None => sum (map Amount mwUTXOs)
               end in
    let value' := sub64 value 10000 in
    msgTx L W t = mkMsgTx 4 ins tos 0 6000000
    /\ Forall2 input_of ins (mwUTXOs ++ scriptUTXOs)
    /\ 10600 <= value
    /\ add64 value' 10000 <= amt
    /\ Forall2 (fun o v => Value o = v) tos
         ((if value' >? 0 then [value'] else [])
            ++ (if sub64 amt value' >? 10600
                then [sub64 (sub64 amt value') 10000] else []))
    /\ length (hashes L W t) = length (mwUTXOs ++ scriptUTXOs)
    /\ mwIns L W t = length mwUTXOs
    /\ (contract = None -> scriptUTXOs = [])
    /\ forall i u,
        (mwUTXOs ++ scriptUTXOs) !! i = Some u ->
        exists d,
          hashes L W t !! i = Some d
          /\ CalcSignatureHash L
               (if (i <? length mwUTXOs)%nat then spk else default [] contract)
               SigHashAll (msgTx L W t) (Z.of_nat i) (Amount u) = Ok d.
Proof.
  unfold Build, NewTxBuilder. cbn [fee dust version builder_client].
  change (add64 10000 600) with 10600.
  intros H.
  destruct (Z.ltb_spec value 10600) as [|Hv]; [discriminate|].
  apply bind_Ok_inv in H as (pk & _ & H).
  apply bind_Ok_inv in H as (from & _ & H).
  apply bind_Ok_inv in H as (toAddr & _ & H).
  apply bind_Ok_inv in H as ([[rv1 spk] m1] & Hf1 & H).
  apply fundZecTx_Ok_inv in Hf1 as (spk1 & Hf1 & Hspk). simpl in Hspk.
  subst spk1.
  apply fundZecTx_loop_full in Hf1 as (ins1 & -> & Hlrv1 & Hle1 & Hfull1).
  apply bind_Ok_inv in H as ([[[rv amt] sent0] m2] & Hc & H).
  set (value' := sub64 value 10000) in *.
  destruct (Z.ltb_spec amt (add64 value' 10000)) as [|Hamt]; [discriminate|].
  apply bind_Ok_inv in H as ([sent1 m3] & Hout1 & H).
  apply bind_Ok_inv in H as (m4 & Hout2 & H).
  apply bind_Ok_inv in H as (hs1 & Hh1 & H).
  apply bind_Ok_inv in H as (hs2 & Hh2 & H).
  inversion H; subst t; clear H. cbn [msgTx hashes mwIns].
  apply hashLoop_Ok in Hh1 as (ds1 & -> & Hl1 & Hr1 & Hk1).
  apply hashLoop_Ok in Hh2 as (ds2 & -> & Hl2 & Hr2 & Hk2).
  simpl in Hk1, Hr1, Hk2, Hr2.
  (* the outputs leave the inputs alone *)
  assert (Hins4 : TxIns m4 = TxIns m2).
  { transitivity (TxIns m3).
    - destruct (sub64 amt value' >? 10600).
      + apply bind_Ok_inv in Hout2 as (s2 & _ & E). now inversion E.
      + now inversion Hout2.
    - destruct (value' >? 0).
      + apply bind_Ok_inv in Hout1 as (s1 & _ & E). now inversion E.
      + now inversion Hout1. }
  (* the funding of the contract *)
  assert (Hfund : exists ins2,
             m2 = setTxIns (NewMsgTx 4 ZCashExpiryHeight) (ins1 ++ ins2)
             /\ (length ins2 <= length scriptUTXOs)%nat
             /\ length rv = (length mwUTXOs
                             + match contract with
                               | Some _ => length scriptUTXOs
                               | None => 0
                               end)%nat
             /\ (contract = None -> ins2 = [] /\ rv = rv1 /\ amt = sum rv1)
             /\ (forall c, contract = Some c ->
                   exists rv2,
                     rv = rv1 ++ rv2 /\ length rv2 = length scriptUTXOs
                     /\ amt = add64 (sum rv1) (sum rv2)
                     /\ (length ins2 = length scriptUTXOs ->
                         Forall2 input_of ins2 scriptUTXOs
                         /\ rv2 = map Amount scriptUTXOs))).
  { destruct contract as [c|].
    - apply bind_Ok_inv in Hc as ([[rv2 s2] m2'] & Hf2 & Hc).
      inversion Hc; subst; clear Hc.
      apply fundZecTx_Ok_inv in Hf2 as (spk2 & Hf2 & _).
      apply fundZecTx_loop_full in Hf2 as (ins2 & -> & Hlrv2 & Hle2 & Hfull2).
      exists ins2. simpl. rewrite length_app, Hlrv1, Hlrv2.
      split; [unfold setTxIns; simpl; reflexivity|].
      split; [assumption|]. split; [reflexivity|].
      split; [discriminate|].
      intros c' _. exists rv2. auto.
    - inversion Hc; subst; clear Hc. exists []. simpl.
      rewrite Hlrv1.
      split; [unfold setTxIns; simpl; now rewrite !app_nil_r|].
      split; [lia|]. split; [lia|]. split; [auto|discriminate]. }
  destruct Hfund as (ins2 & -> & Hle2 & Hlrv & Hnone & Hsome).
  simpl in Hins4. rewrite Hins4, length_app in Hr1, Hr2.
  (* no UTXO was skipped *)
  assert (Hno_skip : length ins1 = length mwUTXOs
                     /\ length ins2 = length scriptUTXOs
                     /\ (contract = None -> scriptUTXOs = [])).
  { assert (Hmw : (0 < length mwUTXOs)%nat \/ length mwUTXOs = 0%nat) by lia.
    destruct contract as [c|].
    - split; [|split; [|discriminate]];
        destruct scriptUTXOs as [|u2 sc]; simpl in *;
        destruct Hmw as [Hmw | Hmw];
        try specialize (Hr1 Hmw); try specialize (Hr2 ltac:(lia)); lia.
    - destruct (Hnone eq_refl) as (-> & -> & ->). simpl in *.
      destruct scriptUTXOs as [|u2 sc].
      + split; [|auto]. destruct Hmw as [Hmw | Hmw];
          try specialize (Hr1 Hmw); lia.
      + exfalso. destruct ds2 as [|d2 ds2]; [discriminate|].
        destruct (Hk2 0%nat d2 eq_refl) as (a & Ha & _).
        apply lookup_lt_Some in Ha. lia. }
  destruct Hno_skip as (Hl1' & Hl2' & Hsc).
  destruct (Hfull1 Hl1') as [HF1 Hrv1]. subst rv1.
  assert (HF2 : Forall2 input_of ins2 scriptUTXOs
                /\ rv = map Amount mwUTXOs ++ map Amount scriptUTXOs
                /\ amt = match contract with
                         | Some _ => add64 (sum (map Amount mwUTXOs))
                                           (sum (map Amount scriptUTXOs))
                         | None => sum (map Amount mwUTXOs)
                         end).
  { destruct contract as [c|].
    - destruct (Hsome c eq_refl) as (rv2 & -> & _ & -> & Hfull2).
      destruct (Hfull2 Hl2') as [HF2 ->]. auto.
    - destruct (Hnone eq_refl) as (-> & -> & ->).
      rewrite (Hsc eq_refl). simpl. rewrite app_nil_r. auto. }
  destruct HF2 as (HF2 & -> & Hamt').
  exists spk, (ins1 ++ ins2),  (TxOuts m4).
  cbn zeta. rewrite <- Hamt'.
  (* the outputs *)
  assert (Hm4 : m4 = mkMsgTx 4 (ins1 ++ ins2) (TxOuts m4) 0 6000000
                /\ Forall2 (fun o v => Value o = v) (TxOuts m4)
                     ((if value' >? 0 then [value'] else [])
                        ++ (if sub64 amt value' >? 10600
                            then [sub64 (sub64 amt value') 10000] else []))).
  { assert (Hm3 : m3 = mkMsgTx 4 (ins1 ++ ins2) (TxOuts m3) 0 6000000
                  /\ Forall2 (fun o v => Value o = v) (TxOuts m3)
                             (if value' >? 0 then [value'] else [])).
    { destruct (value' >? 0).
      - apply bind_Ok_inv in Hout1 as (s1 & _ & E). inversion E; subst.
        simpl. split; [reflexivity|]. repeat constructor.
      - inversion Hout1; subst. simpl. split; [reflexivity | constructor]. }
    destruct Hm3 as [Hm3 HF3].
    destruct (sub64 amt value' >? 10600).
    - apply bind_Ok_inv in Hout2 as (s2 & _ & E). inversion E; subst m4.
      rewrite Hm3. simpl. split; [reflexivity|].
      apply Forall2_app; [assumption | repeat constructor].
    - inversion Hout2; subst m4. rewrite app_nil_r. split; assumption. }
  destruct Hm4 as [Hm4 HFout].
  split; [assumption|]. split; [now apply Forall2_app|].
  split; [lia|]. split; [lia|]. split; [assumption|].
  split; [rewrite !length_app; simpl; lia|]. split; [reflexivity|].
  split; [assumption|].
  intros i u Hu.
  destruct (Nat.ltb_spec i (length mwUTXOs)) as [Hi|Hi].
  - rewrite lookup_app_l in Hu by assumption.
    destruct (lookup_lt_is_Some_2 ds1 i) as [d Hd]; [lia|].
    exists d. split; [simpl; now apply lookup_app_l_Some|].
    destruct (Hk1 i d Hd) as (a & Ha & Hcalc).
    rewrite lookup_app_l in Ha by (rewrite length_map; lia).
    rewrite list_lookup_fmap, Hu in Ha. inversion Ha; subst a. exact Hcalc.
  - rewrite lookup_app_r in Hu by assumption.
    pose proof (lookup_lt_Some _ _ _ Hu) as Hi2.
    destruct (lookup_lt_is_Some_2 ds2 (i - length mwUTXOs)) as [d Hd]; [lia|].
    exists d. split.
    + simpl. rewrite lookup_app_r by lia. rewrite Hl1. exact Hd.
    + destruct (Hk2 _ d Hd) as (a & Ha & Hcalc).
      replace (length mwUTXOs + (i - length mwUTXOs))%nat with i in * by lia.
      rewrite lookup_app_r in Ha by (rewrite length_map; lia).
      rewrite length_map, list_lookup_fmap, Hu in Ha.
      inversion Ha; subst a. exact Hcalc.
Qed.

Lemma Forall2_Value_map (tos : list TxOut) (vs : list Z) :
  Forall2 (fun o v => Value o = v) tos vs -> map Value tos = vs.
Proof. induction 1; simpl; congruence. Qed.

(** C2 (amended): after a successful [Build] whose amounts do not overflow
    an int64, the inputs are the UTXOs handed in, and their total less the
    total of the outputs is between 10_000 and 10_600: it is exactly 10_000
    when a change output is emitted, that is when the remainder
    [total_in - (value - 10_000)] exceeds fee + dust = 10_600, and it is the
    whole remainder otherwise. *)
Theorem Build_fee_bounds (pubKey : PublicKey L) (to : string)
        (contract : option bytes) (value : Z)
        (mwUTXOs scriptUTXOs : list UTXO) (t : transaction L W) :
  Forall (fun u => 0 <= Amount u) (mwUTXOs ++ scriptUTXOs) ->
  input_total (mwUTXOs ++ scriptUTXOs) < 2 ^ 63 ->
  value < 2 ^ 63 ->
  Build L W (NewTxBuilder L W client) pubKey to contract value
        mwUTXOs scriptUTXOs = Ok t ->
  let paid := input_total (mwUTXOs ++ scriptUTXOs)
              - output_total (msgTx L W t) in
  let remainder := input_total (mwUTXOs ++ scriptUTXOs) - (value - 10000) in
  Forall2 input_of (TxIns (msgTx L W t)) (mwUTXOs ++ scriptUTXOs)
  /\ 10000 <= paid <= 10600
  /\ (10600 < remainder ->
      paid = 10000 /\ length (TxOuts (msgTx L W t)) = 2%nat)
  /\ (remainder <= 10600 ->
      paid = remainder /\ length (TxOuts (msgTx L W t)) = 1%nat).
Proof.
  intros Hpos Hsum Hvalue HB.
  apply Build_Ok_shape in HB
    as (spk & ins & tos & Hm & HF & Hv & Hamt & Hout & _ & _ & Hsc & _).
  cbn zeta in Hamt, Hout. rewrite Hm. cbn [TxIns TxOuts].
  unfold output_total, input_total in *. cbn [TxOuts].
  pose proof (Forall2_length _ _ _ Hout) as Hlen.
  apply Forall2_Value_map in Hout. rewrite Hout. clear Hout.
  rewrite map_app, total_app in *.
  apply Forall_app in Hpos as [Hpos1 Hpos2].
  assert (Hp1 : Forall (fun v => 0 <= v) (map Amount mwUTXOs))
    by (apply Forall_fmap; exact Hpos1).
  assert (Hp2 : Forall (fun v => 0 <= v) (map Amount scriptUTXOs))
    by (apply Forall_fmap; exact Hpos2).
  pose proof (total_nonneg _ Hp1). pose proof (total_nonneg _ Hp2).
  set (amt := match contract with
              | Some _ => add64 (sum (map Amount mwUTXOs))
                                (sum (map Amount scriptUTXOs))
              | None => sum (map Amount mwUTXOs)
              end) in *.
  assert (Eamt : amt = total (map Amount mwUTXOs)
                       + total (map Amount scriptUTXOs)).
  { subst amt. destruct contract.
    - rewrite !sum_exact by (auto; lia). unfold add64.
      apply int64_id. lia.
    - rewrite (Hsc eq_refl) in *. simpl. rewrite sum_exact by (auto; lia).
      lia. }
  clearbody amt. subst amt.
  assert (Ev : sub64 value 10000 = value - 10000)
    by (unfold sub64; apply int64_id; lia).
  rewrite Ev in *.
  assert (Ea : add64 (value - 10000) 10000 = value)
    by (unfold add64; rewrite int64_id; lia).
  rewrite Ea in Hamt.
  set (T := total (map Amount mwUTXOs) + total (map Amount scriptUTXOs)) in *.
  assert (Es : sub64 T (value - 10000) = T - (value - 10000))
    by (unfold sub64; apply int64_id; lia).
  rewrite Es in *.
  split; [assumption|].
  destruct (Z.gtb_spec (value - 10000) 0) as [_|]; [|lia].
  destruct (Z.gtb_spec (T - (value - 10000)) 10600) as [Hgt|Hle].
  - assert (Ec : sub64 (T - (value - 10000)) 10000
                 = T - (value - 10000) - 10000)
      by (unfold sub64; apply int64_id; lia).
    rewrite Ec in *. simpl in *. repeat split; lia.
  - simpl in *. repeat split; lia.
Qed.

Lemma fundZecTx_homogeneous (from : Address L) (script : option bytes)
      (m : MsgTx) (utxos : list UTXO) (rv : list Z) (s : bytes)
      (m' : MsgTx) :
  homogeneous utxos ->
  fundZecTx L W from script client m utxos = Ok (rv, s, m') ->
  rv = map Amount utxos
  /\ exists ins, m' = setTxIns m (TxIns m ++ ins)
                 /\ Forall2 input_of ins utxos.
Proof.
  intros [spk0 Hhom] H.
  apply fundZecTx_Ok_inv in H as (spk & Hloop & _).
  pose proof (fundZecTx_loop_homogeneous spk0 utxos _ _ _ _ _ _ _
                Hhom (or_introl eq_refl) Hloop) as [Hlen _].
  apply fundZecTx_loop_full in Hloop as (ins & -> & _ & _ & Hfull).
  cbn [TxIns setTxIns] in Hlen. rewrite length_app in Hlen.
  destruct Hfull as [HF ->]; [lia|]. eauto.
Qed.
End BuildProperties.

Section BuilderClaims.
Variable L : Lib.
Variable W : Type.
Variable cl : Client L W.

(** C9: in the push-variant [Build], when all master-wallet UTXOs share one
    script public key and all contract UTXOs share one, [fundZecTx] returns
    the amounts of the UTXOs in the order of the inputs it adds, and the
    i-th digest of the built transaction is the signature hash of input i
    computed with the amount of the UTXO that input spends.  When a UTXO
    is skipped the amounts keep their positions in the UTXO list while the
    inputs move up: of three UTXOs worth 5000, 7000 and 9000, the second
    with another script, the second input spends the third UTXO while the
    amount at its index is 0. *)
Theorem Build_sighash_amounts :
  (forall (from : Address L) (script : option bytes) (m : MsgTx)
          (utxos : list UTXO) (rv : list Z) (s : bytes) (m' : MsgTx),
      homogeneous utxos ->
      fundZecTx L W from script cl m utxos = Ok (rv, s, m') ->
      rv = map Amount utxos
      /\ exists ins, m' = setTxIns m (TxIns m ++ ins)
                     /\ Forall2 input_of ins utxos)
  /\ (forall (pubKey : PublicKey L) (to : string) (contract : option bytes)
             (value : Z) (mwUTXOs scriptUTXOs : list UTXO)
             (t : transaction L W),
         homogeneous mwUTXOs -> homogeneous scriptUTXOs ->
         Build L W (NewTxBuilder L W cl) pubKey to contract value
               mwUTXOs scriptUTXOs = Ok t ->
         exists pubKeyScript,
           forall i u,
             (mwUTXOs ++ scriptUTXOs) !! i = Some u ->
             exists ti d,
               TxIns (msgTx L W t) !! i = Some ti
               /\ input_of ti u
               /\ Hashes L W t !! i = Some d
               /\ CalcSignatureHash L
                    (if (i <? length mwUTXOs)%nat then pubKeyScript
                     else default [] contract)
                    SigHashAll (msgTx L W t) (Z.of_nat i) (Amount u) = Ok d)
  /\ (forall (from : Address L),
         let A := mkUTXO (TestDouble.txid "1") 5000 TestDouble.scriptA 0 in
         let B := mkUTXO (TestDouble.txid "2") 7000 TestDouble.scriptB 1 in
         let C := mkUTXO (TestDouble.txid "3") 9000 TestDouble.scriptA 2 in
         exists inA inC s,
           fundZecTx L W from None cl (NewMsgTx 4 ZCashExpiryHeight)
                     [A; B; C]
           = Ok ([5000; 0; 9000], s,
                 setTxIns (NewMsgTx 4 ZCashExpiryHeight) [inA; inC])
           /\ input_of inA A /\ input_of inC C).
Proof.
  split; [|split].
  - intros from script m utxos rv s m' Hhom H.
    now apply (fundZecTx_homogeneous L W cl from script m utxos rv s m').
  - intros pubKey to contract value mw sc t _ _ HB.
    apply Build_Ok_shape in HB
      as (spk & ins & tos & Hm & HF & _ & _ & _ & _ & _ & _ & Hh).
    exists spk. intros i u Hu.
    destruct (Forall2_lookup_r _ _ _ _ _ HF Hu) as (ti & Hti & Hio).
    destruct (Hh i u Hu) as (d & Hd & Hc).
    exists ti, d. rewrite Hm. cbn [TxIns]. rewrite <- Hm. auto.
  - intros from. cbn zeta.
    eexists _, _, _. split; [vm_compute; reflexivity|].
    split; eexists; (split; [vm_compute; reflexivity | reflexivity]).
Qed.

(** ** [InjectSigs] *)

Lemma InjectSigs_loop_spec (pk : bytes) (sigs : list (Signature L)) :
  forall (i : nat) (t : transaction L W),
    (i + length sigs <= length (TxIns (msgTx L W t)))%nat ->
    (forall k sig, sigs !! k = Some sig ->
                   exists s, Script L (sigScript_builder L (contract L W t)
                                         (mwIns L W t) (i + k) pk sig) = Ok s) ->
    exists t',
      InjectSigs_loop L W sigs i pk t = (Ok (), t')
      /\ contract L W t' = contract L W t
      /\ mwIns L W t' = mwIns L W t
      /\ hashes L W t' = hashes L W t
      /\ TxOuts (msgTx L W t') = TxOuts (msgTx L W t)
      /\ length (TxIns (msgTx L W t')) = length (TxIns (msgTx L W t))
      /\ (forall j, (j < i \/ i + length sigs <= j)%nat ->
                    TxIns (msgTx L W t') !! j = TxIns (msgTx L W t) !! j)
      /\ (forall k sig s,
             sigs !! k = Some sig ->
             Script L (sigScript_builder L (contract L W t) (mwIns L W t)
                                          (i + k) pk sig) = Ok s ->
             TxIns (msgTx L W t') !! (i + k)%nat
             = with_script s <$> TxIns (msgTx L W t) !! (i + k)%nat).
Proof.
  induction sigs as [|sig rest IH]; intros i t Hlen Hscripts.
  - exists t. simpl. repeat split; auto.
    intros k sig s Hk. now rewrite lookup_nil in Hk.
  - simpl in Hlen.
    destruct (Hscripts 0%nat sig eq_refl) as [s0 Hs0].
    rewrite Nat.add_0_r in Hs0.
    cbn [InjectSigs_loop].
    change (byte_of_Z SigHashAll) with x01.
    fold (sigScript_builder L (contract L W t) (mwIns L W t) i pk sig).
    rewrite Hs0.
    destruct (Nat.ltb_spec i (length (TxIns (msgTx L W t)))); [|lia].
    destruct (IH (S i) (setSignatureScript L W t i s0))
      as (t' & Hrun & Hc & Hmw & Hh & Ho & Hl & Hout & Hin).
    { simpl. rewrite length_alter. lia. }
    { intros k sig' Hk. cbn [contract mwIns setSignatureScript].
      replace (S i + k)%nat with (i + S k)%nat by lia.
      apply (Hscripts (S k) sig'). exact Hk. }
    simpl in Hc, Hmw, Hh, Ho, Hl, Hout, Hin. rewrite length_alter in Hl.
    exists t'. split; [exact Hrun|]. repeat (split; [assumption|]). split.
    + intros j Hj. simpl in Hj. rewrite Hout by lia.
      apply list_lookup_alter_ne. lia.
    + intros [|k] sig' s Hk Hs; simpl in Hk.
      * inversion Hk; subst sig'. rewrite Nat.add_0_r in *.
        rewrite Hs0 in Hs. inversion Hs; subst s.
        rewrite Hout by lia. apply list_lookup_alter_eq.
      * replace (i + S k)%nat with (S (i + k)) in * by lia.
        rewrite (Hin k sig' s Hk Hs). f_equal.
        apply list_lookup_alter_ne. lia.
Qed.

(** C6 (amended): [InjectSigs] does not compare the number of signatures
    with the number of digests.  Given no more signatures than inputs
    (and a key and scripts that serialise), it returns no error, gives the
    inputs [0 .. len(sigs) - 1] the scripts
    PUSH(sig || SIGHASH_ALL) PUSH(pubkey) [PUSH(contract)] and leaves the
    other inputs as they were. *)
Theorem InjectSigs_unchecked_count (t : transaction L W)
        (sigs : list (Signature L)) (pk : bytes) :
  SerializePublicKey (client L W t) (publicKey L W t) = Ok pk ->
  (length sigs <= length (TxIns (msgTx L W t)))%nat ->
  (forall k sig, sigs !! k = Some sig ->
                 exists s, Script L (sigScript_builder L (contract L W t)
                                       (mwIns L W t) k pk sig) = Ok s) ->
  exists t',
    InjectSigs L W t sigs = (Ok (), t')
    /\ length (TxIns (msgTx L W t')) = length (TxIns (msgTx L W t))
    /\ Hashes L W t' = Hashes L W t
    /\ (forall k sig s,
           sigs !! k = Some sig ->
           Script L (sigScript_builder L (contract L W t) (mwIns L W t)
                                        k pk sig) = Ok s ->
           TxIns (msgTx L W t') !! k
           = with_script s <$> TxIns (msgTx L W t) !! k)
    /\ (forall j, (length sigs <= j)%nat ->
                  TxIns (msgTx L W t') !! j = TxIns (msgTx L W t) !! j).
Proof.
  intros Hpk Hlen Hscripts. unfold InjectSigs. rewrite Hpk.
  destruct (InjectSigs_loop_spec pk sigs 0 t)
    as (t' & Hrun & _ & _ & Hh & _ & Hl & Hout & Hin); [simpl; lia | auto |].
  exists t'. split; [exact Hrun|]. split; [exact Hl|]. split; [exact Hh|].
  split.
  - intros k sig s Hk Hs. apply (Hin k sig s Hk Hs).
  - intros j Hj. apply Hout. lia.
Qed.
End BuilderClaims.

(** ** The address encoder *)

Lemma copy_into_exact (n : nat) (src : bytes) :
  length src = n -> copy_into n src = src.
Proof.
  intros H. unfold copy_into. rewrite take_ge by lia.
  replace (n - length src)%nat with 0%nat by lia. apply app_nil_r.
Qed.

Lemma encodeHash_base58check (L : Lib) (hash prefix : bytes) :
  encodeHash L hash prefix = base58check L prefix hash.
Proof.
  unfold encodeHash, addrChecksum, base58check.
  assert (H4 : length (take 4 (sha256 L (sha256 L (prefix ++ hash)))) = 4%nat)
    by (rewrite length_take, sha256_size; reflexivity).
  set (c := take 4 (sha256 L (sha256 L (prefix ++ hash)))) in *.
  rewrite (copy_into_exact 4 c H4). rewrite (take_ge c) by lia.
  rewrite (copy_into_exact 4 c H4). now rewrite <- app_assoc.
Qed.

(** C8: for every hash, every one of the networks mainnet, testnet3 and
    regtest and both kinds, the address is decoded from the Base58 encoding
    of prefix || hash || checksum, the prefix taken from the table (mainnet
    1C B8 and 1C BD, testnet3 and regtest 1D 25 and 1C BA) and the checksum
    being the first four bytes of SHA256(SHA256(prefix || hash)). *)
Theorem AddressFromHash160_base58check (L : Lib) (hash : bytes) :
  Forall (fun '(name, isScript, prefix) =>
            encodeHash L hash
              (prefix_of name (if isScript : bool then "script" else "pubkey"))
            = base58Encode L
                (prefix ++ hash
                        ++ take 4 (sha256 L (sha256 L (prefix ++ hash))))
            /\ AddressFromHash160 L hash (mkParams name) isScript
               = zecDecodeAddress L (base58check L prefix hash) name)
         [ ("mainnet", false, [x1c; xb8]); ("mainnet", true, [x1c; xbd]);
           ("testnet3", false, [x1d; x25]); ("testnet3", true, [x1c; xba]);
           ("regtest", false, [x1d; x25]); ("regtest", true, [x1c; xba]) ].
Proof.
  repeat constructor;
    unfold AddressFromHash160, DecodeAddress; cbn [Name];
    rewrite ?encodeHash_base58check; reflexivity.
Qed.

(** ** Funding by the account *)

Lemma input_total_nonneg (utxos : list UTXO) :
  Forall wellformed utxos -> 0 <= input_total utxos.
Proof.
  induction 1 as [|u rest (_ & _ & Hu) _ IH]; unfold input_total in *; simpl; lia.
Qed.

Lemma input_total_filter (c : bytes) (utxos : list UTXO) :
  Forall wellformed utxos ->
  0 <= input_total (filter (fun v => script_is c v) utxos) <= input_total utxos.
Proof.
  induction 1 as [|u rest (_ & _ & Hu) _ IH]; [unfold input_total; simpl; lia|].
  rewrite filter_cons. unfold input_total in *.
  destruct (decide (script_is c u)); simpl; lia.
Qed.

Lemma fund_outputs_exact (outs : list TxOut) :
  forall (i : nat) (acc : Z),
    Forall (fun o => 600 <= Value o) outs ->
    0 <= acc -> acc + total (map Value outs) < 2 ^ 63 ->
    fund_outputs outs i acc = Ok (acc + total (map Value outs)).
Proof.
  induction outs as [|o outs IH]; intros i acc HF Ha Hlt; simpl in *.
  - f_equal. lia.
  - inversion HF as [|? ? Ho HF']; subst.
    assert (0 <= total (map Value outs)).
    { clear -HF'. induction HF'; simpl; lia. }
    destruct (Z.ltb_spec (Value o) 600); [lia|].
    unfold add64. rewrite int64_id by lia.
    rewrite IH; [f_equal; lia | assumption | lia | lia].
Qed.

Lemma balance_exact (utxos : list UTXO) :
  forall acc,
    Forall wellformed utxos -> 0 <= acc -> acc + input_total utxos < 2 ^ 63 ->
    fold_left (fun balance utxo => add64 balance (Amount utxo)) utxos acc
    = acc + input_total utxos.
Proof.
  induction utxos as [|u rest IH]; intros acc HF Ha Hlt;
    unfold input_total in *; simpl in *; [lia|].
  inversion HF as [|? ? (_ & _ & Hu) HF']; subst.
  pose proof (input_total_nonneg rest HF') as Hn. unfold input_total in Hn.
  unfold add64. rewrite int64_id by lia. rewrite IH; auto; lia.
Qed.

Section FundProperties.
Variable L : Lib.
Variable W : Type.

(** The selection loop once the canonical script [c] is set: UTXOs with
    another script are passed over, the others are taken until the value
    still to cover has dropped to [-MaxZCashFee]. *)
Lemma fund_loop_canonical (c : bytes) (utxos : list UTXO) :
  c <> [] ->
  forall (t : tx L W) (v : Z),
    scriptPublicKey L W t = c ->
    Forall wellformed utxos ->
    v < 2 ^ 63 -> - 2 ^ 63 <= v - input_total utxos ->
    exists t' v',
      fund_loop L W utxos t v = Ok (t', v')
      /\ TxOuts (tx_msgTx L W t') = TxOuts (tx_msgTx L W t)
      /\ tx_account L W t' = tx_account L W t
      /\ v - input_total (filter (fun u => script_is c u) utxos) <= v' <= v
      /\ (- MaxZCashFee < v' ->
          v' = v - input_total (filter (fun u => script_is c u) utxos)).
Proof.
  intros Hc. induction utxos as [|u rest IH]; intros t v Hspk HF Hv Hlow.
  - exists t, v. unfold input_total. simpl. repeat split; auto; lia.
  - inversion HF as [|? ? Hu HF']; subst.
    destruct Hu as ((s & Hs & Hsne) & (h & Hh) & Ha).
    pose proof (input_total_nonneg rest HF') as Hn.
    pose proof (input_total_filter (scriptPublicKey L W t) rest HF') as Hf.
    assert (Hcons : input_total (u :: rest) = Amount u + input_total rest)
      by reflexivity.
    rewrite Hcons in Hlow.
    cbn [fund_loop]. rewrite Hs. cbn [mbind result_bind bind].
    destruct (length (scriptPublicKey L W t) =? 0)%nat eqn:El.
    { apply Nat.eqb_eq in El.
      destruct (scriptPublicKey L W t); [congruence | discriminate]. }
    cbn [negb andb].
    assert (Hsi : script_is (scriptPublicKey L W t) u
                  = bool_decide (s = scriptPublicKey L W t))
      by (unfold script_is; now rewrite Hs).
    destruct (decide (scriptPublicKey L W t = s)) as [E|NE].
    + rewrite bool_decide_eq_true_2 by exact E. cbn [negb].
      rewrite Hh. cbn [mbind result_bind bind].
      rewrite filter_cons_True
        by (rewrite Hsi; apply bool_decide_pack; auto).
      assert (Hi : input_total (u :: filter (fun u0 => script_is
                                 (scriptPublicKey L W t) u0) rest)
                   = Amount u + input_total
                                  (filter (fun u0 => script_is
                                     (scriptPublicKey L W t) u0) rest))
        by reflexivity.
      rewrite Hi.
      assert (Esub : sub64 v (Amount u) = v - Amount u)
        by (unfold sub64; apply int64_id; lia).
      rewrite Esub.
      destruct (Z.leb_spec (v - Amount u) (- MaxZCashFee)) as [Hbrk|Hgo].
      * eexists _, _. split; [reflexivity|]. simpl.
        repeat split; auto; lia.
      * destruct (IH (tx_select L W t (scriptPublicKey L W t) u h)
                     (v - Amount u)) as (t' & v' & Hrun & Ho & Hacc & Hb & He);
          auto; try lia.
        exists t', v'. split; [exact Hrun|]. simpl in Ho, Hacc, Hb, He.
        repeat split; auto; lia.
    + rewrite bool_decide_eq_false_2 by exact NE. cbn [negb].
      rewrite filter_cons_False
        by (rewrite Hsi; intros Hp; apply bool_decide_unpack in Hp; auto).
      destruct (IH t v) as (t' & v' & Hrun & Ho & Hacc & Hb & He);
        auto; try lia.
      exists t', v'. repeat split; auto; lia.
Qed.

(** The selection loop of a fresh transaction: the first UTXO sets the
    canonical script. *)
Lemma fund_loop_fresh (utxos : list UTXO) (t : tx L W) (v : Z) :
  scriptPublicKey L W t = [] ->
  Forall wellformed utxos ->
  v < 2 ^ 63 -> - 2 ^ 63 <= v - input_total utxos ->
  exists t' v',
    fund_loop L W utxos t v = Ok (t', v')
    /\ TxOuts (tx_msgTx L W t') = TxOuts (tx_msgTx L W t)
    /\ tx_account L W t' = tx_account L W t
    /\ v - input_total (canonical_utxos utxos) <= v' <= v
    /\ (- MaxZCashFee < v' -> v' = v - input_total (canonical_utxos utxos)).
Proof.
  intros Hspk HF Hv Hlow. destruct utxos as [|u rest].
  - exists t, v. unfold input_total. simpl. repeat split; auto; lia.
  - inversion HF as [|? ? Hu HF']; subst.
    destruct Hu as ((s & Hs & Hsne) & (h & Hh) & Ha).
    pose proof (input_total_nonneg rest HF') as Hn.
    pose proof (input_total_filter s rest HF') as Hf.
    assert (Hcons : input_total (u :: rest) = Amount u + input_total rest)
      by reflexivity.
    rewrite Hcons in Hlow.
    unfold canonical_utxos. rewrite Hs.
    cbn [fund_loop]. rewrite Hs, Hspk. cbn [mbind result_bind bind].
    cbn [length Nat.eqb negb andb]. rewrite Hh. cbn [mbind result_bind bind].
    rewrite filter_cons_True
      by (unfold script_is; rewrite Hs; now apply bool_decide_pack).
    assert (Hi : input_total (u :: filter (fun v0 => script_is s v0) rest)
                 = Amount u + input_total (filter (fun v0 => script_is s v0) rest))
      by reflexivity.
    rewrite Hi.
    assert (Esub : sub64 v (Amount u) = v - Amount u)
      by (unfold sub64; apply int64_id; lia).
    rewrite Esub.
    destruct (Z.leb_spec (v - Amount u) (- MaxZCashFee)) as [Hbrk|Hgo].
    + eexists _, _. split; [reflexivity|]. simpl. repeat split; auto; lia.
    + destruct (fund_loop_canonical s rest Hsne (tx_select L W t s u h)
                  (v - Amount u)) as (t' & v' & Hrun & Ho & Hacc & Hb & He);
        auto; try lia.
      exists t', v'. split; [exact Hrun|]. simpl in Ho, Hacc.
      repeat split; auto; lia.
Qed.
End FundProperties.

Section FundClaims.
Variable L : Lib.
Variable W : Type.

(** C7 (amended): with a stable view of well-formed UTXOs, declared outputs
    of at least 600 and a payable source address, [fund] fails with
    [ErrMismatchedPubKeys] exactly when the balance check passes (all UTXOs
    together cover outputs plus fee) and the UTXOs that carry the canonical
    script, the one of the first UTXO, do not.  When the balance does not
    cover outputs plus fee, in particular when there is no UTXO, it fails
    with [ErrInsufficientBalance]; when the canonical UTXOs cover them, it
    succeeds and appends a change output. *)
Theorem fund_mismatched_pubkeys (t : tx L W) (addr : Address L)
        (utxos : list UTXO) (script : bytes) (w : W) (tr : list Event) :
  GetUTXOs (account_client L W (tx_account L W t)) (EncodeAddress L addr)
           999999 0 w = (Ok utxos, w) ->
  PayToAddrScript L addr = Ok script ->
  scriptPublicKey L W t = [] ->
  Forall wellformed utxos ->
  input_total utxos < 2 ^ 63 ->
  Forall (fun o => 600 <= Value o) (TxOuts (tx_msgTx L W t)) ->
  output_total (tx_msgTx L W t) + 10000 < 2 ^ 63 ->
  let required := output_total (tx_msgTx L W t) + 10000 in
  let outcome := fst (fund L W t (Some addr) (w, tr)) in
  (outcome = Err ErrMismatchedPubKeys
   <-> required <= input_total utxos
       /\ input_total (canonical_utxos utxos) < required)
  /\ (input_total utxos < required ->
      outcome = Err (ErrInsufficientBalance (EncodeAddress L addr) required
                                            (input_total utxos)))
  /\ (required <= input_total (canonical_utxos utxos) ->
      exists t' change,
        outcome = Ok t'
        /\ TxOuts (tx_msgTx L W t')
           = TxOuts (tx_msgTx L W t) ++ [mkTxOut change script]
        /\ 10000 <= change).
Proof.
  intros HG Hpay Hspk HF Hsum Hout Hreq. cbn zeta.
  pose proof (input_total_nonneg utxos HF) as Hn.
  assert (Hon : 0 <= output_total (tx_msgTx L W t)).
  { unfold output_total. clear -Hout.
    induction Hout; simpl; lia. }
  assert (Hcan : 0 <= input_total (canonical_utxos utxos) <= input_total utxos).
  { unfold canonical_utxos. destruct utxos as [|u rest];
      [change (input_total []) with 0; lia|].
    destruct (DecodeString (ScriptPubKey u));
      [now apply input_total_filter
      | change (input_total []) with 0; lia ..]. }
  unfold fund, Balance, liftW, liftR, mbind, IO_bind, mret, IO_ret.
  cbn beta iota. cbn [fst snd].
  rewrite (fund_outputs_exact _ 0 0 Hout) by (fold (output_total (tx_msgTx L W t)); lia).
  fold (output_total (tx_msgTx L W t)). rewrite Z.add_0_l.
  rewrite HG. cbn beta iota. cbn [fst snd].
  rewrite (balance_exact utxos 0 HF) by lia. rewrite Z.add_0_l.
  assert (Ea : add64 (output_total (tx_msgTx L W t)) MaxZCashFee
               = output_total (tx_msgTx L W t) + 10000)
    by (unfold add64, MaxZCashFee; apply int64_id; lia).
  rewrite Ea.
  destruct (Z.gtb_spec (output_total (tx_msgTx L W t) + 10000)
                       (input_total utxos)) as [Hins|Hsuf].
  { cbn [fst]. split; [|split].
    - split; [discriminate | lia].
    - reflexivity.
    - lia. }
  cbn [fst snd]. rewrite HG. cbn beta iota. cbn [fst snd].
  destruct (fund_loop_fresh L W utxos t (output_total (tx_msgTx L W t)))
    as (t' & v' & Hrun & Ho & _ & Hb & He); auto; try lia.
  rewrite Hrun. cbn beta iota.
  destruct (Z.leb_spec v' (- MaxZCashFee)) as [Hcov|Hnot];
    unfold MaxZCashFee in *.
  - rewrite Hpay. cbn beta iota. cbn [fst]. split; [|split].
    + split; [discriminate | lia].
    + lia.
    + intros _. eexists _, (neg64 v'). split; [reflexivity|].
      cbn [tx_msgTx AddTxOut TxOuts]. rewrite Ho.
      split; [reflexivity|]. unfold neg64. rewrite int64_id; lia.
  - cbn beta iota. cbn [fst]. rewrite (He Hnot) in Hnot. split; [|split].
    + split; [lia | reflexivity].
    + lia.
    + lia.
Qed.
End FundClaims.

(** ** The orchestrator *)

Lemma keeps_trace_ret {W A} (a : A) : keeps_trace (mret a : IO W A).
Proof. intros s. reflexivity. Qed.

Lemma keeps_trace_liftR {W A} (r : result A) : keeps_trace (liftR r : IO W A).
Proof. intros s. reflexivity. Qed.

Lemma keeps_trace_liftW {W A} (f : W -> result A * W) : keeps_trace (liftW f).
Proof. intros s. unfold liftW. now destruct (f (fst s)). Qed.

Lemma keeps_trace_bind {W A B} (m : IO W A) (k : A -> IO W B) :
  keeps_trace m -> (forall a, keeps_trace (k a)) -> keeps_trace (m ≫= k).
Proof.
  intros Hm Hk s. unfold mbind, IO_bind. specialize (Hm s).
  destruct (m s) as [[a | e |] s1]; simpl in *; [|assumption ..].
  rewrite Hk. assumption.
Qed.

Section OrchestratorProperties.
Variable L : Lib.
Variable W : Type.
Variable Sleep : Z -> W -> W.

Lemma keeps_trace_fund (t : tx L W) (addr : option (Address L)) :
  keeps_trace (fund L W t addr).
Proof.
  unfold fund, Balance.
  apply keeps_trace_bind;
    [destruct addr; [apply keeps_trace_ret | apply keeps_trace_liftR]|].
  intros a. apply keeps_trace_bind; [apply keeps_trace_liftR|]. intros v.
  apply keeps_trace_bind.
  { apply keeps_trace_bind; [apply keeps_trace_liftW|].
    intros u. apply keeps_trace_ret. }
  intros b. destruct (_ >? _); [apply keeps_trace_liftR|].
  apply keeps_trace_bind; [apply keeps_trace_liftW|]. intros u.
  apply keeps_trace_bind; [apply keeps_trace_liftR|]. intros [t' v'].
  destruct (_ <=? _); [|apply keeps_trace_liftR].
  apply keeps_trace_bind; [apply keeps_trace_liftR|]. intros p.
  apply keeps_trace_ret.
Qed.

Lemma keeps_trace_fundAll (t : tx L W) (addr : Address L) :
  keeps_trace (fundAll L W t addr).
Proof.
  unfold fundAll. apply keeps_trace_bind; [apply keeps_trace_liftW|].
  intros u. apply keeps_trace_liftR.
Qed.

Lemma keeps_trace_check_preCond (pc : Callback W) (t : tx L W) :
  keeps_trace (check_preCond L W pc t).
Proof.
  intros s. unfold check_preCond.
  destruct (pc (tx_msgTx L W t) (fst s)) as [[[] m] w']; reflexivity.
Qed.

(** Nothing is published before the inputs are signed. *)
Lemma keeps_trace_prepare (a : account L W) (contract : option bytes)
      (updateTxIn : option (TxIn -> TxIn)) (preCond : option (Callback W))
      (f : option (ScriptBuilder L -> ScriptBuilder L)) (sendAll : bool) :
  keeps_trace (SendTransaction_prepare L W a contract updateTxIn preCond f
                                       sendAll).
Proof.
  unfold SendTransaction_prepare.
  apply keeps_trace_bind;
    [destruct preCond; [apply keeps_trace_check_preCond | apply keeps_trace_ret]|].
  intros t. apply keeps_trace_bind; [apply keeps_trace_liftR|]. intros addr.
  apply keeps_trace_bind;
    [destruct sendAll; [apply keeps_trace_fundAll | apply keeps_trace_fund]|].
  intros t1. apply keeps_trace_bind; [apply keeps_trace_liftR|]. intros m.
  apply keeps_trace_bind; [apply keeps_trace_liftR|]. intros t2.
  apply keeps_trace_ret.
Qed.

(** [fund] ends by appending the change output: after it the output list
    is not empty. *)
Lemma fund_adds_output (t t' : tx L W) (addr : option (Address L))
      (s s' : W * list Event) :
  fund L W t addr s = (Ok t', s') -> TxOuts (tx_msgTx L W t') <> [].
Proof.
  unfold fund, Balance, liftW, liftR, mbind, IO_bind, mret, IO_ret.
  intros H.
  repeat match type of H with
         | (match ?x with _ => _ end) = _ =>
             let E := fresh "E" in destruct x eqn:E; try discriminate
         | (let (_, _) := ?x in _) = _ =>
             let E := fresh "E" in destruct x eqn:E; try discriminate
         | (if ?x then _ else _) _ = _ =>
             let E := fresh "E" in destruct x eqn:E; try discriminate
         | (if ?x then _ else _) = _ =>
             let E := fresh "E" in destruct x eqn:E; try discriminate
         | (let '(_, _) := ?x in _) _ = _ =>
             let E := fresh "E" in destruct x eqn:E; try discriminate
         end.
  inversion H; subst. cbn [tx_msgTx AddTxOut TxOuts].
  intros Hnil. now apply app_eq_nil in Hnil as [_ Hnil].
Qed.

(** The polls of one round. *)
Lemma postCond_loop_spec (postCond : option (Callback W)) (n : nat) :
  forall (t : tx L W) (s : W * list Event) (b : bool) (t' : tx L W)
         (s' : W * list Event),
    postCond_loop L W Sleep n postCond t s = (b, t', s') ->
    (b = false /\ (postCond <> None \/ n = 0%nat)
     /\ snd s' = snd s ++ concat (replicate n poll_failed))
    \/ (b = true /\ postCond = None /\ (0 < n)%nat /\ snd s' = snd s)
    \/ (b = true /\ postCond <> None
        /\ exists k, (k < n)%nat
                     /\ snd s' = snd s ++ concat (replicate k poll_failed)
                                       ++ [EvPostCond true]).
Proof.
  induction n as [|n IH]; intros t s b t' s' H.
  - simpl in H. inversion H; subst. left. simpl. rewrite app_nil_r. auto.
  - simpl in H. destruct postCond as [pc|].
    + destruct (pc (tx_msgTx L W t) (fst s)) as [[holds m] w'].
      cbn [fst snd] in H. destruct holds.
      * inversion H; subst. right. right. split; [reflexivity|].
        split; [discriminate|]. exists 0%nat. split; [lia|]. reflexivity.
      * apply IH in H as [(-> & _ & Htr) | [(_ & Hn & _) | (-> & _ & k & Hk & Htr)]];
          [|discriminate|]; cbn [fst snd] in Htr.
        -- left. split; [reflexivity|]. split; [left; discriminate|].
           rewrite Htr. simpl. rewrite <- !app_assoc. reflexivity.
        -- right. right. split; [reflexivity|]. split; [discriminate|].
           exists (S k). split; [lia|].
           rewrite Htr. simpl. rewrite <- !app_assoc. reflexivity.
    + inversion H; subst. right. left. repeat split; auto. lia.
Qed.

Lemma submit_spec (t : tx L W) (s : W * list Event) (r : result ())
      (s' : W * list Event) :
  submit L W t s = (r, s') ->
  (snd s' = snd s /\ forall v, r <> Ok v)
  \/ exists stx,
      snd s' = snd s ++ [EvPublish stx (match r with Ok _ => true | _ => false end)].
Proof.
  unfold submit, publish, liftR, mbind, IO_bind. intros H.
  destruct (ZecEncode L (tx_msgTx L W t)) as [buf | e |].
  - destruct (PublishTransaction _ buf (fst s)) as [r0 w'] eqn:E.
    right. exists buf. destruct r0; inversion H; subst; reflexivity.
  - inversion H; subst. left. split; [reflexivity | discriminate].
  - inversion H; subst. left. split; [reflexivity | discriminate].
Qed.

(** The rounds of the submission loop: a run that has returned has made
    fewer than [fuel] failed rounds and a last one; a run that is still in the
    loop has made [fuel] failed rounds. *)
Lemma submit_loop_spec (ctxDone : W -> bool) (postCond : option (Callback W))
      (txFee : Z) (fuel : nat) :
  forall (t : tx L W) (s : W * list Event),
    match submit_loop L W Sleep fuel ctxDone postCond txFee t s with
    | (Some r, s') =>
        exists rounds final,
          snd s' = snd s ++ concat (map failed_round rounds) ++ final
          /\ (length rounds < fuel)%nat
          /\ last_round postCond txFee r final
    | (None, s') =>
        exists rounds,
          length rounds = fuel
          /\ snd s' = snd s ++ concat (map failed_round rounds)
    end.
Proof.
  induction fuel as [|fuel IH]; intros t s.
  { exists []. split; [reflexivity|]. simpl. now rewrite app_nil_r. }
  cbn [submit_loop]. cbn [fst snd].
  destruct (ctxDone (fst s)).
  { exists [], [EvCtxDone true]. split; [reflexivity|]. split; [simpl; lia|].
    constructor. }
  destruct (submit L W t (fst s, snd s ++ [EvCtxDone false]))
    as [rs s1] eqn:Es.
  apply submit_spec in Es as [[Htr Hno] | [stx Htr]]; cbn [fst snd] in Htr.
  - destruct rs as [[] | e |]; [now elim (Hno ()) | |];
      exists [], [EvCtxDone false];
      (split; [simpl; now rewrite Htr|]; split; [simpl; lia|];
       constructor; discriminate).
  - destruct rs as [[] | e |].
    + destruct (postCond_loop L W Sleep 60 postCond t s1)
        as [[b t1] s2] eqn:Ep.
      apply postCond_loop_spec in Ep
        as [(-> & _ & Hp) | [(-> & Hnone & _ & Hp) | (-> & Hsome & k & Hk & Hp)]].
      * specialize (IH t1 s2).
        destruct (submit_loop L W Sleep fuel ctxDone postCond txFee t1 s2)
          as [[r|] s3].
        -- destruct IH as (rounds & final & Hf & Hlt & Hl).
           exists (stx :: rounds), final. split; [|split; [simpl; lia | exact Hl]].
           rewrite Hf, Hp, Htr. unfold failed_round. simpl.
           rewrite <- !app_assoc. reflexivity.
        -- destruct IH as (rounds & Hlen & Hf).
           exists (stx :: rounds). split; [simpl; lia|].
           rewrite Hf, Hp, Htr. unfold failed_round. simpl.
           rewrite <- !app_assoc. reflexivity.
      * exists [], [EvCtxDone false; EvPublish stx true].
        split; [rewrite Hp, Htr; simpl; now rewrite <- app_assoc|].
        split; [simpl; lia|]. now constructor.
      * exists [], ([EvCtxDone false; EvPublish stx true]
                      ++ concat (replicate k poll_failed) ++ [EvPostCond true]).
        split; [rewrite Hp, Htr; simpl; now rewrite <- !app_assoc|].
        split; [simpl; lia|]. now constructor.
    + exists [], [EvCtxDone false; EvPublish stx false].
      split; [rewrite Htr; simpl; now rewrite <- app_assoc|].
      split; [simpl; lia|]. constructor. discriminate.
    + exists [], [EvCtxDone false; EvPublish stx false].
      split; [rewrite Htr; simpl; now rewrite <- app_assoc|].
      split; [simpl; lia|]. constructor. discriminate.
Qed.

(** A run that has returned keeps its result when given more fuel. *)
Lemma submit_loop_more_fuel (ctxDone : W -> bool)
      (postCond : option (Callback W)) (txFee : Z) (fuel : nat) :
  forall (t : tx L W) (s : W * list Event) r s',
    submit_loop L W Sleep fuel ctxDone postCond txFee t s = (Some r, s') ->
    submit_loop L W Sleep (S fuel) ctxDone postCond txFee t s = (Some r, s').
Proof.
  induction fuel as [|fuel IH]; intros t s r s' H; [discriminate|].
  cbn [submit_loop] in H |- *. cbn [fst snd] in H |- *.
  destruct (ctxDone (fst s)); [exact H|].
  destruct (submit L W t _) as [[[] | e |] s1]; try exact H.
  destruct (postCond_loop L W Sleep 60 postCond t s1) as [[[] t1] s2];
    [exact H|].
  now apply IH.
Qed.

Lemma prepare_fee (a : account L W) (contract : option bytes)
      (updateTxIn : option (TxIn -> TxIn)) (preCond : option (Callback W))
      (f : option (ScriptBuilder L -> ScriptBuilder L)) (sendAll : bool)
      (s s1 : W * list Event) (t : tx L W) (txFee : Z) :
  SendTransaction_prepare L W a contract updateTxIn preCond f sendAll s
  = (Ok (t, txFee), s1) ->
  txFee = MaxZCashFee.
Proof.
  unfold SendTransaction_prepare, liftR, mbind, IO_bind, mret, IO_ret.
  intros Ep.
  repeat match type of Ep with
         | (match ?x with _ => _ end) = _ => destruct x; try discriminate
         | (let (_, _) := ?x in _) = _ => destruct x; try discriminate
         end.
  now inversion Ep.
Qed.

(** C3 (amended): in every execution of [SendTransaction], either nothing is
    published (the call fails before submission) or the trace is a sequence
    of rounds: every round publishes once and then polls the post-condition
    at most 60 times, a failed poll being followed by a sleep of 5 seconds;
    the call returns (txid, fee) at the first poll that holds (at once when
    there is no post-condition), returns the error of a failed publication
    at once, and returns [ErrPostConditionCheckFailed] when the context is
    done at the start of a round.  After 60 failed polls with the context
    not done the transaction is published again and another round of polls
    begins: a call that has not returned after [fuel] rounds has published
    [fuel] times. *)
Theorem SendTransaction_rounds (fuel : nat) (a : account L W)
        (ctxDone : W -> bool) (contract : option bytes) (speed : Z)
        (updateTxIn : option (TxIn -> TxIn)) (preCond : option (Callback W))
        (f : option (ScriptBuilder L -> ScriptBuilder L))
        (postCond : option (Callback W)) (sendAll : bool)
        (s : W * list Event) :
  match SendTransaction L W Sleep fuel a ctxDone contract speed updateTxIn
                        preCond f postCond sendAll s with
  | (Some r, s') =>
      (snd s' = snd s /\ forall v, r <> Ok v)
      \/ exists rounds final,
          snd s' = snd s ++ concat (map failed_round rounds) ++ final
          /\ (length rounds < fuel)%nat
          /\ last_round postCond MaxZCashFee r final
  | (None, s') =>
      exists rounds,
        length rounds = fuel
        /\ snd s' = snd s ++ concat (map failed_round rounds)
  end.
Proof.
  unfold SendTransaction.
  pose proof (keeps_trace_prepare a contract updateTxIn preCond f sendAll s)
    as Hk.
  destruct (SendTransaction_prepare L W a contract updateTxIn preCond f
                                    sendAll s) as [[[t fee0] | e |] s1] eqn:Ep;
    cbn [snd] in Hk.
  - apply prepare_fee in Ep as ->.
    pose proof (submit_loop_spec ctxDone postCond MaxZCashFee fuel t s1) as H.
    destruct (submit_loop L W Sleep fuel ctxDone postCond MaxZCashFee t s1)
      as [[r|] s2].
    + right. destruct H as (rounds & final & Hf & Hlt & Hl).
      exists rounds, final. rewrite Hf, Hk. auto.
    + destruct H as (rounds & Hlen & Hf).
      exists rounds. rewrite Hf, Hk. auto.
  - left. split; [exact Hk | discriminate].
  - left. split; [exact Hk | discriminate].
Qed.
End OrchestratorProperties.

Section SendAll.
Variable L : Lib.
Variable W : Type.
Variable Sleep : Z -> W -> W.

Lemma fundAll_loop_outputs (utxos : list UTXO) :
  forall (t t' : tx L W),
    fundAll_loop L W utxos t = Ok t' ->
    TxOuts (tx_msgTx L W t') = TxOuts (tx_msgTx L W t).
Proof.
  induction utxos as [|u rest IH]; intros t t' H; simpl in H.
  - now inversion H.
  - apply bind_Ok_inv in H as (s & _ & H).
    destruct (_ && _); [now apply IH|].
    apply bind_Ok_inv in H as (h & _ & H). apply IH in H. exact H.
Qed.

Lemma fundAll_outputs (t t' : tx L W) (addr : Address L)
      (s s' : W * list Event) :
  fundAll L W t addr s = (Ok t', s') ->
  TxOuts (tx_msgTx L W t') = TxOuts (tx_msgTx L W t).
Proof.
  unfold fundAll, liftW, liftR, mbind, IO_bind. intros H.
  destruct (GetUTXOs _ _ _ _ _) as [[utxos | e |] w']; try discriminate.
  cbn beta iota in H.
  destruct (fundAll_loop L W utxos t) as [t1 | e |] eqn:E; try discriminate.
  inversion H; subst. now apply fundAll_loop_outputs in E.
Qed.

(** C10 (the defect): a call with [sendAll] and no pre-condition whose
    funding succeeds reaches the fee deduction with an empty output list;
    [TxOut[len(TxOut)-1]] is then [TxOut[-1]] and the call panics. *)
Theorem SendTransaction_sendAll_no_output (fuel : nat) (a : account L W)
        (ctxDone : W -> bool) (contract : option bytes) (speed : Z)
        (updateTxIn : option (TxIn -> TxIn))
        (f : option (ScriptBuilder L -> ScriptBuilder L))
        (postCond : option (Callback W)) (s s1 : W * list Event)
        (address : Address L) (t1 : tx L W) :
  match contract with
  | None => account_Address L W a
  | Some c => AddressFromHash160 L (copy_into 20 (Hash160 L c))
                                 (NetworkParams (account_client L W a)) true
  end = Ok address ->
  fundAll L W (newTx L W a (NewMsgTx 4 0)) address s = (Ok t1, s1) ->
  TxOuts (tx_msgTx L W t1) = []
  /\ SendTransaction L W Sleep fuel a ctxDone contract speed updateTxIn None f
                     postCond true s = (Some Panic, s1).
Proof.
  intros Haddr Hfund.
  pose proof (fundAll_outputs _ _ _ _ _ Hfund) as Hout. simpl in Hout.
  split; [exact Hout|].
  unfold SendTransaction, SendTransaction_prepare.
  unfold liftR, mbind, IO_bind, mret, IO_ret. rewrite Haddr. cbn beta iota.
  rewrite Hfund. cbn beta iota.
  unfold debit_last_output. rewrite Hout. reflexivity.
Qed.
End SendAll.

(** * The statements at concrete inputs *)

Lemma Ok_of_is_Ok {A : Type} (r : result A) :
  is_Ok r = true -> exists a, r = Ok a.
Proof. destruct r; simpl; intros H; try discriminate. eauto. Qed.

Module Examples.
Import TestDouble.

Lemma CalcSignatureHash_branch_key_witness :
  in_uint32 (ExpiryHeight toyTx)
  /\ sigHashKey 6000000
     = Ok (list_byte_of_string "ZcashSigHash" ++ [xbb; x09; xb8; x76]).
Proof.
  assert (H : in_uint32 (ExpiryHeight toyTx))
    by (change (0 <= 6000000 < 2 ^ 32); lia).
  split; [exact H|].
  destruct (CalcSignatureHash_branch_key toyCrypto [] SigHashAll toyTx 0 0 H)
    as (p & _ & _ & _ & Hk & _ & _ & H6).
  destruct (H6 eq_refl) as (_ & Hb & _). rewrite Hb in Hk. exact Hk.
Defined.

Lemma CalcSignatureHash_header_witness :
  exists digest,
    CalcSignatureHash toyCrypto [] SigHashAll toyTx 0 0 = Ok digest
    /\ le_value (PutUint32 (header_of toyTx)) = 0x80000004
    /\ le_value (PutUint32 (groupID_of toyTx)) = 0x892F2085.
Proof.
  destruct (Ok_of_is_Ok (CalcSignatureHash toyCrypto [] SigHashAll toyTx 0 0))
    as [digest E]; [vm_compute; reflexivity|].
  exists digest. split; [exact E|].
  destruct (proj1 (CalcSignatureHash_header toyCrypto [] SigHashAll toyTx 0 0)
                  digest E)
    as (sh & key & rest & _ & _ & _ & _ & Hh & Hg).
  split; [exact Hh | exact Hg].
Defined.

Lemma CalcSignatureHash_bad_index_witness :
  CalcSignatureHash toyCrypto [] SigHashAll toyTx 1 0 = Err (ErrBadIndex 1 1)
  /\ CalcSignatureHash toyCrypto [] SigHashAll toyTx 0 0
     <> Err (ErrBadIndex 0 1).
Proof.
  split.
  - apply (proj1 (CalcSignatureHash_bad_index toyCrypto [] SigHashAll toyTx 1 0)).
    change (1 <= 1). lia.
  - apply (proj2 (CalcSignatureHash_bad_index toyCrypto [] SigHashAll toyTx 0 0)).
    change (0 < 1). lia.
Defined.

(** C2, refuted as stated: a transfer of 20_000 funded by one UTXO of
    20_500 leaves a remainder of 10_500, not above fee + dust; no change
    output is made and the inputs exceed the outputs by 10_500. *)
Lemma Build_fee_not_always_10000 :
  exists t,
    Build toyLib world (NewTxBuilder toyLib world toyClient) [x02] "tmDest"
          None 20000 [mkUTXO (txid "1") 20500 scriptA 0] [] = Ok t
    /\ map Value (TxOuts (msgTx toyLib world t)) = [10000]
    /\ input_total [mkUTXO (txid "1") 20500 scriptA 0]
       - output_total (msgTx toyLib world t) = 10500.
Proof.
  destruct (Ok_of_is_Ok
              (Build toyLib world (NewTxBuilder toyLib world toyClient) [x02]
                     "tmDest" None 20000
                     [mkUTXO (txid "1") 20500 scriptA 0] []))
    as [t E]; [vm_compute; reflexivity|].
  exists t. split; [exact E|].
  assert (H : match Build toyLib world (NewTxBuilder toyLib world toyClient)
                    [x02] "tmDest" None 20000
                    [mkUTXO (txid "1") 20500 scriptA 0] [] with
              | Ok t => map Value (TxOuts (msgTx toyLib world t))
              | _ => []
              end = [10000]) by (vm_compute; reflexivity).
  rewrite E in H. split; [exact H|].
  unfold output_total. rewrite H. reflexivity.
Qed.

Lemma Build_fee_bounds_witness :
  exists t,
    Build toyLib world (NewTxBuilder toyLib world toyClient) [x02] "tmDest"
          None 20000 [utxoC] [] = Ok t
    /\ input_total [utxoC] - output_total (msgTx toyLib world t) = 10000.
Proof.
  destruct (Ok_of_is_Ok
              (Build toyLib world (NewTxBuilder toyLib world toyClient) [x02]
                     "tmDest" None 20000 [utxoC] []))
    as [t E]; [vm_compute; reflexivity|].
  exists t. split; [exact E|].
  assert (Hpos : Forall (fun u => 0 <= Amount u) ([utxoC] ++ []))
    by (repeat constructor; change (0 <= 30000); lia).
  assert (Hsum : input_total ([utxoC] ++ []) < 2 ^ 63) by reflexivity.
  assert (Hv : 20000 < 2 ^ 63) by reflexivity.
  destruct (Build_fee_bounds toyLib world toyClient [x02] "tmDest" None 20000
                             [utxoC] [] t Hpos Hsum Hv E)
    as (_ & _ & Hgt & _).
  apply Hgt. reflexivity.
Defined.

(** C3, refuted as stated: the post-condition holds after 300 seconds; the
    60 polls of the first round fail, the context is not done, and the
    transaction is published a second time; 61 polls are made. *)
Lemma SendTransaction_publishes_twice :
  exists w tr,
    SendTransaction toyLib world Sleep 2 toyAccount never_done None 0 None
                    (Some (pay 10000)) None (Some (confirmed_after 300))
                    false (mkWorld [utxoC] 0, [])
    = (Some (Ok ("00", 10000)), (w, tr))
    /\ length (filter is_publish tr) = 2%nat
    /\ length (filter is_poll tr) = 61%nat.
Proof.
  eexists _, _. split; [vm_compute; reflexivity|].
  split; vm_compute; reflexivity.
Qed.

Lemma SendTransaction_rounds_witness :
  exists rounds final,
    last_round (Some (confirmed_after 300)) MaxZCashFee
               (Ok ("00", 10000)) final
    /\ (length rounds < 2)%nat
    /\ (length (concat (map failed_round rounds) ++ final) = 125)%nat.
Proof.
  pose proof (SendTransaction_rounds toyLib world Sleep 2 toyAccount never_done
                None 0 None (Some (pay 10000)) None
                (Some (confirmed_after 300)) false (mkWorld [utxoC] 0, []))
    as H.
  assert (E : exists w tr,
             SendTransaction toyLib world Sleep 2 toyAccount never_done None
               0 None (Some (pay 10000)) None (Some (confirmed_after 300))
               false (mkWorld [utxoC] 0, [])
             = (Some (Ok ("00", 10000)), (w, tr))
             /\ length tr = 125%nat).
  { eexists _, _. split; vm_compute; reflexivity. }
  destruct E as (w & tr & E & Hlen). rewrite E in H.
  destruct H as [[_ Hno] | (rounds & final & Htr & Hlt & Hl)].
  - exfalso. now apply (Hno ("00", 10000)).
  - exists rounds, final. split; [exact Hl|]. split; [exact Hlt|].
    cbn [snd app] in Htr. rewrite Htr in Hlen. exact Hlen.
Defined.

(** C6, refuted as stated: a transaction built from two UTXOs has two
    digests; given one signature, [InjectSigs] returns no error and has
    set the signature script of the first input. *)
Lemma InjectSigs_short_list_accepted :
  exists t,
    Build toyLib world (NewTxBuilder toyLib world toyClient) [x02] "tmDest"
          None 25000 [utxoA; utxoC] [] = Ok t
    /\ length (Hashes toyLib world t) = 2%nat
    /\ map SignatureScript (TxIns (msgTx toyLib world t)) = [[]; []]
    /\ fst (InjectSigs toyLib world t [[x30]]) = Ok ()
    /\ map SignatureScript
           (TxIns (msgTx toyLib world (snd (InjectSigs toyLib world t [[x30]]))))
       = [[x02; x30; x01; x01; x02]; []].
Proof.
  destruct (Ok_of_is_Ok
              (Build toyLib world (NewTxBuilder toyLib world toyClient) [x02]
                     "tmDest" None 25000 [utxoA; utxoC] []))
    as [t E]; [vm_compute; reflexivity|].
  exists t. split; [exact E|].
  assert (H : match Build toyLib world (NewTxBuilder toyLib world toyClient)
                    [x02] "tmDest" None 25000 [utxoA; utxoC] [] with
              | Ok t =>
                  (length (Hashes toyLib world t),
                   map SignatureScript (TxIns (msgTx toyLib world t)),
                   fst (InjectSigs toyLib world t [[x30]]),
                   map SignatureScript
                       (TxIns (msgTx toyLib world
                                 (snd (InjectSigs toyLib world t [[x30]])))))
              | _ => (0%nat, [], Panic, [])
              end
              = (2%nat, [[]; []], Ok (), [[x02; x30; x01; x01; x02]; []]))
    by (vm_compute; reflexivity).
  rewrite E in H. inversion H as [[H1 H2 H3 H4]].
  rewrite H1, H2, H3, H4. repeat split.
Qed.

Lemma InjectSigs_unchecked_count_witness :
  exists t',
    InjectSigs toyLib world SignerDouble.contractTx [[x30]; [x31]] = (Ok (), t')
    /\ TxIns (msgTx toyLib world t') !! 0%nat
       = Some (with_script [x02; x30; x01; x01; x02] SignerDouble.in0)
    /\ TxIns (msgTx toyLib world t') !! 1%nat
       = Some (with_script [x02; x31; x01; x01; x02; x02; x51; x52]
                           SignerDouble.in1)
    /\ TxIns (msgTx toyLib world t') !! 2%nat = Some SignerDouble.in2.
Proof.
  destruct (InjectSigs_unchecked_count toyLib world SignerDouble.contractTx
              ([[x30]; [x31]] : list (Signature toyLib)) [x02])
    as (t' & Hrun & _ & _ & Hin & Hout).
  - reflexivity.
  - simpl. lia.
  - intros k sig Hk. eexists. reflexivity.
  - exists t'. split; [exact Hrun|]. split; [|split].
    + exact (Hin 0%nat [x30] [x02; x30; x01; x01; x02] eq_refl eq_refl).
    + exact (Hin 1%nat [x31] [x02; x31; x01; x01; x02; x02; x51; x52]
                 eq_refl eq_refl).
    + rewrite (Hout 2%nat) by (simpl; lia). reflexivity.
Defined.

(** C7, refuted as stated: of two UTXOs worth 15_000 and 20_000 with
    different scripts, the first sets the canonical script and is the only
    one selected; it does not cover an output of 20_000 plus the fee, and
    [fund] reports mismatched script public keys.  With no UTXO at all it
    reports an insufficient balance instead. *)
Lemma fund_mismatched_with_canonical_set :
  fst (fund toyLib world (txPaying 20000) (Some ("tmSender" : Address toyLib))
            (mkWorld [utxoA; utxoB] 0, []))
  = Err ErrMismatchedPubKeys
  /\ canonical_utxos [utxoA; utxoB] = [utxoA]
  /\ fst (fund toyLib world (txPaying 20000)
               (Some ("tmSender" : Address toyLib)) (mkWorld [] 0, []))
     = Err (ErrInsufficientBalance "tmSender" 30000 0).
Proof. repeat split; vm_compute; reflexivity. Qed.

Lemma wellformed_utxoA : wellformed utxoA.
Proof.
  split; [|split].
  - exists [x76; xa9; x14; xaa; x88; xac]. split; [reflexivity | discriminate].
  - eexists. vm_compute. reflexivity.
  - change (0 <= 15000). lia.
Defined.

Lemma wellformed_utxoB : wellformed utxoB.
Proof.
  split; [|split].
  - exists [x76; xa9; x14; xbb; x88; xac]. split; [reflexivity | discriminate].
  - eexists. vm_compute. reflexivity.
  - change (0 <= 20000). lia.
Defined.

Lemma fund_mismatched_pubkeys_witness :
  fst (fund toyLib world (txPaying 20000) (Some ("tmSender" : Address toyLib))
            (mkWorld [utxoA; utxoB] 0, []))
  = Err ErrMismatchedPubKeys.
Proof.
  destruct (fund_mismatched_pubkeys toyLib world (txPaying 20000)
              ("tmSender" : Address toyLib) [utxoA; utxoB]
              (list_byte_of_string "tmSender") (mkWorld [utxoA; utxoB] 0) [])
    as ([_ Hmis] & _ & _).
  - reflexivity.
  - reflexivity.
  - reflexivity.
  - constructor; [apply wellformed_utxoA|].
    constructor; [apply wellformed_utxoB | constructor].
  - reflexivity.
  - repeat constructor. change (600 <= 20000). lia.
  - reflexivity.
  - apply Hmis. split; [vm_compute; discriminate | vm_compute; reflexivity].
Defined.

Lemma Build_sighash_amounts_witness :
  exists t pubKeyScript,
    Build toyLib world (NewTxBuilder toyLib world toyClient) [x02] "tmDest"
          None 25000 [utxoA; utxoC] [] = Ok t
    /\ forall i u,
        ([utxoA; utxoC] ++ []) !! i = Some u ->
        exists ti d,
          TxIns (msgTx toyLib world t) !! i = Some ti
          /\ input_of ti u
          /\ Hashes toyLib world t !! i = Some d
          /\ CalcSignatureHash toyLib
               (if (i <? 2)%nat then pubKeyScript else [])
               SigHashAll (msgTx toyLib world t) (Z.of_nat i) (Amount u)
             = Ok d.
Proof.
  destruct (Ok_of_is_Ok
              (Build toyLib world (NewTxBuilder toyLib world toyClient) [x02]
                     "tmDest" None 25000 [utxoA; utxoC] []))
    as [t E]; [vm_compute; reflexivity|].
  assert (HA : homogeneous [utxoA; utxoC]).
  { exists [x76; xa9; x14; xaa; x88; xac]. repeat constructor. }
  assert (HN : homogeneous []) by (exists []; constructor).
  destruct (proj1 (proj2 (Build_sighash_amounts toyLib world toyClient))
              [x02] "tmDest" None 25000 [utxoA; utxoC] [] t HA HN E)
    as [pubKeyScript H].
  exists t, pubKeyScript. split; [exact E | exact H].
Defined.

(** With a skipped UTXO [Build] itself does not succeed: the digests of
    inputs 0 and 1 are computed (the second with the amount 0 found at the
    position of the skipped UTXO), then index 2 is past the two inputs. *)
Lemma Build_skipped_utxo_fails :
  match Build toyLib world (NewTxBuilder toyLib world toyClient) [x02] "tmDest"
              None 20000 [utxoA; utxoB; utxoC] [] with
  | Err e => e = ErrBadIndex 2 2
  | _ => False
  end.
Proof. vm_compute. reflexivity. Qed.

Lemma SendTransaction_sendAll_no_output_witness :
  SendTransaction toyLib world Sleep 1 toyAccount never_done None 0 None None
                  None None true (mkWorld [utxoC] 0, [])
  = (Some Panic, (mkWorld [utxoC] 0, [])).
Proof.
  destruct (fundAll toyLib world (newTx toyLib world toyAccount (NewMsgTx 4 0))
                    ("tmSender" : Address toyLib) (mkWorld [utxoC] 0, []))
    as [r s1] eqn:E.
  assert (Hs : snd (fundAll toyLib world
                      (newTx toyLib world toyAccount (NewMsgTx 4 0))
                      ("tmSender" : Address toyLib) (mkWorld [utxoC] 0, []))
               = (mkWorld [utxoC] 0, [])) by (vm_compute; reflexivity).
  assert (Hr : is_Ok (fst (fundAll toyLib world
                             (newTx toyLib world toyAccount (NewMsgTx 4 0))
                             ("tmSender" : Address toyLib)
                             (mkWorld [utxoC] 0, []))) = true)
    by (vm_compute; reflexivity).
  rewrite E in Hs, Hr. cbn [fst snd] in Hs, Hr. subst s1.
  destruct r as [t1 | e |]; try discriminate.
  apply (SendTransaction_sendAll_no_output toyLib world Sleep 1 toyAccount
           never_done None 0 None None None _ _
           ("tmSender" : Address toyLib) t1 eq_refl E).
Defined.
End Examples.

(** * Further properties of the code *)

(** ** The signature hash: what the hash types leave out *)

Lemma le_value_PutUint64 (v : Z) :
  0 <= v < 2 ^ 64 -> le_value (PutUint64 v) = v.
Proof.
  intros Hv. unfold PutUint64, le_value.
  rewrite !Z_of_byte_of_Z, !Z.shiftr_div_pow2 by lia.
  change (2 ^ 8) with 256. change (2 ^ 16) with 65536.
  change (2 ^ 24) with 16777216. change (2 ^ 32) with 4294967296.
  change (2 ^ 40) with 1099511627776. change (2 ^ 48) with 281474976710656.
  change (2 ^ 56) with 72057594037927936.
  change (2 ^ 64) with 18446744073709551616 in Hv.
  Z.div_mod_to_equations. lia.
Qed.

Lemma uint64_int64_inj (a b : Z) :
  in_int64 a -> in_int64 b -> uint64 a = uint64 b -> a = b.
Proof.
  unfold in_int64, uint64. intros Ha Hb H.
  destruct (Z_lt_le_dec a 0), (Z_lt_le_dec b 0).
  - rewrite <- (Z.mod_add a 1), <- (Z.mod_add b 1) in H by lia.
    rewrite !Z.mod_small in H; lia.
  - rewrite <- (Z.mod_add a 1) in H by lia.
    rewrite !Z.mod_small in H; lia.
  - rewrite <- (Z.mod_add b 1) in H by lia.
    rewrite !Z.mod_small in H; lia.
  - rewrite !Z.mod_small in H; lia.
Qed.

Section SigHashTypes.
Variable C : Crypto.

(** [CalcSignatureHash] with the sighash cache written out. *)
Lemma CalcSignatureHash_unfold (subScript : bytes) (hashType : Z)
      (tx : MsgTx) (idx amt : Z) :
  CalcSignatureHash C subScript hashType tx idx amt
  = if idx >? Z.of_nat (length (TxIns tx)) - 1
    then Err (ErrBadIndex idx (length (TxIns tx)))
    else
      preimage ←
        sigHashPreimage C subScript hashType tx idx amt
          (mkTxSigHashes
             (blake2b C (list_byte_of_string "ZcashPrevoutHash")
                (concat (map (fun ti => Hash (PreviousOutPoint ti)
                                        ++ PutUint32 (Index (PreviousOutPoint ti)))
                             (TxIns tx))))
             (blake2b C (list_byte_of_string "ZcashSequencHash")
                (concat (map (fun ti => PutUint32 (Sequence ti)) (TxIns tx))))
             (blake2b C (list_byte_of_string "ZcashOutputsHash")
                (concat (map WriteTxOut (TxOuts tx)))));
      key ← sigHashKey (ExpiryHeight tx);
      blake2bHash C preimage key.
Proof.
  unfold CalcSignatureHash, NewTxSigHashes, calcHashPrevOuts,
    calcHashSequence, calcHashOutputs.
  rewrite !blake2bHash_Ok. reflexivity.
Qed.

(** X1: under SIGHASH_NONE (with or without ANYONECANPAY) the digest does
    not depend on the outputs of the transaction: replacing them leaves
    the result of [CalcSignatureHash], digest or failure, as it was. *)
Theorem CalcSignatureHash_none_ignores_outputs (subScript : bytes)
        (hashType : Z) (tx : MsgTx) (idx amt : Z) (outs : list TxOut) :
  Z.land hashType sigHashMask = SigHashNone ->
  CalcSignatureHash C subScript hashType (setTxOuts tx outs) idx amt
  = CalcSignatureHash C subScript hashType tx idx amt.
Proof.
  intros Hm. rewrite !CalcSignatureHash_unfold.
  unfold sigHashPreimage. rewrite Hm.
  cbn [setTxOuts TxIns TxOuts Version LockTime ExpiryHeight
       HashPrevOuts HashSequence HashOutputs].
  change (SigHashNone =? SigHashSingle) with false.
  change (SigHashNone =? SigHashNone) with true.
  cbn [negb andb]. reflexivity.
Qed.

(** X2: under SIGHASH_SINGLE the digest of input [idx] depends on the
    outputs only through the output at the same index: two output lists
    that agree there (both holding the same output, or both being too
    short, in which case the zero hash stands for the outputs and no error
    is raised) give the same result. *)
Theorem CalcSignatureHash_single_own_output (subScript : bytes)
        (hashType : Z) (tx : MsgTx) (idx amt : Z) (outs : list TxOut) :
  Z.land hashType sigHashMask = SigHashSingle ->
  0 <= idx ->
  outs !! Z.to_nat idx = TxOuts tx !! Z.to_nat idx ->
  CalcSignatureHash C subScript hashType (setTxOuts tx outs) idx amt
  = CalcSignatureHash C subScript hashType tx idx amt.
Proof.
  intros Hm Hi Hl. rewrite !CalcSignatureHash_unfold.
  unfold sigHashPreimage. rewrite Hm.
  cbn [setTxOuts TxIns TxOuts Version LockTime ExpiryHeight
       HashPrevOuts HashSequence HashOutputs].
  change (SigHashSingle =? SigHashSingle) with true.
  change (SigHashSingle =? SigHashNone) with false.
  cbn [negb andb].
  assert (E : (if idx <? Z.of_nat (length outs)
               then txOut ← index outs idx;
                    blake2bHash C (WriteTxOut txOut)
                      (list_byte_of_string outputsHashPersonalization)
               else Ok zeroHash)
              = (if idx <? Z.of_nat (length (TxOuts tx))
                 then txOut ← index (TxOuts tx) idx;
                      blake2bHash C (WriteTxOut txOut)
                        (list_byte_of_string outputsHashPersonalization)
                 else Ok zeroHash)).
  { unfold index. destruct (Z.ltb_spec idx 0); [lia|]. rewrite Hl.
    destruct (TxOuts tx !! Z.to_nat idx) as [o|] eqn:Ho.
    - pose proof (lookup_lt_Some _ _ _ Ho). pose proof (lookup_lt_Some _ _ _ Hl).
      destruct (Z.ltb_spec idx (Z.of_nat (length outs))); [|lia].
      destruct (Z.ltb_spec idx (Z.of_nat (length (TxOuts tx)))); [|lia].
      reflexivity.
    - apply lookup_ge_None_1 in Ho. apply lookup_ge_None_1 in Hl.
      destruct (Z.ltb_spec idx (Z.of_nat (length outs))); [lia|].
      destruct (Z.ltb_spec idx (Z.of_nat (length (TxOuts tx)))); [lia|].
      reflexivity. }
  rewrite E. reflexivity.
Qed.

(** X3: under ANYONECANPAY the digest of an input does not depend on the
    other inputs: for two input lists that hold the same input at index
    [i], the results are the same, whatever else the lists hold. *)
Theorem CalcSignatureHash_anyonecanpay_own_input (subScript : bytes)
        (hashType : Z) (tx : MsgTx) (i : nat) (amt : Z) (ins : list TxIn)
        (ti : TxIn) :
  Z.land hashType SigHashAnyOneCanPay <> 0 ->
  TxIns tx !! i = Some ti ->
  ins !! i = Some ti ->
  CalcSignatureHash C subScript hashType (setTxIns tx ins) (Z.of_nat i) amt
  = CalcSignatureHash C subScript hashType tx (Z.of_nat i) amt.
Proof.
  intros Ha H1 H2. rewrite !CalcSignatureHash_unfold.
  pose proof (lookup_lt_Some _ _ _ H1). pose proof (lookup_lt_Some _ _ _ H2).
  cbn [setTxIns TxIns TxOuts Version LockTime ExpiryHeight].
  destruct (Z.gtb_spec (Z.of_nat i) (Z.of_nat (length ins) - 1)); [lia|].
  destruct (Z.gtb_spec (Z.of_nat i) (Z.of_nat (length (TxIns tx)) - 1)); [lia|].
  unfold sigHashPreimage.
  cbn [setTxIns TxIns TxOuts Version LockTime ExpiryHeight
       HashPrevOuts HashSequence HashOutputs].
  destruct (Z.eqb_spec (Z.land hashType SigHashAnyOneCanPay) 0); [contradiction|].
  cbn [andb].
  unfold index. destruct (Z.ltb_spec (Z.of_nat i) 0); [lia|].
  rewrite Nat2Z.id, H1, H2. reflexivity.
Qed.

(** X4: a negative input index is not caught by the sanity check (which
    only rejects indices past the last input): the call panics on the slice
    access instead of returning an error. *)
Theorem CalcSignatureHash_negative_index_panics (subScript : bytes)
        (hashType : Z) (tx : MsgTx) (idx amt : Z) :
  idx < 0 ->
  CalcSignatureHash C subScript hashType tx idx amt = Panic.
Proof.
  intros Hi. rewrite CalcSignatureHash_unfold.
  destruct (Z.gtb_spec idx (Z.of_nat (length (TxIns tx)) - 1)); [lia|].
  destruct (sigHashPreimage_cases C subScript hashType tx idx amt
              (mkTxSigHashes
                 (blake2b C (list_byte_of_string "ZcashPrevoutHash")
                    (concat (map (fun ti => Hash (PreviousOutPoint ti)
                                            ++ PutUint32 (Index (PreviousOutPoint ti)))
                                 (TxIns tx))))
                 (blake2b C (list_byte_of_string "ZcashSequencHash")
                    (concat (map (fun ti => PutUint32 (Sequence ti)) (TxIns tx))))
                 (blake2b C (list_byte_of_string "ZcashOutputsHash")
                    (concat (map WriteTxOut (TxOuts tx))))))
    as [[rest E] | [E _]].
  - exfalso. revert E. unfold sigHashPreimage.
    match goal with
    | |- context [mbind _ ?r] => destruct r as [h | e |]
    end; cbn [mbind result_bind bind]; try discriminate.
    destruct (Z.eqb_spec idx MaxUint32) as [E|_];
      [unfold MaxUint32 in E; lia|].
    cbn [negb]. unfold index. destruct (Z.ltb_spec idx 0); [|lia].
    discriminate.
  - rewrite E. reflexivity.
Qed.

(** Equal preimages of an input carry equal amounts. *)
Lemma sigHashPreimage_amount_inj (subScript : bytes) (hashType : Z)
        (tx : MsgTx) (idx amt amt' : Z) (sh : TxSigHashes) (p : bytes) :
  in_int64 amt -> in_int64 amt' ->
  idx <> MaxUint32 ->
  sigHashPreimage C subScript hashType tx idx amt sh = Ok p ->
  sigHashPreimage C subScript hashType tx idx amt' sh = Ok p ->
  amt = amt'.
Proof.
  intros Ha Ha' Hi. unfold sigHashPreimage.
  match goal with
  | |- context [mbind _ ?r] => destruct r as [h | e |]
  end; cbn [mbind result_bind bind]; try discriminate.
  destruct (Z.eqb_spec idx MaxUint32); [contradiction|]. cbn [negb].
  destruct (index (TxIns tx) idx) as [txIn | e |];
    cbn [mbind result_bind bind]; try discriminate.
  intros H1 H2. rewrite <- H1 in H2. clear H1.
  assert (Hinj : forall a b : bytes, Ok a = Ok b -> a = b)
    by (intros a b E; now inversion E).
  apply Hinj in H2. cbv zeta in H2. rename H2 into H.
  do 4 apply app_inv_head in H.
  apply app_inv_tail in H.
  apply uint64_int64_inj; [assumption ..|].
  assert (Hr : forall v, 0 <= uint64 v < 2 ^ 64)
    by (intros v; apply Z.mod_pos_bound; lia).
  rewrite <- (le_value_PutUint64 (uint64 amt)) by apply Hr.
  rewrite <- (le_value_PutUint64 (uint64 amt')) by apply Hr.
  now rewrite H.
Qed.

(** X5: the preimage binds the amount of the input being signed: for an
    input index, two different int64 amounts give different preimages
    (whenever the preimages are built at all). *)
Theorem sigHashPreimage_binds_amount (subScript : bytes) (hashType : Z)
        (tx : MsgTx) (idx amt amt' : Z) (sh : TxSigHashes) (p p' : bytes) :
  in_int64 amt -> in_int64 amt' ->
  idx <> MaxUint32 ->
  amt <> amt' ->
  sigHashPreimage C subScript hashType tx idx amt sh = Ok p ->
  sigHashPreimage C subScript hashType tx idx amt' sh = Ok p' ->
  p <> p'.
Proof.
  intros Ha Ha' Hi Hne H1 H2 E. subst p'. apply Hne.
  exact (sigHashPreimage_amount_inj subScript hashType tx idx amt amt' sh p
           Ha Ha' Hi H1 H2).
Qed.
End SigHashTypes.

(** ** The builder: signatures and funds *)

Section BuilderExtras.
Variable L : Lib.
Variable W : Type.
Variable cl : Client L W.

(** The fields [Build] copies into the transaction it returns. *)
Lemma Build_Ok_fields (builder : txBuilder L W) (pubKey : PublicKey L)
      (to : string) (c : option bytes) (value : Z)
      (mwUTXOs scriptUTXOs : list UTXO) (t : transaction L W) :
  Build L W builder pubKey to c value mwUTXOs scriptUTXOs = Ok t ->
  client L W t = builder_client L W builder
  /\ publicKey L W t = pubKey
  /\ contract L W t = c
  /\ mwIns L W t = length mwUTXOs.
Proof.
  unfold Build. intros H.
  destruct (value <? _); [discriminate|].
  apply bind_Ok_inv in H as (pk & _ & H).
  apply bind_Ok_inv in H as (from & _ & H).
  apply bind_Ok_inv in H as (toAddr & _ & H).
  apply bind_Ok_inv in H as ([[rv1 spk] m1] & _ & H).
  apply bind_Ok_inv in H as ([[[rv amt] sent0] m2] & _ & H).
  destruct (amt <? _); [discriminate|].
  apply bind_Ok_inv in H as ([sent1 m3] & _ & H).
  apply bind_Ok_inv in H as (m4 & _ & H).
  apply bind_Ok_inv in H as (hs1 & _ & H).
  apply bind_Ok_inv in H as (hs2 & _ & H).
  inversion H; subst t. auto.
Qed.

(** The loop of [InjectSigs] over a list of signatures in two parts. *)
Lemma InjectSigs_loop_app (pk : bytes) (sigs1 sigs2 : list (Signature L)) :
  forall (i : nat) (t : transaction L W),
    InjectSigs_loop L W (sigs1 ++ sigs2) i pk t
    = match InjectSigs_loop L W sigs1 i pk t with
      | (Ok _, t') => InjectSigs_loop L W sigs2 (i + length sigs1) pk t'
      | other => other
      end.
Proof.
  induction sigs1 as [|sig rest IH]; intros i t.
  - simpl. now rewrite Nat.add_0_r.
  - cbn [app InjectSigs_loop length].
    destruct (Script L _) as [s | e |]; [|reflexivity ..].
    destruct (i <? length (TxIns (msgTx L W t)))%nat; [|reflexivity].
    rewrite IH. replace (S i + length rest)%nat with (i + S (length rest))%nat by lia.
    reflexivity.
Qed.

(** X6: a successful [Build] followed by [InjectSigs] with exactly one
    signature per digest: the key serialises (it did in [Build]), the call
    returns no error, every input of the transaction carries the script
    PUSH(sig || SIGHASH_ALL) PUSH(pubkey) [PUSH(contract)] of its
    signature and still spends the UTXO handed to [Build] at its index, and
    the outputs and the digests are untouched. *)
Theorem Build_then_InjectSigs (pubKey : PublicKey L) (to : string)
        (c : option bytes) (value : Z) (mwUTXOs scriptUTXOs : list UTXO)
        (t : transaction L W) (sigs : list (Signature L)) (pk : bytes) :
  Build L W (NewTxBuilder L W cl) pubKey to c value mwUTXOs scriptUTXOs
  = Ok t ->
  SerializePublicKey cl pubKey = Ok pk ->
  length sigs = length (Hashes L W t) ->
  (forall k sig, sigs !! k = Some sig ->
                 exists s, Script L (sigScript_builder L c (length mwUTXOs)
                                                        k pk sig) = Ok s) ->
  exists t',
    InjectSigs L W t sigs = (Ok (), t')
    /\ TxOuts (msgTx L W t') = TxOuts (msgTx L W t)
    /\ Hashes L W t' = Hashes L W t
    /\ length (TxIns (msgTx L W t')) = length sigs
    /\ forall k sig u,
        sigs !! k = Some sig ->
        (mwUTXOs ++ scriptUTXOs) !! k = Some u ->
        exists s ti,
          Script L (sigScript_builder L c (length mwUTXOs) k pk sig) = Ok s
          /\ input_of ti u
          /\ TxIns (msgTx L W t') !! k = Some (with_script s ti).
Proof.
  intros HB Hpk Hlen Hscripts.
  destruct (Build_Ok_fields _ _ _ _ _ _ _ _ HB) as (Hcl & Hpub & Hc & Hmw).
  cbn [NewTxBuilder builder_client] in Hcl.
  apply Build_Ok_shape in HB
    as (spk & ins & tos & Hm & HF & _ & _ & _ & Hh & _ & _ & _).
  unfold Hashes in *.
  assert (Hins : length (TxIns (msgTx L W t)) = length sigs).
  { rewrite Hm. cbn [TxIns]. rewrite (Forall2_length _ _ _ HF). lia. }
  unfold InjectSigs. rewrite Hcl, Hpub, Hpk.
  destruct (InjectSigs_loop_spec L W pk sigs 0 t)
    as (t' & Hrun & _ & _ & Hhs & Ho & Hl & _ & Hin).
  { simpl. lia. }
  { intros k sig Hk. rewrite Hc, Hmw. simpl. now apply (Hscripts k sig). }
  exists t'. split; [exact Hrun|]. split; [exact Ho|]. split; [exact Hhs|].
  split; [lia|].
  intros k sig u Hk Hu.
  destruct (Hscripts k sig Hk) as [s Hs].
  destruct (Forall2_lookup_r _ _ _ _ _ HF Hu) as (ti & Hti & Hio).
  exists s, ti. split; [exact Hs|]. split; [exact Hio|].
  specialize (Hin k sig s Hk). rewrite Hc, Hmw in Hin. simpl in Hin.
  rewrite (Hin Hs). rewrite Hm. cbn [TxIns]. rewrite Hti. reflexivity.
Qed.

(** X7: [InjectSigs] given more signatures than the transaction has inputs
    does not return an error: it gives every input the script of its
    signature and then panics on [TxIn[i]] with [i = len(TxIn)]. *)
Theorem InjectSigs_surplus_signature_panics (t : transaction L W)
        (sigs : list (Signature L)) (pk : bytes) :
  SerializePublicKey (client L W t) (publicKey L W t) = Ok pk ->
  (length (TxIns (msgTx L W t)) < length sigs)%nat ->
  (forall k sig, sigs !! k = Some sig ->
                 exists s, Script L (sigScript_builder L (contract L W t)
                                       (mwIns L W t) k pk sig) = Ok s) ->
  exists t',
    InjectSigs L W t sigs = (Panic, t')
    /\ forall k sig s,
        (k < length (TxIns (msgTx L W t)))%nat ->
        sigs !! k = Some sig ->
        Script L (sigScript_builder L (contract L W t) (mwIns L W t)
                                     k pk sig) = Ok s ->
        TxIns (msgTx L W t') !! k
        = with_script s <$> TxIns (msgTx L W t) !! k.
Proof.
  intros Hpk Hlen Hscripts. unfold InjectSigs. rewrite Hpk.
  set (n := length (TxIns (msgTx L W t))) in *.
  rewrite <- (take_drop n sigs).
  assert (Hn : length (take n sigs) = n) by (rewrite length_take; lia).
  destruct (drop n sigs) as [|sig rest] eqn:Ed.
  { apply (f_equal length) in Ed. rewrite length_drop in Ed. simpl in Ed. lia. }
  assert (Hsig : sigs !! n = Some sig).
  { rewrite <- (take_drop n sigs), lookup_app_r by lia.
    rewrite Hn, Nat.sub_diag, Ed. reflexivity. }
  destruct (InjectSigs_loop_spec L W pk (take n sigs) 0 t)
    as (t' & Hrun & Hc & Hmw & _ & _ & Hl & _ & Hin).
  { simpl. lia. }
  { intros k sg Hk. simpl. apply (Hscripts k sg).
    apply lookup_take_Some in Hk. tauto. }
  rewrite InjectSigs_loop_app, Hrun, Hn. cbn [Nat.add InjectSigs_loop].
  destruct (Hscripts n sig Hsig) as [s Hs].
  change (byte_of_Z SigHashAll) with x01.
  fold (sigScript_builder L (contract L W t') (mwIns L W t') n pk sig).
  rewrite Hc, Hmw, Hs, Hl. fold n. rewrite Nat.ltb_irrefl.
  exists t'. split; [reflexivity|].
  intros k sg s' Hk Hsg Hs'. apply (Hin k sg s'); [|exact Hs'].
  rewrite lookup_app_l in Hsg by (rewrite Hn; lia). exact Hsg.
Qed.

(** With one script for all UTXOs, and ids that parse, the funding loop of
    the builder does not fail. *)
Lemma fundZecTx_loop_total (s : bytes) (utxos : list UTXO) :
  forall (i : nat) (spk : bytes) (rv : list Z) (m : MsgTx),
    Forall wellformed utxos ->
    Forall (fun u => DecodeString (ScriptPubKey u) = Ok s) utxos ->
    spk = [] \/ spk = s ->
    exists r, fundZecTx_loop utxos i spk rv m = Ok r.
Proof.
  induction utxos as [|u rest IH]; intros i spk rv m HW HF Hspk.
  - simpl. eauto.
  - inversion HW as [|? ? (_ & (h & Hh) & _) HW']; subst.
    inversion HF as [|? ? Hu HF']; subst.
    cbn [fundZecTx_loop]. rewrite Hu, Hh. cbn [mbind result_bind bind].
    destruct (length spk =? 0)%nat eqn:E.
    + apply IH; auto.
    + destruct Hspk as [-> | ->]; [discriminate|].
      rewrite bool_decide_eq_true_2 by reflexivity. cbn [negb].
      apply IH; auto.
Qed.

(** X8: the funds check of [Build].  For a transfer without contract from
    well-formed UTXOs that carry one script, a key that serialises and
    addresses that decode, a [value] of at least 10_600 that exceeds the
    total of the UTXOs is refused with [ErrInsufficientFunds], which reports
    the total found and [value] itself as the amount required: the fee is
    taken out of [value], not added to it. *)
Theorem Build_insufficient_funds (pubKey : PublicKey L) (to : string)
        (value : Z) (mwUTXOs : list UTXO) (pk : bytes)
        (from toAddr : Address L) :
  SerializePublicKey cl pubKey = Ok pk ->
  PublicKeyToAddress cl pk = Ok from ->
  zecDecodeAddress L to (Name (NetworkParams cl)) = Ok toAddr ->
  Forall wellformed mwUTXOs ->
  homogeneous mwUTXOs ->
  10600 <= value < 2 ^ 63 ->
  input_total mwUTXOs < value ->
  Build L W (NewTxBuilder L W cl) pubKey to None value mwUTXOs []
  = Err (ErrInsufficientFunds (input_total mwUTXOs) value).
Proof.
  intros Hpk Hfrom Hto HW Hhom Hv Hlt.
  pose proof (input_total_nonneg mwUTXOs HW) as Hn.
  unfold Build, NewTxBuilder. cbn [fee dust version builder_client].
  change (add64 10000 600) with 10600.
  destruct (Z.ltb_spec value 10600); [lia|].
  rewrite Hpk. cbn [mbind result_bind bind].
  rewrite Hfrom. cbn [mbind result_bind bind].
  rewrite Hto. cbn [mbind result_bind bind].
  destruct Hhom as [s Hs].
  destruct (fundZecTx_loop_total s mwUTXOs 0 []
              (replicate (length mwUTXOs) 0)
              (NewMsgTx 4 ZCashExpiryHeight) HW Hs (or_introl eq_refl))
    as [[[rv spk] m1] Hloop].
  assert (Hf : fundZecTx L W from None cl (NewMsgTx 4 ZCashExpiryHeight) mwUTXOs
               = Ok (rv, spk, m1)).
  { unfold fundZecTx. cbn [mbind result_bind bind]. rewrite Hloop.
    reflexivity. }
  rewrite Hf. cbn [mbind result_bind bind].
  apply (fundZecTx_homogeneous L W cl) in Hf as [-> _];
    [|exists s; exact Hs].
  assert (Hsum : sum (map Amount mwUTXOs) = input_total mwUTXOs).
  { apply sum_exact.
    - apply Forall_fmap. eapply Forall_impl; [exact HW|].
      intros u (_ & _ & Hu). exact Hu.
    - fold (input_total mwUTXOs). lia. }
  rewrite Hsum.
  assert (Ev : add64 (sub64 value 10000) 10000 = value).
  { unfold add64, sub64. rewrite (int64_id (value - 10000)) by lia.
    rewrite int64_id by lia. lia. }
  rewrite Ev.
  destruct (Z.ltb_spec (input_total mwUTXOs) value); [reflexivity | lia].
Qed.
End BuilderExtras.

(** ** The account: funding and signing *)

Lemma fund_outputs_dust (before : list TxOut) (o : TxOut) (after : list TxOut) :
  forall (i : nat) (acc : Z),
    Forall (fun p => 600 <= Value p) before ->
    Value o < 600 ->
    fund_outputs (before ++ o :: after) i acc
    = Err (ErrDustOutput (i + length before) (Value o)).
Proof.
  induction before as [|p before IH]; intros i acc HF Ho.
  - simpl. destruct (Z.ltb_spec (Value o) 600); [|lia].
    now rewrite Nat.add_0_r.
  - inversion HF as [|? ? Hp HF']; subst. cbn [app fund_outputs length].
    destruct (Z.ltb_spec (Value p) 600); [lia|].
    rewrite IH by assumption. do 2 f_equal. lia.
Qed.

Lemma input_total_app (l1 l2 : list UTXO) :
  input_total (l1 ++ l2) = input_total l1 + input_total l2.
Proof. unfold input_total. now rewrite map_app, total_app. Qed.

Lemma canonical_utxos_wellformed (utxos : list UTXO) :
  Forall wellformed utxos -> Forall wellformed (canonical_utxos utxos).
Proof.
  intros HF. unfold canonical_utxos. destruct utxos as [|u0 r0]; [constructor|].
  destruct (DecodeString (ScriptPubKey u0)); try constructor.
  apply Forall_forall. intros x Hx.
  apply list_elem_of_filter in Hx as [_ Hx].
  rewrite Forall_forall in HF. now apply HF.
Qed.

Lemma input_total_canonical (utxos : list UTXO) :
  Forall wellformed utxos ->
  0 <= input_total (canonical_utxos utxos) <= input_total utxos.
Proof.
  intros HF. pose proof (input_total_nonneg utxos HF).
  unfold canonical_utxos. destruct utxos as [|u rest];
    [change (input_total []) with 0; lia|].
  destruct (DecodeString (ScriptPubKey u));
    [now apply input_total_filter
    | change (input_total []) with 0; lia ..].
Qed.

Section AccountExtras.
Variable L : Lib.
Variable W : Type.

(** X9: [fund] refuses a transaction that declares an output below 600
    zatoshi: it returns [ErrDustOutput] for the first such output, with its
    index and value, before it asks the indexer for anything (the world and
    the trace are as they were). *)
Theorem fund_rejects_dust (t : tx L W) (addr : Address L)
        (before : list TxOut) (o : TxOut) (after : list TxOut)
        (s : W * list Event) :
  TxOuts (tx_msgTx L W t) = before ++ o :: after ->
  Forall (fun p => 600 <= Value p) before ->
  Value o < 600 ->
  fund L W t (Some addr) s
  = (Err (ErrDustOutput (length before) (Value o)), s).
Proof.
  intros Hout HF Ho.
  unfold fund, liftR, mbind, IO_bind, mret, IO_ret. cbn beta iota.
  rewrite Hout, (fund_outputs_dust before o after 0 0 HF Ho). reflexivity.
Qed.

(** The selection loop of [fund] once the canonical script [c] is set:
    what it takes is a prefix of the UTXOs that carry [c], the shortest one
    that brings the value still to cover down to [-MaxZCashFee]. *)
Lemma fund_loop_select (c : bytes) (utxos : list UTXO) :
  c <> [] ->
  forall (t : tx L W) (v : Z),
    scriptPublicKey L W t = c ->
    Forall wellformed utxos ->
    v < 2 ^ 63 -> - 2 ^ 63 <= v - input_total utxos ->
    - MaxZCashFee < v ->
    exists sel rest ins t',
      fund_loop L W utxos t v = Ok (t', v - input_total sel)
      /\ filter (fun u => script_is c u) utxos = sel ++ rest
      /\ receiveValues L W t' = receiveValues L W t ++ map Amount sel
      /\ TxIns (tx_msgTx L W t') = TxIns (tx_msgTx L W t) ++ ins
      /\ Forall2 input_of ins sel
      /\ (- MaxZCashFee < v - input_total sel -> rest = [])
      /\ (forall p q, sel = p ++ q -> q <> [] ->
                      - MaxZCashFee < v - input_total p).
Proof.
  intros Hc. induction utxos as [|u rest IH]; intros t v Hspk HF Hv Hlow Hfee.
  - exists [], [], [], t. change (input_total []) with 0. rewrite Z.sub_0_r.
    rewrite !app_nil_r. do 4 (split; [reflexivity|]).
    split; [constructor|]. split; [reflexivity|].
    intros p q E Hq. symmetry in E. apply app_eq_nil in E as [_ E].
    contradiction.
  - inversion HF as [|? ? Hu HF']; subst.
    destruct Hu as ((s & Hs & Hsne) & (h & Hh) & Ha).
    pose proof (input_total_nonneg rest HF') as Hn.
    assert (Hcons : input_total (u :: rest) = Amount u + input_total rest)
      by reflexivity.
    rewrite Hcons in Hlow.
    cbn [fund_loop]. rewrite Hs. cbn [mbind result_bind bind].
    destruct (length (scriptPublicKey L W t) =? 0)%nat eqn:El.
    { apply Nat.eqb_eq in El.
      destruct (scriptPublicKey L W t); [congruence | discriminate]. }
    cbn [negb andb].
    assert (Hsi : script_is (scriptPublicKey L W t) u
                  = bool_decide (s = scriptPublicKey L W t))
      by (unfold script_is; now rewrite Hs).
    destruct (decide (scriptPublicKey L W t = s)) as [E|NE].
    + rewrite bool_decide_eq_true_2 by exact E. cbn [negb].
      rewrite Hh. cbn [mbind result_bind bind].
      rewrite filter_cons_True
        by (rewrite Hsi; apply bool_decide_pack; auto).
      assert (Esub : sub64 v (Amount u) = v - Amount u)
        by (unfold sub64; apply int64_id; lia).
      rewrite Esub.
      assert (Hio : input_of (NewTxIn (mkOutPoint h (Vout u)) []) u)
        by (exists h; auto).
      destruct (Z.leb_spec (v - Amount u) (- MaxZCashFee)) as [Hbrk|Hgo].
      * exists [u], (filter (fun u0 => script_is (scriptPublicKey L W t) u0) rest),
          [NewTxIn (mkOutPoint h (Vout u)) []],
          (tx_select L W t (scriptPublicKey L W t) u h).
        assert (E1 : input_total [u] = Amount u)
          by (unfold input_total; simpl; lia).
        rewrite E1. split; [reflexivity|]. split; [reflexivity|].
        split; [reflexivity|]. split; [reflexivity|].
        split; [repeat constructor; exact Hio|]. split; [lia|].
        intros p q Ep Hq. destruct p as [|p0 p].
        -- change (input_total []) with 0. lia.
        -- inversion Ep as [[E0 Er]]. symmetry in Er.
           apply app_eq_nil in Er as [_ Er]. contradiction.
      * destruct (IH (tx_select L W t (scriptPublicKey L W t) u h)
                     (v - Amount u))
          as (sel & rst & ins & t' & Hrun & Hfl & Hrv & Hins & HF2 & Hr & Hmin);
          auto; try lia.
        exists (u :: sel), rst, (NewTxIn (mkOutPoint h (Vout u)) [] :: ins), t'.
        assert (E1 : input_total (u :: sel) = Amount u + input_total sel)
          by reflexivity.
        rewrite E1.
        replace (v - (Amount u + input_total sel))
          with (v - Amount u - input_total sel) by lia.
        split; [exact Hrun|]. cbn [tx_select scriptPublicKey] in Hfl.
        split; [rewrite Hfl; reflexivity|].
        split; [rewrite Hrv; cbn [tx_select receiveValues];
                rewrite <- app_assoc; reflexivity|].
        split; [rewrite Hins; cbn [tx_select tx_msgTx AddTxIn TxIns];
                rewrite <- app_assoc; reflexivity|].
        split; [constructor; assumption|]. split; [exact Hr|].
        intros p q Ep Hq. destruct p as [|p0 p].
        -- change (input_total []) with 0. lia.
        -- inversion Ep as [[E0 Er]]. subst p0.
           assert (E2 : input_total (u :: p) = Amount u + input_total p)
             by reflexivity.
           rewrite E2. specialize (Hmin p q Er Hq). lia.
    + rewrite bool_decide_eq_false_2 by exact NE. cbn [negb].
      rewrite filter_cons_False
        by (rewrite Hsi; intros Hp; apply bool_decide_unpack in Hp; auto).
      destruct (IH t v)
        as (sel & rst & ins & t' & Hrun & Hfl & Hrv & Hins & HF2 & Hr & Hmin);
        auto; try lia.
      exists sel, rst, ins, t'. repeat (split; [assumption|]). exact Hmin.
Qed.

(** The same for a fresh transaction: the first UTXO sets the script. *)
Lemma fund_loop_select_fresh (utxos : list UTXO) (t : tx L W) (v : Z) :
  scriptPublicKey L W t = [] ->
  Forall wellformed utxos ->
  v < 2 ^ 63 -> - 2 ^ 63 <= v - input_total utxos ->
  - MaxZCashFee < v ->
  exists sel rest ins t',
    fund_loop L W utxos t v = Ok (t', v - input_total sel)
    /\ canonical_utxos utxos = sel ++ rest
    /\ receiveValues L W t' = receiveValues L W t ++ map Amount sel
    /\ TxIns (tx_msgTx L W t') = TxIns (tx_msgTx L W t) ++ ins
    /\ Forall2 input_of ins sel
    /\ (- MaxZCashFee < v - input_total sel -> rest = [])
    /\ (forall p q, sel = p ++ q -> q <> [] ->
                    - MaxZCashFee < v - input_total p).
Proof.
  intros Hspk HF Hv Hlow Hfee. destruct utxos as [|u rest].
  - exists [], [], [], t. change (input_total []) with 0. rewrite Z.sub_0_r.
    rewrite !app_nil_r. do 4 (split; [reflexivity|]).
    split; [constructor|]. split; [reflexivity|].
    intros p q E Hq. symmetry in E. apply app_eq_nil in E as [_ E].
    contradiction.
  - inversion HF as [|? ? Hu HF']; subst.
    destruct Hu as ((s & Hs & Hsne) & (h & Hh) & Ha).
    pose proof (input_total_nonneg rest HF') as Hn.
    assert (Hcons : input_total (u :: rest) = Amount u + input_total rest)
      by reflexivity.
    rewrite Hcons in Hlow.
    unfold canonical_utxos. rewrite Hs.
    cbn [fund_loop]. rewrite Hs, Hspk. cbn [mbind result_bind bind].
    cbn [length Nat.eqb negb andb]. rewrite Hh. cbn [mbind result_bind bind].
    rewrite filter_cons_True
      by (unfold script_is; rewrite Hs; now apply bool_decide_pack).
    assert (Esub : sub64 v (Amount u) = v - Amount u)
      by (unfold sub64; apply int64_id; lia).
    rewrite Esub.
    assert (Hio : input_of (NewTxIn (mkOutPoint h (Vout u)) []) u)
      by (exists h; auto).
    destruct (Z.leb_spec (v - Amount u) (- MaxZCashFee)) as [Hbrk|Hgo].
    + exists [u], (filter (fun v0 => script_is s v0) rest),
        [NewTxIn (mkOutPoint h (Vout u)) []], (tx_select L W t s u h).
      assert (E1 : input_total [u] = Amount u)
        by (unfold input_total; simpl; lia).
      rewrite E1. split; [reflexivity|]. split; [reflexivity|].
      split; [reflexivity|]. split; [reflexivity|].
      split; [repeat constructor; exact Hio|]. split; [lia|].
      intros p q Ep Hq. destruct p as [|p0 p].
      * change (input_total []) with 0. lia.
      * inversion Ep as [[E0 Er]]. symmetry in Er.
        apply app_eq_nil in Er as [_ Er]. contradiction.
    + destruct (fund_loop_select s rest Hsne (tx_select L W t s u h)
                  (v - Amount u))
        as (sel & rst & ins & t' & Hrun & Hfl & Hrv & Hins & HF2 & Hr & Hmin);
        auto; try lia.
      exists (u :: sel), rst, (NewTxIn (mkOutPoint h (Vout u)) [] :: ins), t'.
      assert (E1 : input_total (u :: sel) = Amount u + input_total sel)
        by reflexivity.
      rewrite E1.
      replace (v - (Amount u + input_total sel))
        with (v - Amount u - input_total sel) by lia.
      split; [exact Hrun|].
      split; [rewrite Hfl; reflexivity|].
      split; [rewrite Hrv; cbn [tx_select receiveValues];
              rewrite <- app_assoc; reflexivity|].
      split; [rewrite Hins; cbn [tx_select tx_msgTx AddTxIn TxIns];
              rewrite <- app_assoc; reflexivity|].
      split; [constructor; assumption|]. split; [exact Hr|].
      intros p q Ep Hq. destruct p as [|p0 p].
      * change (input_total []) with 0. lia.
      * inversion Ep as [[E0 Er]]. subst p0.
        assert (E2 : input_total (u :: p) = Amount u + input_total p)
          by reflexivity.
        rewrite E2. specialize (Hmin p q Er Hq). lia.
Qed.

(** [fund] with a stable view of well-formed UTXOs whose canonical ones
    cover the declared outputs plus the fee: what it selects and the change
    it appends. *)
Lemma fund_select (t : tx L W) (addr : Address L)
        (utxos : list UTXO) (script : bytes) (w : W) (tr : list Event) :
  GetUTXOs (account_client L W (tx_account L W t)) (EncodeAddress L addr)
           999999 0 w = (Ok utxos, w) ->
  PayToAddrScript L addr = Ok script ->
  scriptPublicKey L W t = [] ->
  Forall wellformed utxos ->
  input_total utxos < 2 ^ 63 ->
  Forall (fun o => 600 <= Value o) (TxOuts (tx_msgTx L W t)) ->
  output_total (tx_msgTx L W t) + 10000 <= input_total (canonical_utxos utxos) ->
  exists sel rest ins t',
    fund L W t (Some addr) (w, tr) = (Ok t', (w, tr))
    /\ canonical_utxos utxos = sel ++ rest
    /\ receiveValues L W t' = receiveValues L W t ++ map Amount sel
    /\ TxIns (tx_msgTx L W t') = TxIns (tx_msgTx L W t) ++ ins
    /\ Forall2 input_of ins sel
    /\ TxOuts (tx_msgTx L W t')
       = TxOuts (tx_msgTx L W t)
           ++ [mkTxOut (input_total sel - output_total (tx_msgTx L W t)) script]
    /\ output_total (tx_msgTx L W t) + 10000 <= input_total sel
    /\ (forall p q, sel = p ++ q -> q <> [] ->
                    input_total p < output_total (tx_msgTx L W t) + 10000).
Proof.
  intros HG Hpay Hspk HF Hsum Hout Hreq.
  pose proof (input_total_nonneg utxos HF) as Hn.
  assert (Hon : 0 <= output_total (tx_msgTx L W t)).
  { unfold output_total. clear -Hout.
    induction Hout; simpl; lia. }
  assert (Hcan : 0 <= input_total (canonical_utxos utxos) <= input_total utxos).
  { unfold canonical_utxos. destruct utxos as [|u rest];
      [change (input_total []) with 0; lia|].
    destruct (DecodeString (ScriptPubKey u));
      [now apply input_total_filter
      | change (input_total []) with 0; lia ..]. }
  unfold fund, Balance, liftW, liftR, mbind, IO_bind, mret, IO_ret.
  cbn beta iota. cbn [fst snd].
  rewrite (fund_outputs_exact _ 0 0 Hout)
    by (fold (output_total (tx_msgTx L W t)); lia).
  fold (output_total (tx_msgTx L W t)). rewrite Z.add_0_l.
  rewrite HG. cbn beta iota. cbn [fst snd].
  rewrite (balance_exact utxos 0 HF) by lia. rewrite Z.add_0_l.
  assert (Ea : add64 (output_total (tx_msgTx L W t)) MaxZCashFee
               = output_total (tx_msgTx L W t) + 10000)
    by (unfold add64, MaxZCashFee; apply int64_id; lia).
  rewrite Ea.
  destruct (Z.gtb_spec (output_total (tx_msgTx L W t) + 10000)
                       (input_total utxos)) as [Hins|Hsuf]; [lia|].
  cbn [fst snd]. rewrite HG. cbn beta iota. cbn [fst snd].
  destruct (fund_loop_fresh L W utxos t (output_total (tx_msgTx L W t)))
    as (t1 & v1 & Hrun1 & Ho & _ & Hb & _); auto; try lia.
  destruct (fund_loop_select_fresh utxos t (output_total (tx_msgTx L W t)))
    as (sel & rest & ins & t' & Hrun & Hfl & Hrv & Hins & HF2 & Hr & Hmin);
    auto; try (unfold MaxZCashFee; lia).
  rewrite Hrun in Hrun1. inversion Hrun1; subst t1 v1. clear Hrun1.
  rewrite Hrun. cbn beta iota.
  unfold MaxZCashFee in Hr, Hmin.
  assert (Hcov : output_total (tx_msgTx L W t) - input_total sel <= - 10000).
  { destruct (Z_le_gt_dec (output_total (tx_msgTx L W t) - input_total sel)
                          (- 10000)) as [|Hgt]; [assumption|].
    assert (Hrest : rest = []) by (apply Hr; lia).
    rewrite Hrest, app_nil_r in Hfl. rewrite Hfl in Hreq. lia. }
  destruct (Z.leb_spec (output_total (tx_msgTx L W t) - input_total sel)
                       (- MaxZCashFee)); [|unfold MaxZCashFee in *; lia].
  rewrite Hpay. cbn beta iota.
  eexists sel, rest, ins, _. split; [reflexivity|].
  cbn [tx_msgTx AddTxOut TxOuts TxIns receiveValues].
  split; [exact Hfl|]. split; [exact Hrv|]. split; [exact Hins|].
  split; [exact HF2|]. split.
  { rewrite Ho. unfold neg64. rewrite int64_id by lia.
    do 3 f_equal. lia. }
  split; [lia|].
  intros p q Ep Hq. specialize (Hmin p q Ep Hq). lia.
Qed.

(** X10: [fund] on a fresh transaction, with a stable view of well-formed
    UTXOs whose canonical ones cover the declared outputs plus 10_000:
    the UTXOs it spends are the shortest prefix of the canonical UTXOs (those
    with the script of the first one, in the order reported) whose total
    reaches outputs + 10_000; it records one amount per input, and the
    change output it appends returns the whole difference between the
    inputs and the declared outputs to the source address, so that the
    recorded amounts and the outputs have the same total: no fee is left
    at this point. *)
Theorem fund_takes_shortest_covering_prefix (t : tx L W) (addr : Address L)
        (utxos : list UTXO) (script : bytes) (w : W) (tr : list Event) :
  GetUTXOs (account_client L W (tx_account L W t)) (EncodeAddress L addr)
           999999 0 w = (Ok utxos, w) ->
  PayToAddrScript L addr = Ok script ->
  scriptPublicKey L W t = [] ->
  receiveValues L W t = [] ->
  TxIns (tx_msgTx L W t) = [] ->
  Forall wellformed utxos ->
  input_total utxos < 2 ^ 63 ->
  Forall (fun o => 600 <= Value o) (TxOuts (tx_msgTx L W t)) ->
  output_total (tx_msgTx L W t) + 10000 <= input_total (canonical_utxos utxos) ->
  exists sel rest t',
    fund L W t (Some addr) (w, tr) = (Ok t', (w, tr))
    /\ canonical_utxos utxos = sel ++ rest
    /\ receiveValues L W t' = map Amount sel
    /\ Forall2 input_of (TxIns (tx_msgTx L W t')) sel
    /\ TxOuts (tx_msgTx L W t')
       = TxOuts (tx_msgTx L W t)
           ++ [mkTxOut (input_total sel - output_total (tx_msgTx L W t)) script]
    /\ total (receiveValues L W t') = output_total (tx_msgTx L W t')
    /\ output_total (tx_msgTx L W t) + 10000 <= input_total sel
    /\ (forall p q, sel = p ++ q -> q <> [] ->
                    input_total p < output_total (tx_msgTx L W t) + 10000).
Proof.
  intros HG Hpay Hspk Hrv0 Hin0 HF Hsum Hout Hreq.
  destruct (fund_select t addr utxos script w tr HG Hpay Hspk HF Hsum Hout Hreq)
    as (sel & rest & ins & t' & Hfund & Hfl & Hrv & Hins & HF2 & Ho & Hcov & Hmin).
  rewrite Hrv0 in Hrv. rewrite Hin0 in Hins. simpl in Hrv, Hins.
  exists sel, rest, t'. split; [exact Hfund|]. split; [exact Hfl|].
  split; [exact Hrv|]. split; [rewrite Hins; exact HF2|].
  split; [exact Ho|]. split; [|split; [exact Hcov | exact Hmin]].
  rewrite Hrv. unfold output_total at 1. rewrite Ho, map_app, total_app.
  fold (output_total (tx_msgTx L W t)). fold (input_total sel).
  simpl. lia.
Qed.

(** The loop of [fundAll] once the canonical script [c] is set. *)
Lemma fundAll_loop_select (c : bytes) (utxos : list UTXO) :
  c <> [] ->
  forall (t : tx L W),
    scriptPublicKey L W t = c ->
    Forall wellformed utxos ->
    exists ins t',
      fundAll_loop L W utxos t = Ok t'
      /\ receiveValues L W t'
         = receiveValues L W t
             ++ map Amount (filter (fun u => script_is c u) utxos)
      /\ TxIns (tx_msgTx L W t') = TxIns (tx_msgTx L W t) ++ ins
      /\ Forall2 input_of ins (filter (fun u => script_is c u) utxos).
Proof.
  intros Hc. induction utxos as [|u rest IH]; intros t Hspk HF.
  - exists [], t. rewrite !app_nil_r. repeat split. constructor.
  - inversion HF as [|? ? Hu HF']; subst.
    destruct Hu as ((s & Hs & Hsne) & (h & Hh) & Ha).
    cbn [fundAll_loop]. rewrite Hs. cbn [mbind result_bind bind].
    destruct (length (scriptPublicKey L W t) =? 0)%nat eqn:El.
    { apply Nat.eqb_eq in El.
      destruct (scriptPublicKey L W t); [congruence | discriminate]. }
    cbn [negb andb].
    assert (Hsi : script_is (scriptPublicKey L W t) u
                  = bool_decide (s = scriptPublicKey L W t))
      by (unfold script_is; now rewrite Hs).
    destruct (decide (scriptPublicKey L W t = s)) as [E|NE].
    + rewrite bool_decide_eq_true_2 by exact E. cbn [negb].
      rewrite Hh. cbn [mbind result_bind bind].
      rewrite filter_cons_True
        by (rewrite Hsi; apply bool_decide_pack; auto).
      destruct (IH (tx_select L W t (scriptPublicKey L W t) u h))
        as (ins & t' & Hrun & Hrv & Hins & HF2); auto.
      exists (NewTxIn (mkOutPoint h (Vout u)) [] :: ins), t'.
      split; [exact Hrun|]. cbn [tx_select scriptPublicKey] in Hrv, HF2.
      split; [rewrite Hrv; cbn [tx_select receiveValues map];
              rewrite <- app_assoc; reflexivity|].
      split; [rewrite Hins; cbn [tx_select tx_msgTx AddTxIn TxIns];
              rewrite <- app_assoc; reflexivity|].
      constructor; [exists h; auto | exact HF2].
    + rewrite bool_decide_eq_false_2 by exact NE. cbn [negb].
      rewrite filter_cons_False
        by (rewrite Hsi; intros Hp; apply bool_decide_unpack in Hp; auto).
      apply IH; auto.
Qed.

(** X11: [fundAll] on a fresh transaction asks the indexer for at most 1000
    UTXOs of the address at zero confirmations and, when they are
    well-formed, spends every one that carries the script of the first, in
    the order reported, recording one amount per input; UTXOs with another
    script are left out without an error, and no output is added. *)
Theorem fundAll_spends_canonical_utxos (t : tx L W) (addr : Address L)
        (utxos : list UTXO) (w w' : W) (tr : list Event) :
  GetUTXOs (account_client L W (tx_account L W t)) (EncodeAddress L addr)
           1000 0 w = (Ok utxos, w') ->
  scriptPublicKey L W t = [] ->
  Forall wellformed utxos ->
  exists ins t',
    fundAll L W t addr (w, tr) = (Ok t', (w', tr))
    /\ receiveValues L W t'
       = receiveValues L W t ++ map Amount (canonical_utxos utxos)
    /\ TxIns (tx_msgTx L W t') = TxIns (tx_msgTx L W t) ++ ins
    /\ Forall2 input_of ins (canonical_utxos utxos)
    /\ TxOuts (tx_msgTx L W t') = TxOuts (tx_msgTx L W t).
Proof.
  intros HG Hspk HF.
  assert (Hloop : exists ins t',
             fundAll_loop L W utxos t = Ok t'
             /\ receiveValues L W t'
                = receiveValues L W t ++ map Amount (canonical_utxos utxos)
             /\ TxIns (tx_msgTx L W t') = TxIns (tx_msgTx L W t) ++ ins
             /\ Forall2 input_of ins (canonical_utxos utxos)).
  { destruct utxos as [|u rest].
    - exists [], t. simpl. rewrite !app_nil_r. repeat split. constructor.
    - inversion HF as [|? ? Hu HF']; subst.
      destruct Hu as ((s & Hs & Hsne) & (h & Hh) & Ha).
      unfold canonical_utxos. rewrite Hs.
      cbn [fundAll_loop]. rewrite Hs, Hspk. cbn [mbind result_bind bind].
      cbn [length Nat.eqb negb andb]. rewrite Hh.
      cbn [mbind result_bind bind].
      rewrite filter_cons_True
        by (unfold script_is; rewrite Hs; now apply bool_decide_pack).
      destruct (fundAll_loop_select s rest Hsne (tx_select L W t s u h))
        as (ins & t' & Hrun & Hrv & Hins & HF2); auto.
      exists (NewTxIn (mkOutPoint h (Vout u)) [] :: ins), t'.
      split; [exact Hrun|].
      split; [rewrite Hrv; cbn [tx_select receiveValues map];
              rewrite <- app_assoc; reflexivity|].
      split; [rewrite Hins; cbn [tx_select tx_msgTx AddTxIn TxIns];
              rewrite <- app_assoc; reflexivity|].
      constructor; [exists h; auto | exact HF2]. }
  destruct Hloop as (ins & t' & Hrun & Hrv & Hins & HF2).
  exists ins, t'.
  unfold fundAll, liftW, liftR, mbind, IO_bind. cbn [fst snd].
  rewrite HG. cbn beta iota. rewrite Hrun.
  split; [reflexivity|]. split; [exact Hrv|]. split; [exact Hins|].
  split; [exact HF2|]. now apply fundAll_loop_outputs in Hrun.
Qed.

Lemma setTxIns_setTxIns (m : MsgTx) (l1 l2 : list TxIn) :
  setTxIns (setTxIns m l1) l2 = setTxIns m l2.
Proof. reflexivity. Qed.

(** The loop of [sign]: the inputs [i .. i + count - 1] are updated and
    given their scripts, nothing else changes.  The signature of input [j]
    is the one the signer returns for the transaction as it stands when
    input [j] is reached. *)
Lemma sign_loop_spec (f : option (ScriptBuilder L -> ScriptBuilder L))
      (updateTxIn : option (TxIn -> TxIn)) (c : option bytes)
      (subScript pk : bytes) (count : nat) :
  forall (i : nat) (t t' : tx L W),
    sign_loop L W count i f updateTxIn c subScript pk t = Ok t' ->
    receiveValues L W t' = receiveValues L W t
    /\ TxOuts (tx_msgTx L W t') = TxOuts (tx_msgTx L W t)
    /\ length (TxIns (tx_msgTx L W t')) = length (TxIns (tx_msgTx L W t))
    /\ (forall j, (j < i \/ i + count <= j)%nat ->
                  TxIns (tx_msgTx L W t') !! j = TxIns (tx_msgTx L W t) !! j)
    /\ (forall j, (i <= j < i + count)%nat ->
                  exists ti amt sig s,
                    TxIns (tx_msgTx L W t) !! j = Some ti
                    /\ receiveValues L W t !! j = Some amt
                    /\ RawTxInSignature L
                         (sign_view (tx_msgTx L W t)
                                    (TxIns (tx_msgTx L W t')) j
                                    (default id updateTxIn ti))
                         (Z.of_nat j) subScript SigHashAll
                         (PrivKey L W (tx_account L W t)) amt = Ok sig
                    /\ Script L (sign_builder L f c pk sig) = Ok s
                    /\ TxIns (tx_msgTx L W t') !! j
                       = Some (with_script s (default id updateTxIn ti))).
Proof.
  induction count as [|count IH]; intros i t t' H.
  - simpl in H. inversion H; subst. repeat split; auto. intros j Hj. lia.
  - cbn [sign_loop] in H.
    apply bind_Ok_inv in H as (ti & Hti & H).
    apply index_Ok in Hti as [_ Hti]. rewrite Nat2Z.id in Hti.
    apply bind_Ok_inv in H as (amt & Hamt & H).
    apply index_Ok in Hamt as [_ Hamt]. rewrite Nat2Z.id in Hamt.
    apply bind_Ok_inv in H as (sig & Hsig & H).
    apply bind_Ok_inv in H as (s & Hs & H).
    apply IH in H as (Hrv & Ho & Hl & Hout & Hin).
    cbn [receiveValues tx_msgTx tx_account setTxIns TxIns TxOuts]
      in Hrv, Ho, Hl, Hout, Hin.
    rewrite !length_insert in Hl.
    pose proof (lookup_lt_Some _ _ _ Hti) as Hlt.
    assert (Hupd : match updateTxIn with Some u => u ti | None => ti end
                   = default id updateTxIn ti)
      by (destruct updateTxIn; reflexivity).
    rewrite Hupd in *.
    split; [exact Hrv|]. split; [exact Ho|]. split; [exact Hl|]. split.
    + intros j Hj. rewrite Hout by lia.
      rewrite !list_lookup_insert_ne by lia. reflexivity.
    + intros j Hj. destruct (decide (j = i)) as [->|Hne].
      * exists ti, amt, sig, s. split; [exact Hti|]. split; [exact Hamt|].
        split; [|split; [exact Hs|]].
        -- assert (Ev : sign_view (tx_msgTx L W t) (TxIns (tx_msgTx L W t')) i
                                   (default id updateTxIn ti)
                        = setTxIns (tx_msgTx L W t)
                            (<[i := default id updateTxIn ti]>
                               (TxIns (tx_msgTx L W t)))).
           { unfold sign_view. f_equal.
             rewrite insert_take_drop by exact Hlt. f_equal.
             apply list_eq. intros k.
             destruct (decide (k < i)%nat) as [Hk|Hk].
             - rewrite !lookup_take_lt by exact Hk.
               rewrite Hout by lia.
               rewrite !list_lookup_insert_ne by lia. reflexivity.
             - rewrite !lookup_take_ge by lia. reflexivity. }
           rewrite Ev. exact Hsig.
        -- rewrite Hout by lia.
           rewrite list_lookup_insert_eq by (rewrite length_insert; lia).
           reflexivity.
      * destruct (Hin j) as (tj & aj & sj & scj & Htj & Haj & Hsj & Hscj & Hj');
          [lia|].
        rewrite !list_lookup_insert_ne in Htj by lia.
        exists tj, aj, sj, scj. split; [exact Htj|]. split; [exact Haj|].
        split; [|split; [exact Hscj | exact Hj']].
        unfold sign_view in Hsj |- *.
        cbn [TxIns setTxIns] in Hsj.
        rewrite !drop_insert_lt in Hsj by lia.
        exact Hsj.
Qed.

(** X12: what a successful [sign] has done.  The key serialised; the
    outputs and the recorded amounts are as they were; there was an amount
    for every input; and every input is what [updateTxIn] made of it with
    the script PUSH(sig) PUSH(pubkey), then what [f] adds, then
    PUSH(contract) when there is a contract, where [sig] is what the signer
    returned for that input: for the transaction as it stood when the
    input was reached (the earlier inputs carrying their scripts), the
    index of the input, the contract or, without one, the script public
    key of the funding, SIGHASH_ALL, the key of the account and the amount
    recorded for the input. *)
Theorem sign_scripts_every_input (t t' : tx L W)
        (f : option (ScriptBuilder L -> ScriptBuilder L))
        (updateTxIn : option (TxIn -> TxIn)) (c : option bytes) :
  sign L W t f updateTxIn c = Ok t' ->
  exists pk,
    SerializedPublicKey L W (tx_account L W t) = Ok pk
    /\ receiveValues L W t' = receiveValues L W t
    /\ TxOuts (tx_msgTx L W t') = TxOuts (tx_msgTx L W t)
    /\ (length (TxIns (tx_msgTx L W t)) <= length (receiveValues L W t))%nat
    /\ length (TxIns (tx_msgTx L W t')) = length (TxIns (tx_msgTx L W t))
    /\ forall j ti,
        TxIns (tx_msgTx L W t) !! j = Some ti ->
        exists amt sig s,
          receiveValues L W t !! j = Some amt
          /\ RawTxInSignature L
               (sign_view (tx_msgTx L W t) (TxIns (tx_msgTx L W t')) j
                          (default id updateTxIn ti))
               (Z.of_nat j)
               (match c with
                | None => scriptPublicKey L W t
                | Some contract => contract
                end)
               SigHashAll (PrivKey L W (tx_account L W t)) amt = Ok sig
          /\ Script L (sign_builder L f c pk sig) = Ok s
          /\ TxIns (tx_msgTx L W t') !! j
             = Some (with_script s (default id updateTxIn ti)).
Proof.
  unfold sign. intros H.
  apply bind_Ok_inv in H as (pk & Hpk & H).
  apply sign_loop_spec in H as (Hrv & Ho & Hl & _ & Hin).
  exists pk. split; [exact Hpk|]. split; [exact Hrv|]. split; [exact Ho|].
  split; [|split; [exact Hl|]].
  - destruct (TxIns (tx_msgTx L W t)) as [|ti0 rest] eqn:E; [simpl; lia|].
    destruct (Hin (length rest)) as (ti & amt & _ & _ & _ & Hamt & _);
      [simpl; lia|].
    apply lookup_lt_Some in Hamt. simpl. lia.
  - intros j ti Hti.
    destruct (Hin j) as (tj & amt & sig & s & Htj & Hamt & Hsig & Hs & Hj).
    { apply lookup_lt_Some in Hti. lia. }
    rewrite Hti in Htj. inversion Htj; subst tj.
    exists amt, sig, s. auto.
Qed.
End AccountExtras.

(** ** The orchestrator and [Transfer] *)

Section OrchestratorExtras.
Variable L : Lib.
Variable W : Type.
Variable Sleep : Z -> W -> W.

(** X13: a context that is already done does not stop the preparation: the
    transaction is built, funded and signed as usual; the loop then sees
    the context at its first iteration and the call returns
    [ErrPostConditionCheckFailed], not the context's error, without
    publishing anything. *)
Theorem SendTransaction_cancelled_context (fuel : nat) (a : account L W)
        (ctxDone : W -> bool) (contract : option bytes) (speed : Z)
        (updateTxIn : option (TxIn -> TxIn)) (preCond : option (Callback W))
        (f : option (ScriptBuilder L -> ScriptBuilder L))
        (postCond : option (Callback W)) (sendAll : bool)
        (s s1 : W * list Event) (t : tx L W) (txFee : Z) :
  SendTransaction_prepare L W a contract updateTxIn preCond f sendAll s
  = (Ok (t, txFee), s1) ->
  ctxDone (fst s1) = true ->
  SendTransaction L W Sleep (S fuel) a ctxDone contract speed updateTxIn
                  preCond f postCond sendAll s
  = (Some (Err ErrPostConditionCheckFailed),
     (fst s1, snd s ++ [EvCtxDone true])).
Proof.
  intros Hp Hd.
  pose proof (keeps_trace_prepare L W a contract updateTxIn preCond f sendAll s)
    as Hk.
  unfold SendTransaction. rewrite Hp in Hk |- *. cbn [snd] in Hk.
  cbn [submit_loop]. cbn [fst snd]. rewrite Hd, Hk. reflexivity.
Qed.

(** X14: without a post-condition [SendTransaction] returns within the
    first round: it never polls and never sleeps, it publishes at most
    once, and it returns (txid, 10_000) exactly when the publication
    succeeded. *)
Theorem SendTransaction_without_postCond (a : account L W)
        (ctxDone : W -> bool) (contract : option bytes) (speed : Z)
        (updateTxIn : option (TxIn -> TxIn)) (preCond : option (Callback W))
        (f : option (ScriptBuilder L -> ScriptBuilder L)) (sendAll : bool)
        (s : W * list Event) :
  exists r s' new,
    SendTransaction L W Sleep 1 a ctxDone contract speed updateTxIn preCond f
                    None sendAll s = (Some r, s')
    /\ snd s' = snd s ++ new
    /\ ((new = [] /\ forall v, r <> Ok v)
        \/ (new = [EvCtxDone true] /\ r = Err ErrPostConditionCheckFailed)
        \/ (new = [EvCtxDone false] /\ forall v, r <> Ok v)
        \/ exists stx,
            (new = [EvCtxDone false; EvPublish stx false]
             /\ forall v, r <> Ok v)
            \/ (new = [EvCtxDone false; EvPublish stx true]
                /\ exists txid, r = Ok (txid, MaxZCashFee))).
Proof.
  pose proof (keeps_trace_prepare L W a contract updateTxIn preCond f sendAll s)
    as Hk.
  unfold SendTransaction.
  destruct (SendTransaction_prepare L W a contract updateTxIn preCond f
                                    sendAll s) as [[[t fee0] | e |] s1] eqn:Ep;
    cbn [snd] in Hk.
  - pose proof (prepare_fee L W a contract updateTxIn preCond f sendAll
                            s s1 t fee0 Ep) as ->.
    cbn [submit_loop]. cbn [fst snd].
    destruct (ctxDone (fst s1)).
    { eexists _, _, [EvCtxDone true]. split; [reflexivity|].
      split; [cbn [snd]; now rewrite Hk|]. right. left. auto. }
    destruct (submit L W t (fst s1, snd s1 ++ [EvCtxDone false]))
      as [rs s2] eqn:Es.
    pose proof Es as Hs.
    apply submit_spec in Hs as [[Htr Hno] | [stx Htr]]; cbn [fst snd] in Htr.
    + destruct rs as [[] | e |]; [now elim (Hno ()) | |];
        (eexists _, _, [EvCtxDone false]; split; [reflexivity|];
         split; [now rewrite Htr, Hk|];
         right; right; left; split; [reflexivity | discriminate]).
    + destruct rs as [[] | e |].
      * cbn [postCond_loop].
        eexists _, _, [EvCtxDone false; EvPublish stx true].
        split; [reflexivity|].
        split; [rewrite Htr, Hk, <- app_assoc; reflexivity|].
        right; right; right. exists stx. right. eauto.
      * eexists _, _, [EvCtxDone false; EvPublish stx false].
        split; [reflexivity|].
        split; [rewrite Htr, Hk, <- app_assoc; reflexivity|].
        right; right; right. exists stx. left.
        split; [reflexivity | discriminate].
      * eexists _, _, [EvCtxDone false; EvPublish stx false].
        split; [reflexivity|].
        split; [rewrite Htr, Hk, <- app_assoc; reflexivity|].
        right; right; right. exists stx. left.
        split; [reflexivity | discriminate].
  - eexists _, _, []. split; [reflexivity|].
    split; [now rewrite Hk, app_nil_r|]. left. split; [reflexivity | discriminate].
  - eexists _, _, []. split; [reflexivity|].
    split; [now rewrite Hk, app_nil_r|]. left. split; [reflexivity | discriminate].
Qed.

(** X15: the pre-condition runs first, on the empty version-4 transaction:
    when it returns false the call ends with [ErrPreConditionCheckFailed]
    in the world the pre-condition left, before any address is derived,
    any UTXO fetched or anything published. *)
Theorem SendTransaction_preCond_refuses (fuel : nat) (a : account L W)
        (ctxDone : W -> bool) (contract : option bytes) (speed : Z)
        (updateTxIn : option (TxIn -> TxIn)) (pc : Callback W)
        (f : option (ScriptBuilder L -> ScriptBuilder L))
        (postCond : option (Callback W)) (sendAll : bool)
        (s : W * list Event) (m : MsgTx) (w' : W) :
  pc (mkMsgTx 4 [] [] 0 ZCashExpiryHeight) (fst s) = (false, m, w') ->
  SendTransaction L W Sleep fuel a ctxDone contract speed updateTxIn
                  (Some pc) f postCond sendAll s
  = (Some (Err ErrPreConditionCheckFailed), (w', snd s)).
Proof.
  intros Hpc.
  unfold SendTransaction, SendTransaction_prepare, check_preCond,
    mbind, IO_bind.
  cbn [newTx NewMsgTx tx_msgTx Version TxIns TxOuts LockTime].
  rewrite Hpc. reflexivity.
Qed.

(** X16: [Transfer] to a string that does not decode as an address
    returns an error and publishes nothing.  Without [sendAll] it is the
    decoding error, returned before the indexer is asked for anything;
    with [sendAll] the balance has been fetched by then. *)
Theorem Transfer_undecodable_destination (fuel : nat) (a : account L W)
        (ctxDone : W -> bool) (to : string) (value speed : Z)
        (sendAll : bool) (s : W * list Event) (e : error) :
  DecodeAddress L to (NetworkParams (account_client L W a)) = Err e ->
  exists r s',
    Transfer L W Sleep fuel a ctxDone to value speed sendAll s = (Some r, s')
    /\ (forall v, r <> Ok v)
    /\ snd s' = snd s
    /\ (sendAll = false -> r = Err e /\ s' = s).
Proof.
  intros Hd. unfold Transfer, Transfer_value. destruct sendAll.
  - assert (Hk : keeps_trace
                   (me ← liftR (account_Address L W a);
                    Balance L W (account_client L W a) (EncodeAddress L me) 0)).
    { apply keeps_trace_bind; [apply keeps_trace_liftR|]. intros me.
      unfold Balance. apply keeps_trace_bind; [apply keeps_trace_liftW|].
      intros u. apply keeps_trace_ret. }
    specialize (Hk s).
    destruct ((me ← liftR (account_Address L W a);
               Balance L W (account_client L W a) (EncodeAddress L me) 0) s)
      as [[balance | e0 |] s1]; cbn [snd] in Hk.
    + rewrite Hd. eexists _, _. split; [reflexivity|].
      split; [discriminate|]. split; [exact Hk | discriminate].
    + eexists _, _. split; [reflexivity|].
      split; [discriminate|]. split; [exact Hk | discriminate].
    + eexists _, _. split; [reflexivity|].
      split; [discriminate|]. split; [exact Hk | discriminate].
  - cbn. rewrite Hd. eexists _, _. split; [reflexivity|].
    split; [discriminate|]. auto.
Qed.

(** X17: [Transfer] of less than 600 zatoshi (without [sendAll]) to a
    payable address is refused with [ErrDustOutput] for output 0, before
    the indexer is asked for anything. *)
Theorem Transfer_below_dust (fuel : nat) (a : account L W)
        (ctxDone : W -> bool) (to : string) (value speed : Z)
        (s : W * list Event) (address me : Address L) (script : bytes) :
  DecodeAddress L to (NetworkParams (account_client L W a)) = Ok address ->
  PayToAddrScript L address = Ok script ->
  account_Address L W a = Ok me ->
  value < 600 ->
  Transfer L W Sleep fuel a ctxDone to value speed false s
  = (Some (Err (ErrDustOutput 0 value)), s).
Proof.
  intros Hd Hp Hme Hv. destruct s as [w tr].
  unfold Transfer, Transfer_value. cbn. rewrite Hd.
  unfold SendTransaction, SendTransaction_prepare, check_preCond,
    Transfer_preCond, liftR, mbind, IO_bind, mret, IO_ret.
  cbn [fst snd]. rewrite Hp. cbn beta iota. rewrite Hme. cbn beta iota.
  unfold fund, liftR, mbind, IO_bind, mret, IO_ret. cbn beta iota.
  cbn [newTx NewMsgTx AddTxOut tx_msgTx TxOuts app fund_outputs Value].
  destruct (Z.ltb_spec value 600); [reflexivity | lia].
Qed.

(** X18: [Transfer] (without [sendAll]) to an address that decodes but has
    no pay-to-address script: the error of [PayToAddrScript] is dropped, the
    call returns [ErrPreConditionCheckFailed] and touches nothing. *)
Theorem Transfer_unpayable_destination (fuel : nat) (a : account L W)
        (ctxDone : W -> bool) (to : string) (value speed : Z)
        (s : W * list Event) (address : Address L) :
  DecodeAddress L to (NetworkParams (account_client L W a)) = Ok address ->
  is_Ok (PayToAddrScript L address) = false ->
  Transfer L W Sleep fuel a ctxDone to value speed false s
  = (Some (Err ErrPreConditionCheckFailed), s).
Proof.
  intros Hd Hp. destruct s as [w tr].
  unfold Transfer, Transfer_value. cbn. rewrite Hd.
  unfold SendTransaction, SendTransaction_prepare, check_preCond,
    Transfer_preCond, mbind, IO_bind.
  cbn [fst snd].
  destruct (PayToAddrScript L address); [discriminate | reflexivity ..].
Qed.

(** The fee is taken from the last output. *)
Lemma debit_last_output_last (m : MsgTx) (txFee : Z) (pre : list TxOut)
      (o : TxOut) :
  TxOuts m = pre ++ [o] ->
  debit_last_output m txFee
  = Ok (setTxOuts m (pre ++ [mkTxOut (sub64 (Value o) txFee) (PkScript o)])).
Proof.
  intros H. unfold debit_last_output. rewrite H, length_app. cbn [length].
  replace (Z.of_nat (length pre + 1) - 1) with (Z.of_nat (length pre)) by lia.
  unfold index. destruct (Z.ltb_spec (Z.of_nat (length pre)) 0); [lia|].
  rewrite Nat2Z.id, lookup_app_r, Nat.sub_diag by lia.
  cbn [lookup list_lookup mbind result_bind bind Value PkScript].
  rewrite insert_app_r_alt, Nat.sub_diag by lia. reflexivity.
Qed.

(** What [sign] leaves alone. *)
Lemma sign_Ok_inv (t t' : tx L W)
      (f : option (ScriptBuilder L -> ScriptBuilder L))
      (updateTxIn : option (TxIn -> TxIn)) (c : option bytes) :
  sign L W t f updateTxIn c = Ok t' ->
  receiveValues L W t' = receiveValues L W t
  /\ TxOuts (tx_msgTx L W t') = TxOuts (tx_msgTx L W t)
  /\ Forall2 (fun ti ti' =>
                exists s, ti' = with_script s (default id updateTxIn ti))
             (TxIns (tx_msgTx L W t)) (TxIns (tx_msgTx L W t')).
Proof.
  unfold sign. intros H.
  apply bind_Ok_inv in H as (pk & Hpk & H).
  apply sign_loop_spec in H as (Hrv & Ho & Hl & _ & Hin).
  split; [exact Hrv|]. split; [exact Ho|].
  apply Forall2_same_length_lookup_2; [now symmetry|].
  intros j ti ti' Hti Hti'.
  destruct (Hin j) as (tj & amt & sig & sc & Htj & _ & _ & Hs & Hj).
  { apply lookup_lt_Some in Hti. lia. }
  rewrite Hti in Htj. inversion Htj; subst tj.
  rewrite Hti' in Hj. inversion Hj; subst ti'. eauto.
Qed.

(** X19: [Transfer] with [sendAll] ignores the amount it is given: it sends
    the balance of the account's address, the total of the UTXOs reported
    at zero confirmations.  The transaction it prepares has one output,
    paying that balance less 10_000 to the destination, whatever inputs
    the funding has selected; the balance is not compared with the fee. *)
Theorem Transfer_sendAll_pays_balance_less_fee (fuel : nat) (a : account L W)
        (ctxDone : W -> bool) (to : string) (value speed : Z)
        (w w1 : W) (tr : list Event) (me address : Address L)
        (utxos : list UTXO) :
  account_Address L W a = Ok me ->
  GetUTXOs (account_client L W a) (EncodeAddress L me) 999999 0 w
  = (Ok utxos, w1) ->
  Forall wellformed utxos ->
  input_total utxos < 2 ^ 63 ->
  DecodeAddress L to (NetworkParams (account_client L W a)) = Ok address ->
  Transfer L W Sleep fuel a ctxDone to value speed true (w, tr)
  = SendTransaction L W Sleep fuel a ctxDone None speed None
      (Some (Transfer_preCond L W address (input_total utxos))) None None
      true (w1, tr)
  /\ forall t txFee s2,
      SendTransaction_prepare L W a None None
        (Some (Transfer_preCond L W address (input_total utxos))) None true
        (w1, tr) = (Ok (t, txFee), s2) ->
      exists script,
        PayToAddrScript L address = Ok script
        /\ TxOuts (tx_msgTx L W t)
           = [mkTxOut (input_total utxos - 10000) script]
        /\ txFee = 10000.
Proof.
  intros Hme HG HF Hsum Hd.
  pose proof (input_total_nonneg utxos HF) as Hn.
  split.
  - unfold Transfer, Transfer_value, Balance, liftW, liftR, mbind, IO_bind,
      mret, IO_ret.
    rewrite Hme. cbn beta iota. cbn [fst snd]. rewrite HG. cbn beta iota.
    rewrite (balance_exact utxos 0 HF) by lia. rewrite Z.add_0_l.
    rewrite Hd. reflexivity.
  - intros t txFee s2 H.
    unfold SendTransaction_prepare, check_preCond, Transfer_preCond,
      liftR, mbind, IO_bind, mret, IO_ret in H.
    cbn [fst snd] in H.
    destruct (PayToAddrScript L address) as [script | e |];
      try discriminate.
    cbn beta iota in H. rewrite Hme in H. cbn beta iota in H.
    match type of H with
    | context [fundAll L W ?t1 me ?s1] =>
        destruct (fundAll L W t1 me s1) as [[t2 | e |] s3] eqn:Ef;
          try discriminate
    end.
    apply fundAll_outputs in Ef.
    cbn [tx_msgTx newTx NewMsgTx AddTxOut TxOuts app] in Ef.
    rewrite (debit_last_output_last _ _ [] _ Ef) in H. cbn beta iota in H.
    match type of H with
    | context [sign L W ?t3 None None None] =>
        destruct (sign L W t3 None None None) as [t4 | e |] eqn:Es;
          try discriminate
    end.
    apply sign_Ok_inv in Es as (_ & Ho & _).
    cbn [tx_msgTx setTxOuts TxOuts] in Ho.
    inversion H; subst. exists script. split; [reflexivity|].
    split; [|reflexivity].
    rewrite Ho. cbn [app Value PkScript]. do 2 f_equal.
    unfold sub64, MaxZCashFee. apply int64_id. lia.
Qed.

(** X20: the transaction [Transfer] prepares without [sendAll], for an
    amount of at least 600 that the canonical UTXOs cover together with the
    fee.  It spends the shortest covering prefix of the canonical UTXOs, one
    recorded amount and one input per UTXO; it pays [value] to the
    destination and returns the rest less the fee to the sender, so that
    inputs less outputs is exactly the 10_000 it reports as the fee.  The
    change output can be anything from 0 up: it is not held to the 600
    minimum the declared outputs are held to. *)
Theorem Transfer_prepares_exact_fee (a : account L W) (value : Z)
        (w : W) (tr : list Event) (me address : Address L)
        (utxos : list UTXO) (sscript : bytes)
        (t : tx L W) (txFee : Z) (s' : W * list Event) :
  account_Address L W a = Ok me ->
  PayToAddrScript L me = Ok sscript ->
  GetUTXOs (account_client L W a) (EncodeAddress L me) 999999 0 w
  = (Ok utxos, w) ->
  Forall wellformed utxos ->
  input_total utxos < 2 ^ 63 ->
  600 <= value ->
  value + 10000 <= input_total (canonical_utxos utxos) ->
  SendTransaction_prepare L W a None None
    (Some (Transfer_preCond L W address value)) None false (w, tr)
  = (Ok (t, txFee), s') ->
  exists dscript sel rest,
    PayToAddrScript L address = Ok dscript
    /\ canonical_utxos utxos = sel ++ rest
    /\ (forall p q, sel = p ++ q -> q <> [] -> input_total p < value + 10000)
    /\ receiveValues L W t = map Amount sel
    /\ Forall2 (fun ti u => exists ti0 s, input_of ti0 u
                                         /\ ti = with_script s ti0)
               (TxIns (tx_msgTx L W t)) sel
    /\ TxOuts (tx_msgTx L W t)
       = [mkTxOut value dscript;
          mkTxOut (input_total sel - value - 10000) sscript]
    /\ 0 <= input_total sel - value - 10000
    /\ txFee = 10000
    /\ input_total sel - output_total (tx_msgTx L W t) = txFee
    /\ s' = (w, tr).
Proof.
  intros Hme Hpay HG HF Hsum Hv Hreq H.
  pose proof (input_total_nonneg utxos HF) as Hn.
  unfold SendTransaction_prepare, check_preCond, Transfer_preCond,
    liftR, mbind, IO_bind, mret, IO_ret in H.
  cbn [fst snd] in H.
  destruct (PayToAddrScript L address) as [dscript | e |]; try discriminate.
  cbn beta iota in H. rewrite Hme in H. cbn beta iota in H.
  match type of H with
  | context [fund L W ?t1 (Some me) ?s1] =>
      destruct (fund_select L W t1 me utxos sscript w tr)
        as (sel & rest & ins & t2 & Hfund & Hfl & Hrv & Hins & HF2 & Ho
            & Hcov & Hmin);
        [exact HG | exact Hpay | reflexivity | exact HF | exact Hsum
        | repeat constructor; exact Hv
        | unfold output_total; simpl; lia
        | ];
        rewrite Hfund in H
  end.
  unfold output_total in Ho, Hcov, Hmin.
  simpl in Hrv, Hins, Ho, Hcov, Hmin.
  replace (value + 0) with value in Ho, Hcov, Hmin by lia.
  cbn beta iota in H.
  rewrite (debit_last_output_last _ _ [_] _ Ho) in H. cbn beta iota in H.
  match type of H with
  | context [sign L W ?t3 None None None] =>
      destruct (sign L W t3 None None None) as [t4 | e |] eqn:Es;
        try discriminate
  end.
  apply sign_Ok_inv in Es as (Hrv4 & Ho4 & Hin4).
  cbn [tx_msgTx setTxOuts TxOuts TxIns receiveValues] in Hrv4, Ho4, Hin4.
  inversion H; subst t txFee s'. clear H.
  assert (Ech : sub64 (input_total sel - value) MaxZCashFee
                = input_total sel - value - 10000).
  { unfold sub64, MaxZCashFee. apply int64_id.
    assert (input_total sel <= input_total (canonical_utxos utxos)).
    { pose proof (canonical_utxos_wellformed utxos HF) as Hc.
      rewrite Hfl in Hc |- *. rewrite input_total_app.
      apply Forall_app in Hc as [_ Hc].
      pose proof (input_total_nonneg rest Hc). lia. }
    pose proof (input_total_canonical utxos HF). lia. }
  exists dscript, sel, rest. split; [reflexivity|]. split; [exact Hfl|].
  split; [exact Hmin|]. split; [now rewrite Hrv4|]. split.
  { rewrite Hins in Hin4. clear -Hin4 HF2.
    revert Hin4. generalize (TxIns (tx_msgTx L W t4)).
    induction HF2 as [|ti0 u ins sel Hio HF2 IH]; intros l Hl.
    - inversion Hl. constructor.
    - inversion Hl as [|? ti ? l' [s Hs] Hl']; subst.
      constructor; [exists ti0, s; auto | now apply IH]. }
  cbn [Value PkScript app] in Ho4. rewrite Ech in Ho4.
  unfold output_total. rewrite Ho4.
  split; [reflexivity|]. split; [lia|].
  split; [reflexivity|]. split; [|reflexivity].
  unfold MaxZCashFee. simpl. lia.
Qed.
End OrchestratorExtras.

(** ** The address encoder on other networks *)

(** X21: [AddressFromHash160] does not reject a network it has no
    prefixes for.  For every name but mainnet, testnet3 and regtest the
    lookup in the prefix table gives the empty prefix, and the string
    handed to the decoder is the Base58Check encoding of the bare hash. *)
Theorem AddressFromHash160_unknown_network (L : Lib) (hash : bytes)
        (params : Params) (isScript : bool) :
  Name params <> "mainnet" ->
  Name params <> "testnet3" ->
  Name params <> "regtest" ->
  AddressFromHash160 L hash params isScript
  = zecDecodeAddress L (base58check L [] hash) (Name params).
Proof.
  intros H1 H2 H3.
  assert (Hp : forall kind, prefix_of (Name params) kind = []).
  { intros kind. unfold prefix_of, prefixes.
    rewrite !lookup_insert_ne by congruence.
    rewrite lookup_singleton_ne by congruence.
    cbn [default]. rewrite lookup_empty. reflexivity. }
  unfold AddressFromHash160, DecodeAddress.
  destruct isScript; rewrite Hp, encodeHash_base58check; reflexivity.
Qed.

(** * The further properties at concrete inputs *)

Module MoreExamples.
Import TestDouble StrictDouble MoreData SignerDouble.

Lemma wellformed_utxoC : wellformed utxoC.
Proof.
  split; [|split].
  - exists [x76; xa9; x14; xaa; x88; xac]. split; [reflexivity | discriminate].
  - eexists. vm_compute. reflexivity.
  - change (0 <= 30000). lia.
Defined.

Lemma wellformed_utxoD : wellformed utxoD.
Proof.
  split; [|split].
  - exists [x76; xa9; x14; xaa; x88; xac]. split; [reflexivity | discriminate].
  - eexists. vm_compute. reflexivity.
  - change (0 <= 4000). lia.
Defined.

Lemma CalcSignatureHash_none_ignores_outputs_witness :
  CalcSignatureHash toyCrypto [] SigHashNone
                    (setTxOuts toyTx [mkTxOut 7 []]) 0 0
  = CalcSignatureHash toyCrypto [] SigHashNone toyTx 0 0.
Proof.
  apply (CalcSignatureHash_none_ignores_outputs toyCrypto [] SigHashNone toyTx
           0 0 [mkTxOut 7 []]).
  reflexivity.
Defined.

Lemma CalcSignatureHash_single_own_output_witness :
  CalcSignatureHash toyCrypto [] SigHashSingle
    (setTxOuts (setTxOuts toyTx [mkTxOut 5 []; mkTxOut 6 []])
               [mkTxOut 5 []; mkTxOut 9 [x01]]) 0 0
  = CalcSignatureHash toyCrypto [] SigHashSingle
      (setTxOuts toyTx [mkTxOut 5 []; mkTxOut 6 []]) 0 0.
Proof.
  apply (CalcSignatureHash_single_own_output toyCrypto [] SigHashSingle
           (setTxOuts toyTx [mkTxOut 5 []; mkTxOut 6 []]) 0 0
           [mkTxOut 5 []; mkTxOut 9 [x01]]).
  - reflexivity.
  - lia.
  - reflexivity.
Defined.

Lemma CalcSignatureHash_anyonecanpay_own_input_witness :
  CalcSignatureHash toyCrypto [] 0x81
    (setTxIns toyTx [NewTxIn (mkOutPoint (replicate 32 x01) 0) [];
                     NewTxIn (mkOutPoint (replicate 32 x02) 1) []]) 0 0
  = CalcSignatureHash toyCrypto [] 0x81 toyTx 0 0.
Proof.
  apply (CalcSignatureHash_anyonecanpay_own_input toyCrypto [] 0x81 toyTx
           0%nat 0
           [NewTxIn (mkOutPoint (replicate 32 x01) 0) [];
            NewTxIn (mkOutPoint (replicate 32 x02) 1) []]
           (NewTxIn (mkOutPoint (replicate 32 x01) 0) [])).
  - vm_compute. discriminate.
  - reflexivity.
  - reflexivity.
Defined.

Lemma CalcSignatureHash_negative_index_panics_witness :
  CalcSignatureHash toyCrypto [] SigHashAll toyTx (-1) 0 = Panic.
Proof.
  apply (CalcSignatureHash_negative_index_panics toyCrypto [] SigHashAll toyTx
           (-1) 0).
  lia.
Defined.

Lemma sigHashPreimage_binds_amount_witness :
  exists p p',
    sigHashPreimage toyCrypto [] SigHashAll toyTx 0 5
                    (mkTxSigHashes zeroHash zeroHash zeroHash) = Ok p
    /\ sigHashPreimage toyCrypto [] SigHashAll toyTx 0 6
                       (mkTxSigHashes zeroHash zeroHash zeroHash) = Ok p'
    /\ p <> p'.
Proof.
  destruct (Ok_of_is_Ok (sigHashPreimage toyCrypto [] SigHashAll toyTx 0 5
                           (mkTxSigHashes zeroHash zeroHash zeroHash)))
    as [p E]; [vm_compute; reflexivity|].
  destruct (Ok_of_is_Ok (sigHashPreimage toyCrypto [] SigHashAll toyTx 0 6
                           (mkTxSigHashes zeroHash zeroHash zeroHash)))
    as [p' E']; [vm_compute; reflexivity|].
  exists p, p'. split; [exact E|]. split; [exact E'|].
  apply (sigHashPreimage_binds_amount toyCrypto [] SigHashAll toyTx 0 5 6
           (mkTxSigHashes zeroHash zeroHash zeroHash) p p').
  - unfold in_int64. lia.
  - unfold in_int64. lia.
  - unfold MaxUint32. lia.
  - lia.
  - exact E.
  - exact E'.
Defined.

Lemma Build_then_InjectSigs_witness :
  exists t t',
    Build toyLib world (NewTxBuilder toyLib world toyClient) [x02] "tmDest"
          None 25000 [utxoA; utxoC] [] = Ok t
    /\ InjectSigs toyLib world t [[x05]; [x06]] = (Ok (), t')
    /\ length (TxIns (msgTx toyLib world t')) = 2%nat.
Proof.
  destruct (Ok_of_is_Ok
              (Build toyLib world (NewTxBuilder toyLib world toyClient) [x02]
                     "tmDest" None 25000 [utxoA; utxoC] []))
    as [t E]; [vm_compute; reflexivity|].
  assert (Hl : match Build toyLib world (NewTxBuilder toyLib world toyClient)
                     [x02] "tmDest" None 25000 [utxoA; utxoC] [] with
               | Ok t => length (Hashes toyLib world t)
               | _ => 0%nat
               end = 2%nat) by (vm_compute; reflexivity).
  rewrite E in Hl.
  destruct (Build_then_InjectSigs toyLib world toyClient [x02] "tmDest" None
              25000 [utxoA; utxoC] [] t
              ([[x05]; [x06]] : list (Signature toyLib)) [x02] E eq_refl)
    as (t' & Hrun & _ & _ & Hlen & _).
  - rewrite Hl. reflexivity.
  - intros k sig _. eexists. reflexivity.
  - exists t, t'. split; [exact E|]. split; [exact Hrun | exact Hlen].
Defined.

Lemma InjectSigs_surplus_signature_panics_witness :
  exists t', InjectSigs toyLib world builtTx [[x05]; [x06]] = (Panic, t').
Proof.
  destruct (InjectSigs_surplus_signature_panics toyLib world builtTx
              ([[x05]; [x06]] : list (Signature toyLib)) [x02])
    as (t' & Hrun & _).
  - reflexivity.
  - simpl. lia.
  - intros k sig _. eexists. reflexivity.
  - exists t'. exact Hrun.
Defined.

Lemma Build_insufficient_funds_witness :
  Build toyLib world (NewTxBuilder toyLib world toyClient) [x02] "tmDest"
        None 50000 [utxoA; utxoC] []
  = Err (ErrInsufficientFunds 45000 50000).
Proof.
  apply (Build_insufficient_funds toyLib world toyClient [x02] "tmDest" 50000
           [utxoA; utxoC] [x02] ("tmSender" : Address toyLib)
           ("tmDest" : Address toyLib)).
  - reflexivity.
  - reflexivity.
  - reflexivity.
  - constructor; [apply Examples.wellformed_utxoA|].
    constructor; [apply wellformed_utxoC | constructor].
  - exists [x76; xa9; x14; xaa; x88; xac]. repeat constructor.
  - lia.
  - vm_compute. reflexivity.
Defined.

Lemma fund_rejects_dust_witness :
  fund toyLib world (txPaying 500) (Some ("tmSender" : Address toyLib))
       (mkWorld [utxoC] 0, [])
  = (Err (ErrDustOutput 0 500), (mkWorld [utxoC] 0, [])).
Proof.
  apply (fund_rejects_dust toyLib world (txPaying 500)
           ("tmSender" : Address toyLib) []
           (mkTxOut 500 (list_byte_of_string "tmDest")) []
           (mkWorld [utxoC] 0, [])).
  - reflexivity.
  - constructor.
  - simpl. lia.
Defined.

Lemma fund_takes_shortest_covering_prefix_witness :
  exists sel rest t',
    fund toyLib world (txPaying 20000) (Some ("tmSender" : Address toyLib))
         (mkWorld [utxoA; utxoB; utxoC] 0, [])
    = (Ok t', (mkWorld [utxoA; utxoB; utxoC] 0, []))
    /\ canonical_utxos [utxoA; utxoB; utxoC] = sel ++ rest
    /\ receiveValues toyLib world t' = map Amount sel
    /\ total (receiveValues toyLib world t')
       = output_total (tx_msgTx toyLib world t').
Proof.
  destruct (fund_takes_shortest_covering_prefix toyLib world (txPaying 20000)
              ("tmSender" : Address toyLib) [utxoA; utxoB; utxoC]
              (list_byte_of_string "tmSender")
              (mkWorld [utxoA; utxoB; utxoC] 0) [])
    as (sel & rest & t' & Hfund & Hfl & Hrv & _ & _ & Hacc & _).
  - reflexivity.
  - reflexivity.
  - reflexivity.
  - reflexivity.
  - reflexivity.
  - constructor; [apply Examples.wellformed_utxoA|].
    constructor; [apply Examples.wellformed_utxoB|].
    constructor; [apply wellformed_utxoC | constructor].
  - vm_compute. reflexivity.
  - repeat constructor. simpl. lia.
  - vm_compute. discriminate.
  - exists sel, rest, t'. auto.
Defined.

Lemma fundAll_spends_canonical_utxos_witness :
  exists t',
    fundAll toyLib world (newTx toyLib world toyAccount (NewMsgTx 4 0))
            ("tmSender" : Address toyLib)
            (mkWorld [utxoA; utxoB; utxoC] 0, [])
    = (Ok t', (mkWorld [utxoA; utxoB; utxoC] 0, []))
    /\ receiveValues toyLib world t' = [15000; 30000].
Proof.
  destruct (fundAll_spends_canonical_utxos toyLib world
              (newTx toyLib world toyAccount (NewMsgTx 4 0))
              ("tmSender" : Address toyLib) [utxoA; utxoB; utxoC]
              (mkWorld [utxoA; utxoB; utxoC] 0)
              (mkWorld [utxoA; utxoB; utxoC] 0) [])
    as (ins & t' & Hrun & Hrv & _).
  - reflexivity.
  - reflexivity.
  - constructor; [apply Examples.wellformed_utxoA|].
    constructor; [apply Examples.wellformed_utxoB|].
    constructor; [apply wellformed_utxoC | constructor].
  - exists t'. split; [exact Hrun|]. rewrite Hrv. reflexivity.
Defined.

Lemma sign_scripts_every_input_witness :
  exists t' sig s,
    sign signerLib world fundedTx2 (Some push_one) (Some set_sequence)
         (Some toyContract) = Ok t'
    /\ RawTxInSignature signerLib
         (sign_view (tx_msgTx signerLib world fundedTx2)
                    (TxIns (tx_msgTx signerLib world t')) 1
                    (set_sequence in1))
         1 toyContract SigHashAll [x07] 30000 = Ok sig
    /\ Script signerLib
         (sign_builder signerLib (Some push_one) (Some toyContract) [x07] sig)
       = Ok s
    /\ TxIns (tx_msgTx signerLib world t') !! 1%nat
       = Some (with_script s (set_sequence in1)).
Proof.
  destruct (Ok_of_is_Ok (sign signerLib world fundedTx2 (Some push_one)
                              (Some set_sequence) (Some toyContract)))
    as [t' E]; [vm_compute; reflexivity|].
  destruct (sign_scripts_every_input signerLib world fundedTx2 t'
              (Some push_one) (Some set_sequence) (Some toyContract) E)
    as (pk & Hpk & _ & _ & _ & _ & Hin).
  inversion Hpk; subst pk.
  destruct (Hin 1%nat in1 eq_refl) as (amt & sig & s & Hamt & Hsig & Hs & Hj).
  inversion Hamt; subst amt.
  exists t', sig, s. split; [exact E|]. split; [exact Hsig|].
  split; [exact Hs | exact Hj].
Defined.

Lemma SendTransaction_cancelled_context_witness :
  exists s',
    SendTransaction toyLib world Sleep 1 toyAccount always_done None 0 None
                    (Some (pay 20000)) None None false (mkWorld [utxoC] 0, [])
    = (Some (Err ErrPostConditionCheckFailed), s')
    /\ snd s' = [EvCtxDone true].
Proof.
  destruct (SendTransaction_prepare toyLib world toyAccount None None
              (Some (pay 20000)) None false (mkWorld [utxoC] 0, []))
    as [r s1] eqn:E.
  assert (Hr : is_Ok (fst (SendTransaction_prepare toyLib world toyAccount
                             None None (Some (pay 20000)) None false
                             (mkWorld [utxoC] 0, []))) = true)
    by (vm_compute; reflexivity).
  rewrite E in Hr. cbn [fst] in Hr.
  destruct r as [[t fee] | e |]; [|discriminate Hr ..].
  eexists. split.
  - apply (SendTransaction_cancelled_context toyLib world Sleep 0 toyAccount
             always_done None 0 None (Some (pay 20000)) None None false
             _ s1 t fee E).
    reflexivity.
  - reflexivity.
Defined.

Lemma SendTransaction_preCond_refuses_witness :
  SendTransaction toyLib world Sleep 1 toyAccount never_done None 0 None
                  (Some refuse) None None false (mkWorld [utxoC] 0, [])
  = (Some (Err ErrPreConditionCheckFailed), (mkWorld [utxoC] 0, [])).
Proof.
  apply (SendTransaction_preCond_refuses toyLib world Sleep 1 toyAccount
           never_done None 0 None refuse None None false
           (mkWorld [utxoC] 0, []) (mkMsgTx 4 [] [] 0 ZCashExpiryHeight)
           (mkWorld [utxoC] 0)).
  reflexivity.
Defined.

Lemma Transfer_undecodable_destination_witness :
  exists r,
    Transfer strictLib world Sleep 1 strictAccount never_done "" 20000 0
             false (mkWorld [utxoC] 0, [])
    = (Some r, (mkWorld [utxoC] 0, []))
    /\ r = Err (ErrExternal "decoded address is of unknown format").
Proof.
  destruct (Transfer_undecodable_destination strictLib world Sleep 1
              strictAccount never_done "" 20000 0 false
              (mkWorld [utxoC] 0, [])
              (ErrExternal "decoded address is of unknown format") eq_refl)
    as (r & s' & Hrun & _ & _ & Hs).
  destruct (Hs eq_refl) as [Hr ->].
  exists r. split; [exact Hrun | exact Hr].
Defined.

Lemma Transfer_below_dust_witness :
  Transfer strictLib world Sleep 1 strictAccount never_done "tmDest" 599 0
           false (mkWorld [utxoC] 0, [])
  = (Some (Err (ErrDustOutput 0 599)), (mkWorld [utxoC] 0, [])).
Proof.
  apply (Transfer_below_dust strictLib world Sleep 1 strictAccount never_done
           "tmDest" 599 0 (mkWorld [utxoC] 0, [])
           ("tmDest" : Address strictLib) ("tmSender" : Address strictLib)
           (list_byte_of_string "tmDest")).
  - reflexivity.
  - reflexivity.
  - reflexivity.
  - lia.
Defined.

Lemma Transfer_unpayable_destination_witness :
  Transfer strictLib world Sleep 1 strictAccount never_done "zs1shielded"
           20000 0 false (mkWorld [utxoC] 0, [])
  = (Some (Err ErrPreConditionCheckFailed), (mkWorld [utxoC] 0, [])).
Proof.
  apply (Transfer_unpayable_destination strictLib world Sleep 1 strictAccount
           never_done "zs1shielded" 20000 0 (mkWorld [utxoC] 0, [])
           ("zs1shielded" : Address strictLib)).
  - reflexivity.
  - reflexivity.
Defined.

Lemma Transfer_sendAll_pays_balance_less_fee_witness :
  exists t,
    fst (SendTransaction_prepare toyLib world toyAccount None None
           (Some (Transfer_preCond toyLib world ("tmDest" : Address toyLib)
                                   (input_total [utxoD])))
           None true (mkWorld [utxoD] 0, []))
    = Ok (t, 10000)
    /\ TxOuts (tx_msgTx toyLib world t)
       = [mkTxOut (-6000) (list_byte_of_string "tmDest")].
Proof.
  destruct (Transfer_sendAll_pays_balance_less_fee toyLib world Sleep 1
              toyAccount never_done "tmDest" 123 0 (mkWorld [utxoD] 0)
              (mkWorld [utxoD] 0) [] ("tmSender" : Address toyLib)
              ("tmDest" : Address toyLib) [utxoD])
    as [_ H].
  - reflexivity.
  - reflexivity.
  - constructor; [apply wellformed_utxoD | constructor].
  - vm_compute. reflexivity.
  - reflexivity.
  - destruct (SendTransaction_prepare toyLib world toyAccount None None
                (Some (Transfer_preCond toyLib world
                         ("tmDest" : Address toyLib) (input_total [utxoD])))
                None true (mkWorld [utxoD] 0, []))
      as [r s2] eqn:E.
    assert (Hr : is_Ok (fst (SendTransaction_prepare toyLib world toyAccount
                               None None
                               (Some (Transfer_preCond toyLib world
                                        ("tmDest" : Address toyLib)
                                        (input_total [utxoD])))
                               None true (mkWorld [utxoD] 0, []))) = true)
      by (vm_compute; reflexivity).
    rewrite E in Hr. cbn [fst] in Hr.
    destruct r as [[t fee] | e |]; [|discriminate Hr ..].
    destruct (H t fee s2 eq_refl) as (script & Hs & Ho & ->).
    inversion Hs; subst script.
    exists t. split; [reflexivity | exact Ho].
Defined.

Lemma Transfer_prepares_exact_fee_witness :
  exists t sel,
    fst (SendTransaction_prepare toyLib world toyAccount None None
           (Some (Transfer_preCond toyLib world ("tmDest" : Address toyLib)
                                   20000))
           None false (mkWorld [utxoA; utxoB; utxoC] 0, []))
    = Ok (t, 10000)
    /\ receiveValues toyLib world t = map Amount sel
    /\ input_total sel - output_total (tx_msgTx toyLib world t) = 10000.
Proof.
  destruct (SendTransaction_prepare toyLib world toyAccount None None
              (Some (Transfer_preCond toyLib world
                       ("tmDest" : Address toyLib) 20000))
              None false (mkWorld [utxoA; utxoB; utxoC] 0, []))
    as [r s2] eqn:E.
  assert (Hr : is_Ok (fst (SendTransaction_prepare toyLib world toyAccount
                             None None
                             (Some (Transfer_preCond toyLib world
                                      ("tmDest" : Address toyLib) 20000))
                             None false
                             (mkWorld [utxoA; utxoB; utxoC] 0, []))) = true)
    by (vm_compute; reflexivity).
  rewrite E in Hr. cbn [fst] in Hr.
  destruct r as [[t fee] | e |]; [|discriminate Hr ..].
  destruct (Transfer_prepares_exact_fee toyLib world toyAccount 20000
              (mkWorld [utxoA; utxoB; utxoC] 0) []
              ("tmSender" : Address toyLib) ("tmDest" : Address toyLib)
              [utxoA; utxoB; utxoC] (list_byte_of_string "tmSender")
              t fee s2)
    as (dscript & sel & rest & _ & _ & _ & Hrv & _ & _ & _ & Hfee & Hacc & _).
  - reflexivity.
  - reflexivity.
  - reflexivity.
  - constructor; [apply Examples.wellformed_utxoA|].
    constructor; [apply Examples.wellformed_utxoB|].
    constructor; [apply wellformed_utxoC | constructor].
  - vm_compute. reflexivity.
  - lia.
  - vm_compute. discriminate.
  - exact E.
  - subst fee. exists t, sel. split; [reflexivity|].
    split; [exact Hrv | exact Hacc].
Defined.

Lemma AddressFromHash160_unknown_network_witness :
  AddressFromHash160 toyLib (replicate 20 x00) (mkParams "simnet") false
  = zecDecodeAddress toyLib (base58check toyLib [] (replicate 20 x00)) "simnet".
Proof.
  apply (AddressFromHash160_unknown_network toyLib (replicate 20 x00)
           (mkParams "simnet") false); discriminate.
Defined.
End MoreExamples.
